(* ===== verification/_CoqProject ===== *)
-Q . S2P
Prelude.v
Types.v
Paging.v
Accounts.v
Login.v
Wx.v
Workflow.v
Runs.v
Engine.v
Notify.v
Search.v
Retry.v
Repository.v
Identity.v
