(* ===== verification/Prelude.v ===== *)
(** * A verification development of Yearning's order lists, login handlers
      and WeCom notification (repository solomon-cc/yearning)

    ** The program

    The repository excerpt under [src/] has three Go files:
    - [src/handler/commom/types.go]: the request/response structs of the
      order pages ([PageInfo], [Search], [SQLOrder], [SQLQuery], ...), the
      column list [QueryField], the status-label constants [ORDER_IS_*] /
      [DATA_IS_*], and the two paged list queries [GetSQLOrderList] and
      [GetSQLQueryList] that run a chain of gorm calls
      ([Scopes] -> [Count] -> [Order("id desc")] -> [Offset] -> [Limit]).
    - [src/handler/login/login.go]: the HTTP handlers for LDAP login,
      password login, self-registration and the GitLab OAuth flow; they read
      and create rows of the [core_accounts] and [core_graineds] tables.
    - [src/lib/wx.go]: the WeCom (WeChat Work) notification bridge: a fixed
      e-mail -> WeCom-id table and [SendWxMsg], which sends a markdown message
      to the two parties of a [model.Message] and only logs a failure.

    The spec ([spec.md]) describes a larger order-workflow engine (approval
    chain, audit trail, scoped search).  Its code is not under [src/]; it
    and the parts of it that the sources call ([lib.Paging], the [model]
    structs, [GloOther], the response helpers of [commom]) are modelled
    from the spec and marked [spec_modelled] in the manifest.  The engine's
    worklists are served by [GetSQLOrderList] of [types.go], which is where
    the two halves meet.

    ** Files (in dependency order)

    - [Prelude] (this file): the [yearning_scope] notations for Go's
      wrapping 64-bit [int] arithmetic, the [goerr] error type, the tactics
      [go_case] / [go_simpl], the hint database [yearning], and the shared
      lemmas on [wrap64], on pages of a list ([take]/[drop]) and on
      conjunctions of filters.
    - [Types]: [commom/types.go]: every struct as a [Record], the status
      labels as an [Inductive] with the label table [status_label], the
      column list [QueryField] and its parser, and the [model] rows
      ([CoreSqlOrder], [CoreQueryOrder]) with the column projection that a
      gorm [Select] performs.
    - [Paging]: [lib.Paging] and the two list queries.  The database is a
      list of rows in primary-key order; a gorm scope is a row predicate;
      [Order("id desc")] is stdpp's [merge_sort]; [Offset]/[Limit] follow
      gorm v1, which drops a negative offset.  The handle's [LogMode] flag is
      explicit state, because [GetSQLOrderList] sets it on the shared handle.
    - [Accounts]: the account store ([core_accounts], [core_graineds]) with
      gorm's [First] under a column collation, the external collaborators of
      login (LDAP, Django password hashing, JWT, OAuth, HTTP) as the class
      [LoginEnv], and the store invariants.
    - [Login]: the handlers of [login.go], each a function from the store
      and the bound request to the new store and the HTTP response.
    - [Wx]: [userIds], [whoNeedToSend] and [SendWxMsg].
    - [Workflow]: the order workflow engine of the spec (sections 3 to 8),
      whose code is not under [src/]: the data model ([Order],
      [OrderStatus], [AuditEntry]), the AssignmentResolver ([eligible]),
      the AuditTrail ([audit_append], [History]), the legality of each
      transition on one order ([transition]), and a call as a read of a
      snapshot ([prepare]) followed by a compare-and-swap on
      [(status, current_step)] that writes the order, one audit entry and
      one event ([commit]).  [Spec.step] is the abstract lifecycle of
      spec 4.1, and the single-call lemmas (well-formedness, audit
      consistency) live here.
    - [Runs]: a [run] lists the stores the engine goes through; each call
      reads any earlier store of the run and commits against the newest,
      which covers every interleaving of concurrent calls.  The run
      invariants (well-formed orders, dense ids, unique work ids, an audit
      that only grows, orders that are never lost) are proved by rule
      induction on [run]; [run_seq] and [after] run a list of calls
      sequentially.
    - [Engine]: the engine's behaviour on concrete and symbolic call
      sequences: conflicts between calls from one snapshot, frozen terminal
      orders, the approval chain ([approve_all]) and its completion, and the
      scenario of spec 8.
    - [Notify]: the NotificationBridge of spec 6 on top of [SendWxMsg]:
      each committed event becomes one WeCom message per next actor (the
      owner when none follows); [call_notify] is a call followed by the
      delivery of the events it appended.  The markdown template and the
      e-mail of an account are section variables.
    - [Search]: ScopedSearch (spec 4.4): the engine's orders as
      [core_sql_orders] rows, the role scopes (owner, auditor with its
      audit lookup, admin) and the criteria of the [Search] struct
      ([search_filters]) handed to [GetSQLOrderList]; [Worklist] is a
      worklist request.
    - [Retry]: the bounded automatic retry of a call that lost the
      compare-and-swap (spec 7).  [attempt] reads the current store, lets
      the writes of other callers land, then commits; [retry n] makes at
      most [n + 1] attempts and retries only on [Conflict]; the section
      variables are those of [Notify].
    - [Repository]: the repository contract of spec 6 as the class
      [Repository] (Load, CompareAndSwap, AppendAudit, History, Rows,
      Query) with the class of its laws [RepositoryLaws]; the section
      [Client] proves the engine's update procedure ([apply_update]:
      compare-and-swap, then append) against any lawful repository; the
      instance [engine_repository] is the engine's store with [Query] served
      by [gorm_find] of [types.go] over the [core_sql_orders] rows.
    - [Identity]: the identity contract of spec 6 ([Resolve]) over the
      [core_accounts] rows the login handlers create ([directory_of], the
      role read from the [rule] column): the composition of [Login] with
      the engine's authority checks.

    ** What is proved (see PROJECT.json for the numbered claims)

    - Paging: the total count does not depend on the page; a page has
      [min 15 (count - 15 (page-1))] rows; the pages concatenate to the whole
      sorted result; rows come in descending id order and satisfy every
      scope; the scope list can be permuted ([Proper] instance); page 0 and
      negative pages, and pages past the int64 overflow bound, return page 1;
      [GetSQLOrderList] returns rows without their id ([QueryField] omits
      it) and turns on SQL logging for the whole process.  The gorm chain
      refines the repository's Query contract (matching rows, sorted by id
      descending, from the offset, at most the limit); the result does not
      depend on the physical order of rows with unique ids; and a client
      reading pages until a short one stops within [count / 15 + 1]
      requests, having read every matching row once.
    - Login: the store invariants (every account has a grained row; no two
      accounts collide under the collation) are preserved by every handler,
      except self-registration of an empty user name, which duplicates an
      account (a counterexample is proved); failures leave the store
      unchanged; password login succeeds exactly when the stored name is
      the requested one and the password checks; registering then logging in
      with the same password succeeds.  Every JSON response pairs its
      status code with its payload kind (301 exactly for the redirect, 200
      or 500 for an error message, 200 otherwise).  Several bugs are proved
      as theorems: a first LDAP login issues a token with an empty role; a
      new GitLab user is issued a token with an empty role though "rule"
      says "guest"; an empty GitLab profile makes the callback dereference
      nil; a failed JWT signature in password login produces no HTTP
      response; and in the callback it comes after the account was stored
      and ends in a panic, because [ERR_COMMON_MESSAGE] is handed the nil
      registration error.  [commom.ERR_COMMON_MESSAGE] is outside [src/];
      it is modelled as building its text with [err.Error()], which panics
      on a nil error ([Login.common_message]).
    - Notification: [SendWxMsg] hands the API exactly one message and logs
      exactly the API's error; the message reaches nobody but its two
      parties (the id table is one-to-one and no address has the empty
      id, which an unknown e-mail becomes).  A workflow call's result never depends on WeCom, a call that
      commits nothing sends nothing, and a committed call announces its one
      event exactly once; the approval that ends a chain and a
      cancellation after it are sent with the same text.
    - Workflow engine (theorems of [Workflow], not numbered claims because
      the engine's code is outside [src/]): a failed call changes nothing
      and a call on a fresh read never fails with [Conflict]; in every run
      every order is well formed; every successful call moves an order by
      one step of [Spec.step] (refinement); two approvals from one snapshot
      give one success and one [Conflict], the step advancing by one;
      terminal orders are frozen under any interleaving; cancel is
      idempotent; an edit by a stranger is [Forbidden] and changes
      nothing; an approval succeeds exactly when the actor is eligible for
      the step the order waits on; approvals by eligible actors of every
      step end the chain in [AllEnded] (progress); the resolver returns
      exactly the accounts holding the step's label; the scenario of spec 8
      computes as stated.  In runs without rejections the last audit entry
      of an order carries its status; with rejections the idempotent append
      loses entries ([audit_loses_second_reject]), and two edits from one
      snapshot both commit ([concurrent_edits_lost_update]).
    - Worklists: an owner sees only their orders and all of them on some
      page; an auditor sees only orders assigned to them or that they acted
      on, and keeps an order they approved in runs without rejections; but
      in any run, an approval at a step whose approval key is already in
      the audit trail (a round before a reject and re-edit) is dropped from
      the trail, and its auditor, unless assigned next, never sees the
      order in their worklist; the admin count is the number of
      orders ever created; a search by work id lists at most one order, of
      that work id; and once every step is approved by an eligible actor the
      admin worklist shows the order as [AllEnded] (progress).
    - Retry: a retry is its last attempt on the store the other callers
      left, the earlier attempts leaving no trace; it ends in [Conflict]
      only if every attempt was interfered with; it announces its
      transition at most once, whatever the number of conflicts; and it is
      an execution of the concurrency model of [Runs], so the run
      invariants hold of its result.
    - Repository: the engine's store is a lawful repository
      (refinement of the contract, its [Query] being the gorm chain); the
      engine's [commit] of an update is the contract's compare-and-swap,
      then the append, then the event; against any lawful repository an
      update lands exactly on the expected version, the history grows by at
      most one entry, and of two updates from one snapshot the second is
      refused.
    - Identity: every account a login handler creates has the rule
      [guest], whatever the request asks, so in every store reached by any
      sequence of login, registration and OAuth calls nobody resolves to an
      admin, and an account edits, deletes or cancels an order it does not
      own only to be refused with [Forbidden].

    ** Bounds and fuel

    Only the paged client [read_pages] has fuel, the number of page
    requests; [count / 15 + 1] requests are enough, which is the
    termination theorem.  [retry] recurses on its retry bound [n], the
    spec's "small bounded count": it makes at most [n + 1] attempts, and
    one attempt without interference is enough to rule out [Conflict].
    Every other function is structural.  Go's [int] is
    64-bit; [Paging] is computed with [wrap64], and the page bound
    [max_page = 614891469123651720] keeps [15 * page] inside an int64.
    Worklist completeness assumes at most [15 * max_page] orders, so that
    every row has a page in range.  Engine ids and steps are [nat]: the
    spec gives them no width.

    ** Not modelled

    HTTP routing and request binding (a bind failure is a [None] request),
    the wire format of responses (a response is a status code and a
    payload constructor), the implementations of LDAP bind, Django hashing,
    JWT signing, OAuth exchange and the WeCom client (fields of [LoginEnv] /
    [WxEnv], with only the law that a hash checks against its password),
    timestamps of audit entries, the multi-approver mode (the spec does not
    say what it changes), the template that turns a workflow event into
    a WeCom message (a section variable of [Notify]), and the department
    criterion of a search, which reads the account table. *)

From stdpp Require Export base list strings gmap sorting.
From Stdlib Require Export ZArith Lia.

Declare Scope yearning_scope.
Delimit Scope yearning_scope with go.
Open Scope Z_scope.

(** ** Go's [int]: signed 64-bit two's complement *)

Definition int64_modulus : Z := 2 ^ 64.
Definition int64_min : Z := - 2 ^ 63.
Definition int64_max : Z := 2 ^ 63 - 1.

(** Reduce a mathematical integer to the int64 it wraps to. *)
Definition wrap64 (z : Z) : Z := (z + 2 ^ 63) mod int64_modulus - 2 ^ 63.

Definition go_mul (a b : Z) : Z := wrap64 (a * b).
Definition go_sub (a b : Z) : Z := wrap64 (a - b).

Notation "a ⊗ b" := (go_mul a b) (at level 40, left associativity) : yearning_scope.
Notation "a ⊖ b" := (go_sub a b) (at level 50, left associativity) : yearning_scope.

(** A Go [error] value: [None] is [nil], [Some msg] an error with its text. *)
Definition goerr := option string.

(** ** Tactics *)

(** Split every [match]/[if] of the goal and the hypotheses, and clean up. *)
Ltac go_case :=
  simplify_eq/=; repeat (case_match; simplify_eq/=);
  repeat match goal with
         | H : bool_decide _ = true |- _ => apply bool_decide_eq_true in H
         | H : bool_decide _ = false |- _ => apply bool_decide_eq_false in H
         end.
Ltac go_simpl := simpl in *; go_case; try done.

Create HintDb yearning.

(** ** int64 lemmas *)

Lemma wrap64_small z : int64_min <= z <= int64_max -> wrap64 z = z.
Proof.
  unfold wrap64, int64_min, int64_max, int64_modulus. intros H.
  rewrite Z.mod_small; lia.
Qed.

Lemma wrap64_range z : int64_min <= wrap64 z <= int64_max.
Proof.
  unfold wrap64, int64_min, int64_max, int64_modulus.
  pose proof (Z.mod_pos_bound (z + 2 ^ 63) (2 ^ 64)). lia.
Qed.

Lemma wrap64_add_modulus z k : wrap64 (z + k * int64_modulus) = wrap64 z.
Proof.
  unfold wrap64. f_equal.
  replace (z + k * int64_modulus + 2 ^ 63) with (z + 2 ^ 63 + k * int64_modulus) by lia.
  apply Z_mod_plus_full.
Qed.

#[export] Hint Resolve wrap64_range : yearning.

(** ** Pages of a list *)

(** The [n]-th page (from 0) of size [k] is [take k (drop (n*k) l)]. *)
Lemma length_page {A} (l : list A) (s k : nat) :
  length (take k (drop s l)) = Nat.min k (length l - s).
Proof. rewrite length_take, length_drop. lia. Qed.

(** Consecutive pages concatenate to a prefix of the list. *)
Lemma pages_concat {A} (l : list A) (k n : nat) :
  mjoin ((λ i, take k (drop (i * k) l)) <$> seq 0 n) = take (n * k) l.
Proof.
  induction n as [|n IH]; [done|].
  rewrite seq_S, fmap_app, join_app, IH. simpl. rewrite app_nil_r.
  rewrite take_take_drop. f_equal. lia.
Qed.

(** ** Conjunctions of filters *)

(** [all_of ps x]: every predicate of the list accepts [x]; this is how a
    chain of gorm scopes, each adding a [WHERE] clause, filters rows. *)
Definition all_of {A} (ps : list (A → bool)) (x : A) : bool :=
  forallb (λ p, p x) ps.

Lemma all_of_true {A} (ps : list (A → bool)) x :
  all_of ps x = true ↔ ∀ p, p ∈ ps → p x = true.
Proof.
  unfold all_of. rewrite forallb_forall.
  setoid_rewrite list_elem_of_In. done.
Qed.

Lemma all_of_Permutation {A} (ps qs : list (A → bool)) x :
  ps ≡ₚ qs → all_of ps x = all_of qs x.
Proof.
  intros Hp. apply Bool.eq_true_iff_eq. rewrite !all_of_true.
  by setoid_rewrite Hp.
Qed.

Lemma all_of_app {A} (ps qs : list (A → bool)) x :
  all_of (ps ++ qs) x = all_of ps x && all_of qs x.
Proof. apply forallb_app. Qed.

(** ** Sublists *)

Lemma StronglySorted_sublist {A} (R : relation A) (l1 l2 : list A) :
  l1 `sublist_of` l2 → StronglySorted R l2 → StronglySorted R l1.
Proof.
  induction 1 as [|x l1 l2 Hsub IH|x l1 l2 Hsub IH]; intros Hs; [constructor| |].
  - apply StronglySorted_cons in Hs as [HF Hs].
    constructor; [by apply IH|].
    rewrite List.Forall_forall in HF |- *. intros y Hy. apply HF.
    apply list_elem_of_In. eapply elem_of_sublist; [by apply list_elem_of_In | exact Hsub].
  - apply IH. by apply StronglySorted_inv in Hs as [].
Qed.

#[export] Hint Resolve sublist_take sublist_drop : yearning.

(** ** Searching a list *)

Lemma find_app {A} (f : A → bool) (l1 l2 : list A) :
  List.find f (l1 ++ l2) =
  match List.find f l1 with Some x => Some x | None => List.find f l2 end.
Proof. induction l1 as [|x l1 IH]; simpl; [done|]. by destruct (f x). Qed.

(** ** Association lists *)

(** In a list of pairs whose second components are distinct, a second
    component determines its pair. *)
Lemma NoDup_snd_inj {A B} (l : list (A * B)) a1 a2 b :
  NoDup (snd <$> l) → (a1, b) ∈ l → (a2, b) ∈ l → a1 = a2.
Proof.
  induction l as [|[x y] l IH]; simpl; [set_solver|].
  intros [Hy Hnd]%NoDup_cons H1 H2.
  apply elem_of_cons in H1, H2.
  destruct H1 as [H1|H1], H2 as [H2|H2]; simplify_eq; try done; [..|by apply IH];
    destruct Hy; apply list_elem_of_fmap; eexists; (split; [|eassumption]); done.
Qed.

(** Filtering keeps permutations (the Standard Library's [List.filter]). *)
Lemma filter_Permutation_std {A} (f : A → bool) (l1 l2 : list A) :
  l1 ≡ₚ l2 → List.filter f l1 ≡ₚ List.filter f l2.
Proof.
  induction 1 as [|x l1 l2 _ IH|x y l|l1 l2 l3 _ IH1 _ IH2]; simpl; [done| | |by etrans].
  - destruct (f x); [by constructor|done].
  - destruct (f x), (f y); [apply perm_swap|done..].
Qed.

(** A key that is unique in a list identifies its element. *)
Lemma NoDup_fmap_elem_inj {A B} (f : A → B) (l : list A) x y :
  NoDup (f <$> l) → x ∈ l → y ∈ l → f x = f y → x = y.
Proof.
  induction l as [|z l IH]; simpl; [set_solver|].
  intros [Hz Hnd]%NoDup_cons Hx Hy Hf.
  apply elem_of_cons in Hx as [->|Hx], Hy as [->|Hy]; [done| | |by apply IH].
  - destruct Hz. rewrite Hf. by apply list_elem_of_fmap_2.
  - destruct Hz. rewrite <- Hf. by apply list_elem_of_fmap_2.
Qed.

Lemma sublist_filter_std {A} (f : A → bool) (l : list A) : List.filter f l `sublist_of` l.
Proof. induction l as [|x l IH]; simpl; [done|]. destruct (f x); by constructor. Qed.

Lemma NoDup_fmap_filter_std {A B} (f : A → B) (g : A → bool) (l : list A) :
  NoDup (f <$> l) → NoDup (f <$> List.filter g l).
Proof.
  induction l as [|x l IH]; simpl; [done|]. intros [Hx Hnd]%NoDup_cons.
  destruct (g x); simpl; [|by apply IH]. constructor; [|by apply IH].
  intros Hin. apply Hx. apply list_elem_of_fmap in Hin as (y & -> & Hy).
  apply list_elem_of_fmap_2. eapply elem_of_sublist; [exact Hy|apply sublist_filter_std].
Qed.
