(* ===== verification/Types.v ===== *)
(** * [src/handler/commom/types.go]: request/response structs, status labels
      and the [QueryField] column list

    Every Go struct is a [Record] with the same field names ([int] as [Z],
    [uint] as [N], [interface{}] as a type parameter).  The database rows it
    refers to ([model.CoreSqlOrder], [model.CoreQueryOrder]) live outside
    [src/]; they are modelled from the spec's data model with the columns that
    [QueryField] names.  [select_sql_order] is what gorm's [Select(QueryField)]
    does to a row: columns not named keep Go's zero value. *)

From S2P Require Import Prelude.
From Stdlib Require Import Ascii.

(** ** Structs of types.go *)

Record ExecuteStr := {
  ES_WorkId : string; ES_Perform : string; ES_Page : Z;
  ES_Flag : Z; ES_Text : string; ES_Tp : string }.

Record Search := {
  Picker : list string; Valve : bool; S_Text : string; Explain : string;
  S_WorkId : string; S_Type : Z; S_Status : Z; S_IDC : string;
  S_Source : string; S_Username : string; Dept : string }.

Record PageInfo := { Page : Z; Find : Search; Tp : string }.

Record CommonList {D S Q A : Type} := {
  CL_Page : Z; CL_Data : D; CL_IDC : list string; CL_Source : S;
  CL_Query : Q; CL_Auditor : A; CL_Multi : bool }.

Record SQLTest := {
  T_Source : string; T_SQL : string; T_Database : string;
  T_IsDML : bool; T_WorkId : string }.

Record QueryOrder := {
  QO_IDC : string; QO_Source : string; QO_Export : N; QO_Assigned : string;
  QO_Text : string; QO_WorkId : string; QO_Tp : string }.

(** ** Rows of the order tables (model package, from the spec) *)

Record CoreSqlOrder := {
  ID : Z; WorkId : string; Username : string; Text : string; Backup : Z;
  Date : string; RealName : string; Executor : string; Status : Z; Type_ : Z;
  Delay : string; Source : string; IDC : string; DataBase : string;
  Table : string; ExecuteTime : string; Assigned : string;
  CurrentStep : Z; Relevant : string }.

Record CoreQueryOrder := {
  Q_ID : Z; Q_WorkId : string; Q_Username : string; Q_Date : string;
  Q_Text : string; Q_Assigned : string; Q_RealName : string; Q_Export : Z;
  Q_IDC : string; Q_Source : string; Q_QueryPer : Z }.

(** Process-wide settings ([model.GloOther], from the spec's configuration
    struct): multi-approver mode and whether self-registration is open. *)
Record GloOther := { Multi : bool; Register : bool }.

Record SQLOrder := { SO_List : list CoreSqlOrder; SO_Multi : bool; SO_Count : Z }.

Record SQLQuery := { SQ_List : list CoreQueryOrder; SQ_Count : Z }.

(** ** Status labels *)

Inductive OrderLabel :=
| ORDER_IS_CREATE | ORDER_IS_DUP | ORDER_IS_EDIT | ORDER_IS_DELETE
| ORDER_IS_CLEAR | ORDER_IS_AGREE | ORDER_IS_REJECT | ORDER_IS_ALL_END
| ORDER_IS_END | ORDER_IS_ALL_CANCEL | DATA_IS_DELETE | DATA_IS_EDIT
| DATA_IS_UPDATED.

#[export] Instance OrderLabel_eq_dec : EqDecision OrderLabel.
Proof. solve_decision. Defined.

Definition all_labels : list OrderLabel :=
  [ORDER_IS_CREATE; ORDER_IS_DUP; ORDER_IS_EDIT; ORDER_IS_DELETE;
   ORDER_IS_CLEAR; ORDER_IS_AGREE; ORDER_IS_REJECT; ORDER_IS_ALL_END;
   ORDER_IS_END; ORDER_IS_ALL_CANCEL; DATA_IS_DELETE; DATA_IS_EDIT;
   DATA_IS_UPDATED].

(** The constants exactly as the source file holds them: the localized text
    is stored as runs of ['?'], so only the run length tells them apart. *)
Definition status_label (l : OrderLabel) : string :=
  match l with
  | ORDER_IS_CREATE => "???????????????!"
  | ORDER_IS_DUP => "????????????????????????!"
  | ORDER_IS_EDIT => "??????????????????"
  | ORDER_IS_DELETE => "??????????????????"
  | ORDER_IS_CLEAR => "???????????????"
  | ORDER_IS_AGREE => "???????????????"
  | ORDER_IS_REJECT => "???????????????"
  | ORDER_IS_ALL_END => "?????????????????????"
  | ORDER_IS_END => "???????????????"
  | ORDER_IS_ALL_CANCEL => "?????????????????????"
  | DATA_IS_DELETE => "??????????????????"
  | DATA_IS_EDIT => "??????????????????"
  | DATA_IS_UPDATED => "???????????????"
  end.

(** ** The select list *)

Definition QueryField : string :=
  "work_id, username, text, backup, date, real_name, executor, `status`, `type`, `delay`, `source`,`id_c`,`data_base`,`table`,`execute_time`,assigned,current_step,relevant".

(** Split a select list at its commas. *)
Fixpoint split_commas (s : string) : list string :=
  match s with
  | EmptyString => [EmptyString]
  | String a s' =>
      if Ascii.eqb a ","%char then EmptyString :: split_commas s'
      else match split_commas s' with
           | w :: ws => String a w :: ws
           | [] => [String a EmptyString]
           end
  end.

(** A column token without its blanks and MySQL back-quotes. *)
Fixpoint unquote (s : string) : string :=
  match s with
  | EmptyString => EmptyString
  | String a s' =>
      if Ascii.eqb a " "%char || Ascii.eqb a "`"%char then unquote s' else String a (unquote s')
  end.

Definition select_columns (sel : string) : list string := unquote <$> split_commas sel.

(** A selected column keeps its value; an unselected one keeps Go's zero value. *)
Definition pick {A} (zero : A) (cols : list string) (name : string) (v : A) : A :=
  if bool_decide (name ∈ cols) then v else zero.

(** The row gorm scans into a [CoreSqlOrder] under [Select(sel)]. *)
Definition select_sql_order (sel : string) (r : CoreSqlOrder) : CoreSqlOrder :=
  let c := select_columns sel in
  {| ID := pick 0 c "id" (ID r);
     WorkId := pick "" c "work_id" (WorkId r);
     Username := pick "" c "username" (Username r);
     Text := pick "" c "text" (Text r);
     Backup := pick 0 c "backup" (Backup r);
     Date := pick "" c "date" (Date r);
     RealName := pick "" c "real_name" (RealName r);
     Executor := pick "" c "executor" (Executor r);
     Status := pick 0 c "status" (Status r);
     Type_ := pick 0 c "type" (Type_ r);
     Delay := pick "" c "delay" (Delay r);
     Source := pick "" c "source" (Source r);
     IDC := pick "" c "id_c" (IDC r);
     DataBase := pick "" c "data_base" (DataBase r);
     Table := pick "" c "table" (Table r);
     ExecuteTime := pick "" c "execute_time" (ExecuteTime r);
     Assigned := pick "" c "assigned" (Assigned r);
     CurrentStep := pick 0 c "current_step" (CurrentStep r);
     Relevant := pick "" c "relevant" (Relevant r) |}.

(** ** Lemmas *)

Lemma QueryField_columns :
  select_columns QueryField =
  ["work_id"; "username"; "text"; "backup"; "date"; "real_name"; "executor";
   "status"; "type"; "delay"; "source"; "id_c"; "data_base"; "table";
   "execute_time"; "assigned"; "current_step"; "relevant"].
Proof. vm_compute. reflexivity. Qed.

(** Selecting [QueryField] keeps every column of an order except its id,
    which reads as 0. *)
Lemma select_QueryField (r : CoreSqlOrder) :
  select_sql_order QueryField r = {| ID := 0; WorkId := WorkId r;
    Username := Username r; Text := Text r; Backup := Backup r; Date := Date r;
    RealName := RealName r; Executor := Executor r; Status := Status r;
    Type_ := Type_ r; Delay := Delay r; Source := Source r; IDC := IDC r;
    DataBase := DataBase r; Table := Table r; ExecuteTime := ExecuteTime r;
    Assigned := Assigned r; CurrentStep := CurrentStep r; Relevant := Relevant r |}.
Proof. unfold select_sql_order. rewrite QueryField_columns. reflexivity. Qed.

(** The 13 status constants of types.go are only 5 distinct strings,
    although each names a different status (the spec says the labels map
    one-to-one to the statuses). *)
Theorem status_label_collisions :
  NoDup all_labels ∧ (∀ l, l ∈ all_labels) ∧
  length (remove_dups (status_label <$> all_labels)) = 5%nat ∧
  status_label ORDER_IS_EDIT = status_label ORDER_IS_DELETE ∧
  status_label ORDER_IS_ALL_END = status_label ORDER_IS_ALL_CANCEL.
Proof.
  split_and!; [apply (bool_decide_unpack _ (dec := NoDup_dec all_labels)); vm_compute; exact I | intros []; set_solver
              | vm_compute; reflexivity | reflexivity | reflexivity].
Qed.

#[export] Instance CoreSqlOrder_eq_dec : EqDecision CoreSqlOrder.
Proof. solve_decision. Defined.

#[export] Instance CoreQueryOrder_eq_dec : EqDecision CoreQueryOrder.
Proof. solve_decision. Defined.
