(* ===== verification/Paging.v ===== *)
(** * The paged order lists of [types.go]: [lib.Paging], the gorm query chain,
      [GetSQLOrderList] and [GetSQLQueryList]

    A table is the list of its rows in primary-key (insertion) order.  A gorm
    scope adds a [WHERE] clause, so a scope is a row predicate and a list of
    scopes is their conjunction ([all_of]).  The chain
    [Scopes(scopes...).Count(&n).Order("id desc").Offset(start).Limit(k)]
    counts the filtered rows, sorts them by id descending (stdpp's
    [merge_sort]), and cuts the page out of them; gorm v1 writes no
    [OFFSET] clause for a negative offset, nor a [LIMIT] for a negative
    limit.  [lib.Paging] (outside [src/]) computes the offset as the spec's
    1-based page times the page size minus one page, in Go [int]
    arithmetic. *)

From S2P Require Import Prelude Types.

Open Scope yearning_scope.

(** ** lib.Paging and the gorm query chain *)

(** [start = i*total - total], [end = total], both Go [int]s. *)
Definition Paging (page total : Z) : Z * Z := ((page ⊗ total) ⊖ total, total).

(** The shared [*gorm.DB] handle: [LogMode(true)] sets a flag on it in place. *)
Record DBHandle := { log_mode : bool }.

Definition LogMode (enable : bool) (db : DBHandle) : DBHandle := {| log_mode := enable |}.

Definition gorm_offset {A} (o : Z) (l : list A) : list A :=
  if o <? 0 then l else drop (Z.to_nat o) l.

Definition gorm_limit {A} (n : Z) (l : list A) : list A :=
  if n <? 0 then l else take (Z.to_nat n) l.

(** [Order("id desc")]: a stable sort on the id column, largest first. *)
Definition order_id_desc {A} (id : A → Z) (l : list A) : list A :=
  @merge_sort A (λ a b, id b <= id a) (λ a b, Z_le_dec (id b) (id a)) l.

(** [Scopes(..).Count(&n).Order("id desc").Offset(start).Limit(lim).Find(&l)]. *)
Definition gorm_find {A} (id : A → Z) (scopes : list (A → bool)) (start lim : Z)
    (table : list A) : Z * list A :=
  let rows := List.filter (all_of scopes) table in
  (Z.of_nat (length rows), gorm_limit lim (gorm_offset start (order_id_desc id rows))).

(** ** The two list handlers *)

Definition page_size : Z := 15.

Definition GetSQLOrderList (db : DBHandle) (glo : GloOther) (p : PageInfo)
    (scopes : list (CoreSqlOrder → bool)) (table : list CoreSqlOrder)
    : DBHandle * SQLOrder :=
  let '(start, offset) := Paging (Page p) page_size in
  let db := LogMode true db in
  let '(cnt, rows) := gorm_find ID scopes start offset table in
  (db, {| SO_List := select_sql_order QueryField <$> rows;
          SO_Count := cnt;
          SO_Multi := Multi glo |}).

Definition GetSQLQueryList (p : PageInfo) (scopes : list (CoreQueryOrder → bool))
    (table : list CoreQueryOrder) : SQLQuery :=
  let '(start, offset) := Paging (Page p) page_size in
  let '(cnt, rows) := gorm_find Q_ID scopes start offset table in
  {| SQ_List := rows; SQ_Count := cnt |}.

(** The largest page whose product [page * 15] is still an int64. *)
Definition max_page : Z := 614891469123651720.

(** The rows the query ranks, and page [n] of them counted from 0. *)
Definition ranked {A} (id : A → Z) (scopes : list (A → bool)) (table : list A) : list A :=
  order_id_desc id (List.filter (all_of scopes) table).

Definition page_of {A} (l : list A) (n : nat) : list A :=
  take 15 (drop (n * 15) l).

(** ** Offsets *)

Lemma Paging_in_range page :
  1 <= page <= max_page → Paging page page_size = ((page - 1) * 15, 15).
Proof.
  intros Hp. unfold Paging, go_mul, go_sub, page_size, max_page in *.
  rewrite (wrap64_small (page * 15)), wrap64_small;
    unfold int64_min, int64_max; [f_equal; lia | lia | lia].
Qed.

Lemma gorm_find_in_range {A} (id : A → Z) scopes table (n : nat) :
  gorm_find id scopes (Z.of_nat n * 15) 15 table =
  (Z.of_nat (length (List.filter (all_of scopes) table)),
   page_of (ranked id scopes table) n).
Proof.
  unfold gorm_find, gorm_offset, gorm_limit, page_of, ranked.
  rewrite (proj2 (Z.ltb_ge _ _)), (proj2 (Z.ltb_ge _ _)) by lia.
  repeat f_equal; lia.
Qed.

Lemma gorm_find_negative {A} (id : A → Z) scopes table start :
  start < 0 →
  gorm_find id scopes start 15 table = gorm_find id scopes 0 15 table.
Proof.
  intros Hs. unfold gorm_find, gorm_offset.
  rewrite (proj2 (Z.ltb_lt _ _)) by lia. done.
Qed.

Lemma ranked_sorted {A} (id : A → Z) scopes (table : list A) :
  StronglySorted (λ a b, id b <= id a) (ranked id scopes table).
Proof. apply StronglySorted_merge_sort; [intros ???; lia | intros ??; lia]. Qed.

Lemma ranked_elem {A} (id : A → Z) scopes (table : list A) r :
  r ∈ ranked id scopes table ↔ r ∈ table ∧ all_of scopes r = true.
Proof.
  unfold ranked, order_id_desc. rewrite merge_sort_Permutation.
  rewrite !list_elem_of_In, filter_In. done.
Qed.

(** What [Offset]/[Limit] return is always a sublist of the ranked rows. *)
Lemma gorm_find_sublist {A} (id : A → Z) scopes start lim (table : list A) :
  (gorm_find id scopes start lim table).2 `sublist_of` ranked id scopes table.
Proof.
  unfold gorm_find, gorm_limit, gorm_offset, ranked. simpl.
  destruct (start <? 0), (lim <? 0);
    repeat (etrans; [apply sublist_take || apply sublist_drop|]); done.
Qed.

Lemma gorm_find_count {A} (id : A → Z) scopes start lim (table : list A) :
  (gorm_find id scopes start lim table).1 = Z.of_nat (length (List.filter (all_of scopes) table)).
Proof. done. Qed.

(** The query at a page in [1 .. max_page] cuts page [page - 1] (from 0). *)
Lemma gorm_find_Paging {A} (id : A → Z) scopes (table : list A) page :
  1 <= page <= max_page →
  let '(start, lim) := Paging page page_size in
  gorm_find id scopes start lim table =
  (Z.of_nat (length (List.filter (all_of scopes) table)),
   page_of (ranked id scopes table) (Z.to_nat (page - 1))).
Proof.
  intros Hp. rewrite Paging_in_range by done.
  rewrite <- gorm_find_in_range. repeat f_equal. lia.
Qed.

(** Where [lib.Paging]'s offset is negative, gorm sends no [OFFSET]. *)
Lemma gorm_find_Paging_negative {A} (id : A → Z) scopes (table : list A) page :
  (Paging page page_size).1 < 0 →
  let '(start, lim) := Paging page page_size in
  gorm_find id scopes start lim table = gorm_find id scopes 0 15 table.
Proof. intros Hs. simpl in *. by apply gorm_find_negative. Qed.

(** ** Scope lists up to equivalence *)

(** Two scope lists are equivalent when they accept the same rows. *)
Definition scopes_equiv {A} (s1 s2 : list (A → bool)) : Prop :=
  ∀ r, all_of s1 r = all_of s2 r.

#[export] Instance scopes_equiv_equivalence {A} : Equivalence (@scopes_equiv A).
Proof.
  split; [by intros ??|by intros ????|].
  intros ??? H1 H2 r. by rewrite H1, H2.
Qed.

Lemma scopes_equiv_Permutation {A} (s1 s2 : list (A → bool)) :
  s1 ≡ₚ s2 → scopes_equiv s1 s2.
Proof. intros Hp r. by apply all_of_Permutation. Qed.

#[export] Instance gorm_find_proper {A} (id : A → Z) :
  Proper (scopes_equiv ==> eq ==> eq ==> eq ==> eq) (gorm_find id).
Proof.
  intros s1 s2 Hs ?? -> ?? -> ?? ->. unfold gorm_find.
  by rewrite (List.filter_ext _ _ Hs).
Qed.

#[export] Instance GetSQLQueryList_proper :
  Proper (eq ==> scopes_equiv ==> eq ==> eq) GetSQLQueryList.
Proof.
  intros ?? -> s1 s2 Hs ?? ->. unfold GetSQLQueryList, gorm_find.
  destruct (Paging _ _). by rewrite (List.filter_ext _ _ Hs).
Qed.

#[export] Instance GetSQLOrderList_proper :
  Proper (eq ==> eq ==> eq ==> scopes_equiv ==> eq ==> eq) GetSQLOrderList.
Proof.
  intros ?? -> ?? -> ?? -> s1 s2 Hs ?? ->. unfold GetSQLOrderList.
  destruct (Paging _ _). by rewrite Hs.
Qed.

(** ** The list handlers *)

(** The same request at another page. *)
Definition at_page (p : PageInfo) (k : Z) : PageInfo :=
  {| Page := k; Find := Find p; Tp := Tp p |}.

Lemma query_list_at_page p scopes table :
  1 <= Page p <= max_page →
  GetSQLQueryList p scopes table =
  {| SQ_List := page_of (ranked Q_ID scopes table) (Z.to_nat (Page p - 1));
     SQ_Count := Z.of_nat (length (List.filter (all_of scopes) table)) |}.
Proof.
  intros Hp. unfold GetSQLQueryList.
  pose proof (gorm_find_Paging Q_ID scopes table _ Hp) as Hf.
  destruct (Paging _ _). by rewrite Hf.
Qed.

(** C2: [GetSQLQueryList] at a page in [1 .. max_page] returns the
    [page]-th block of 15 of the matching query orders, ranked by id
    descending, and the number of all matching orders. *)
Theorem GetSQLQueryList_page p scopes table :
  1 <= Page p <= max_page →
  GetSQLQueryList p scopes table =
  {| SQ_List := page_of (ranked Q_ID scopes table) (Z.to_nat (Page p - 1));
     SQ_Count := Z.of_nat (length (List.filter (all_of scopes) table)) |}.
Proof. apply query_list_at_page. Qed.


Lemma order_list_at_page db glo p scopes table :
  1 <= Page p <= max_page →
  GetSQLOrderList db glo p scopes table =
  ({| log_mode := true |},
   {| SO_List := select_sql_order QueryField <$>
                   page_of (ranked ID scopes table) (Z.to_nat (Page p - 1));
      SO_Count := Z.of_nat (length (List.filter (all_of scopes) table));
      SO_Multi := Multi glo |}).
Proof.
  intros Hp. unfold GetSQLOrderList.
  pose proof (gorm_find_Paging ID scopes table _ Hp) as Hf.
  destruct (Paging _ _). by rewrite Hf.
Qed.

(** C1: [GetSQLOrderList] at a page in [1 .. max_page] returns the same block
    of the matching orders, each projected on [QueryField], the number of
    all matching orders and the multi-approver flag; it leaves the shared
    database handle in SQL-logging mode. *)
Theorem GetSQLOrderList_page db glo p scopes table :
  1 <= Page p <= max_page →
  GetSQLOrderList db glo p scopes table =
  ({| log_mode := true |},
   {| SO_List := select_sql_order QueryField <$>
                   page_of (ranked ID scopes table) (Z.to_nat (Page p - 1));
      SO_Count := Z.of_nat (length (List.filter (all_of scopes) table));
      SO_Multi := Multi glo |}).
Proof. apply order_list_at_page. Qed.

(** C3: The total count of both lists is the number of rows that satisfy all
    scopes, whatever page is requested (even one out of range). *)
Theorem list_count_any_page db glo p sp sq (orders : list CoreSqlOrder)
    (queries : list CoreQueryOrder) :
  SO_Count (GetSQLOrderList db glo p sp orders).2 =
    Z.of_nat (length (List.filter (all_of sp) orders)) ∧
  SQ_Count (GetSQLQueryList p sq queries) =
    Z.of_nat (length (List.filter (all_of sq) queries)).
Proof. unfold GetSQLOrderList, GetSQLQueryList. by destruct (Paging _ _). Qed.

Lemma query_list_length p scopes table :
  1 <= Page p <= max_page →
  Z.of_nat (length (SQ_List (GetSQLQueryList p scopes table))) =
  Z.max 0 (Z.min 15 (SQ_Count (GetSQLQueryList p scopes table) - 15 * (Page p - 1))).
Proof.
  intros Hp. rewrite query_list_at_page by done. simpl.
  unfold page_of, ranked, order_id_desc.
  rewrite length_page, (Permutation_length (merge_sort_Permutation _ _)). lia.
Qed.

(** A page in range has [min 15 (count - 15 (page - 1))] rows. *)
Theorem GetSQLQueryList_length p scopes table :
  1 <= Page p <= max_page →
  Z.of_nat (length (SQ_List (GetSQLQueryList p scopes table))) =
  Z.max 0 (Z.min 15 (SQ_Count (GetSQLQueryList p scopes table) - 15 * (Page p - 1))).
Proof. apply query_list_length. Qed.


(** C12: The spec's pagination scenario: over 20 matching orders, page 2
    returns exactly 5 rows and the count is 20. *)
Theorem GetSQLQueryList_page2_of_20 p scopes table :
  Page p = 2 → length (List.filter (all_of scopes) table) = 20%nat →
  length (SQ_List (GetSQLQueryList p scopes table)) = 5%nat ∧
  SQ_Count (GetSQLQueryList p scopes table) = 20.
Proof.
  intros Hp Hn. assert (1 <= Page p <= max_page) as Hr by (unfold max_page; lia).
  pose proof (query_list_length p scopes table Hr) as Hl.
  rewrite query_list_at_page in * by done. simpl in *.
  rewrite Hn, Hp in *. split; [lia|done].
Qed.

(** C4: Requesting pages 1, 2, ..., n in turn and concatenating the rows gives
    the first [15 n] ranked matching rows: no row is skipped or repeated. *)
Theorem GetSQLQueryList_pages p scopes table (n : nat) :
  Z.of_nat n <= max_page →
  mjoin ((λ i : nat, SQ_List (GetSQLQueryList (at_page p (Z.of_nat i + 1)) scopes table))
           <$> seq 0 n) =
  take (n * 15) (ranked Q_ID scopes table).
Proof.
  intros Hn. rewrite <- pages_concat. f_equal. apply list_fmap_ext.
  intros k i Hi. apply lookup_seq in Hi as [-> Hi].
  rewrite query_list_at_page by (simpl; lia). simpl.
  unfold page_of. repeat f_equal. lia.
Qed.

(** Whatever page is requested, the query orders of a page come in
    descending id order. *)
Theorem GetSQLQueryList_sorted p scopes table :
  StronglySorted (λ a b, Q_ID b <= Q_ID a) (SQ_List (GetSQLQueryList p scopes table)).
Proof.
  unfold GetSQLQueryList. destruct (Paging _ _) as [start lim] eqn:Hp. simpl.
  eapply StronglySorted_sublist; [apply gorm_find_sublist | apply ranked_sorted].
Qed.

Lemma order_list_rows db glo p scopes table r :
  r ∈ SO_List (GetSQLOrderList db glo p scopes table).2 →
  ∃ r0, r0 ∈ table ∧ all_of scopes r0 = true ∧ r = select_sql_order QueryField r0.
Proof.
  unfold GetSQLOrderList. destruct (Paging _ _) as [start lim]. simpl.
  intros Hr. apply list_elem_of_fmap in Hr as (r0 & -> & Hr0).
  exists r0. eapply elem_of_sublist, ranked_elem in Hr0 as [??];
    [|apply gorm_find_sublist]. done.
Qed.

(** A row of the table that passes the scopes is on some page between 1
    and [max_page], provided the table has at most [15 * max_page] rows. *)
Lemma order_list_complete db glo scopes table r0 :
  r0 ∈ table → all_of scopes r0 = true → Z.of_nat (length table) <= 15 * max_page →
  ∃ page, 1 <= page <= max_page ∧
    ∀ p, Page p = page → select_sql_order QueryField r0 ∈ SO_List (GetSQLOrderList db glo p scopes table).2.
Proof.
  intros Hin Hs Hlen.
  assert (r0 ∈ ranked ID scopes table) as Hr by (apply ranked_elem; done).
  apply list_elem_of_lookup_1 in Hr as [i Hi].
  assert (length (ranked ID scopes table) <= length table)%nat as Hl.
  { unfold ranked, order_id_desc. rewrite merge_sort_Permutation.
    pose proof (List.filter_length (all_of scopes) table). lia. }
  apply lookup_lt_Some in Hi as Hlt.
  assert (i < length table)%nat as Hit by (eapply Nat.lt_le_trans; eauto). clear Hl Hlt.
  exists (Z.of_nat (i / 15) + 1).
  pose proof (Nat.div_mod_eq i 15). pose proof (Nat.mod_upper_bound i 15 ltac:(lia)).
  assert (Z.of_nat (i / 15) + 1 <= max_page) by lia.
  split; [lia|]. intros p Hp. rewrite order_list_at_page by lia.
  simpl. apply list_elem_of_fmap_2. apply list_elem_of_lookup_2 with (i mod 15)%nat.
  unfold page_of. rewrite Hp. replace (Z.to_nat (Z.of_nat (i / 15) + 1 - 1)) with (i / 15)%nat by lia.
  rewrite lookup_take, lookup_drop. case_decide; [|lia].
  rewrite <- Hi. f_equal. lia.
Qed.

(** C9: Whatever page is requested, every order the list returns is the
    [QueryField] projection of a stored order that satisfies every scope;
    in particular an owner-only scope never lets another user's order
    through. *)
Theorem GetSQLOrderList_visible db glo p scopes table r :
  r ∈ SO_List (GetSQLOrderList db glo p scopes table).2 →
  ∃ r0, r0 ∈ table ∧ all_of scopes r0 = true ∧ r = select_sql_order QueryField r0.
Proof. apply order_list_rows. Qed.


Lemma Paging_nonpositive page :
  - max_page < page <= 0 → (Paging page page_size).1 < 0.
Proof.
  intros Hp. unfold Paging, go_mul, go_sub, page_size, max_page in *. simpl.
  rewrite (wrap64_small (page * 15)), wrap64_small;
    unfold int64_min, int64_max; lia.
Qed.

(** C20: A page number of 0 or below (down to [1 - max_page]) is not rejected:
    the offset [15 page - 15] is negative, gorm drops it, and the first page
    is returned. *)
Theorem GetSQLQueryList_nonpositive_page p scopes table :
  - max_page < Page p <= 0 →
  GetSQLQueryList p scopes table = GetSQLQueryList (at_page p 1) scopes table.
Proof.
  intros Hp.
  pose proof (gorm_find_Paging_negative Q_ID scopes table _ (Paging_nonpositive _ Hp)) as Hf.
  unfold GetSQLQueryList. destruct (Paging (Page p) page_size). rewrite Hf.
  reflexivity.
Qed.

(** C21: Go's [int] overflow in [lib.Paging]: page 1229782938247303441
    (= (2^64 - 1) / 15) multiplies to -1, so its offset is negative and the
    request returns the first page again. *)
Theorem GetSQLQueryList_overflow_page p scopes table :
  Page p = 1229782938247303441 →
  GetSQLQueryList p scopes table = GetSQLQueryList (at_page p 1) scopes table.
Proof.
  intros Hp. unfold GetSQLQueryList. rewrite Hp.
  change (Paging 1229782938247303441 page_size) with (-16, 15). cbv beta iota zeta.
  rewrite gorm_find_negative by lia. reflexivity.
Qed.

(** The order of the scopes does not matter: permuting them gives the
    same page and count (rewriting with the [Proper] instance). *)
Theorem GetSQLOrderList_scopes_perm db glo p s1 s2 table :
  s1 ≡ₚ s2 → GetSQLOrderList db glo p s1 table = GetSQLOrderList db glo p s2 table.
Proof. intros Hs. by rewrite (scopes_equiv_Permutation _ _ Hs). Qed.

(** C22: The order list never carries an order's id: [QueryField] does not
    select the [id] column, so every returned row reads id 0, although the
    rows are ranked by it. *)
Theorem GetSQLOrderList_ids_zero db glo p scopes table r :
  r ∈ SO_List (GetSQLOrderList db glo p scopes table).2 → ID r = 0.
Proof.
  intros Hr. apply order_list_rows in Hr as (r0 & _ & _ & ->).
  by rewrite select_QueryField.
Qed.

(** ** The repository's Query contract (spec 6)

    [Query(filterPredicate, orderBy, offset, limit) -> (rows, totalCount)]
    as the spec states it: the total counts the matching rows, and the rows
    are the window [offset, offset + limit) of the matching rows in some
    order by id, largest first.  It is a relation: with equal ids the order
    is not determined. *)
Definition query_contract {A} (id : A → Z) (p : A → bool) (offset limit : nat)
    (table : list A) (res : Z * list A) : Prop :=
  res.1 = Z.of_nat (length (List.filter p table)) ∧
  ∃ sorted, sorted ≡ₚ List.filter p table ∧ StronglySorted (λ a b, id b <= id a) sorted ∧
            res.2 = take limit (drop offset sorted).

(** Two id-descending orders of the same rows agree when ids are unique. *)
Lemma sorted_by_id_unique {A} (id : A → Z) (l1 l2 : list A) :
  NoDup (id <$> l1) → l1 ≡ₚ l2 →
  StronglySorted (λ a b, id b <= id a) l1 → StronglySorted (λ a b, id b <= id a) l2 → l1 = l2.
Proof.
  intros Hnd Hp H1 H2. apply (StronglySorted_unique_strong (λ a b, id b <= id a)); [|done..].
  intros x1 x2 Hx1 Hx2 Ha Hb. apply (NoDup_fmap_elem_inj id l1); [done|done| |lia].
  by rewrite Hp.
Qed.

Lemma ranked_Permutation {A} (id : A → Z) scopes (t1 t2 : list A) :
  t1 ≡ₚ t2 → NoDup (id <$> t1) → ranked id scopes t1 = ranked id scopes t2.
Proof.
  intros Hp Hnd. unfold ranked, order_id_desc. apply (sorted_by_id_unique id).
  - rewrite merge_sort_Permutation. by apply NoDup_fmap_filter_std.
  - by rewrite !merge_sort_Permutation, (filter_Permutation_std _ _ _ Hp).
  - apply StronglySorted_merge_sort; [intros ???; lia | intros ??; lia].
  - apply StronglySorted_merge_sort; [intros ???; lia | intros ??; lia].
Qed.

(** Refinement of the repository contract: for a non-negative offset
    and limit, the gorm chain [Scopes(..).Count(..).Order("id desc")
    .Offset(..).Limit(..)] returns a count and rows that the spec's
    [Query] contract allows. *)
Theorem gorm_find_refines {A} (id : A → Z) scopes start lim (table : list A) :
  0 <= start → 0 <= lim →
  query_contract id (all_of scopes) (Z.to_nat start) (Z.to_nat lim) table
    (gorm_find id scopes start lim table).
Proof.
  intros Hs Hl. split; [done|]. exists (order_id_desc id (List.filter (all_of scopes) table)).
  split_and!.
  - apply merge_sort_Permutation.
  - apply StronglySorted_merge_sort; [intros ???; lia | intros ??; lia].
  - unfold gorm_find, gorm_limit, gorm_offset. simpl.
    by rewrite (proj2 (Z.ltb_ge _ _)), (proj2 (Z.ltb_ge _ _)) by lia.
Qed.

(** C32: A table has no row order: when ids are unique, storing the same rows
    in any other physical order gives the same order list, page for page
    (the [Order("id desc")] clause fixes the order). *)
Theorem GetSQLOrderList_table_order db glo p scopes (t1 t2 : list CoreSqlOrder) :
  t1 ≡ₚ t2 → NoDup (ID <$> t1) →
  GetSQLOrderList db glo p scopes t1 = GetSQLOrderList db glo p scopes t2.
Proof.
  intros Hp Hnd. unfold GetSQLOrderList, gorm_find. destruct (Paging _ _) as [start lim].
  rewrite (Permutation_length (filter_Permutation_std _ _ _ Hp)).
  fold (ranked ID scopes t1) (ranked ID scopes t2). by rewrite (ranked_Permutation ID scopes t1 t2).
Qed.

(** ** Reading every page

    A client of the paged API (spec 4.4, 6) asks for pages 1, 2, ... and
    stops at the first page that is not full; [fuel] bounds the number of
    requests. *)
Fixpoint read_pages (fuel : nat) (p : PageInfo) (k : Z) (scopes : list (CoreQueryOrder → bool))
    (table : list CoreQueryOrder) : list CoreQueryOrder :=
  match fuel with
  | O => []
  | S f =>
      let rows := SQ_List (GetSQLQueryList (at_page p k) scopes table) in
      if (length rows <? 15)%nat then rows else rows ++ read_pages f p (k + 1) scopes table
  end.

Lemma read_pages_from p scopes table (f m : nat) :
  ((length (ranked Q_ID scopes table) - 15 * m) / 15 < f)%nat →
  Z.of_nat (m + f) <= max_page →
  read_pages f p (Z.of_nat m + 1) scopes table = drop (15 * m) (ranked Q_ID scopes table).
Proof.
  revert m. induction f as [|f IH]; intros m Hf Hb; [lia|]. cbn [read_pages].
  rewrite query_list_at_page by (simpl; lia). cbn [SQ_List at_page Page].
  replace (Z.to_nat (Z.of_nat m + 1 - 1)) with m by lia. unfold page_of.
  rewrite (Nat.mul_comm m 15), length_take, length_drop.
  set (L := ranked Q_ID scopes table) in *.
  destruct (Nat.ltb_spec (Nat.min 15 (length L - 15 * m)) 15) as [Hlt|Hge].
  - rewrite take_ge; [done|]. rewrite length_drop. lia.
  - replace (Z.of_nat m + 1 + 1) with (Z.of_nat (S m) + 1) by lia.
    assert ((length L - 15 * m) / 15 = 1 + (length L - 15 * m - 15) / 15)%nat as Hd.
    { replace (length L - 15 * m)%nat with (1 * 15 + (length L - 15 * m - 15))%nat at 1 by lia.
      apply Nat.div_add_l. lia. }
    rewrite IH; cycle 1.
    { replace (length L - 15 * S m)%nat with (length L - 15 * m - 15)%nat by lia. lia. }
    { lia. }
    replace (15 * S m)%nat with (15 * m + 15)%nat by lia. by rewrite <- drop_drop, take_drop.
Qed.

(** C33: Paging terminates and loses nothing: a client that reads pages
    1, 2, ... until a page is not full stops after at most
    [count / 15 + 1] requests, and has then read every matching row
    exactly once, in id-descending order. *)
Theorem read_pages_all p scopes table :
  Z.of_nat (length (List.filter (all_of scopes) table) / 15 + 1) <= max_page →
  read_pages (length (List.filter (all_of scopes) table) / 15 + 1) p 1 scopes table =
  ranked Q_ID scopes table.
Proof.
  intros Hb.
  assert (length (ranked Q_ID scopes table) = length (List.filter (all_of scopes) table)) as Hl
    by (unfold ranked, order_id_desc; by rewrite merge_sort_Permutation).
  rewrite <- Hl in *. rewrite (read_pages_from p scopes table _ 0); [done| |lia].
  rewrite Nat.sub_0_r. lia.
Qed.

(** ** Concrete runs *)

Definition no_search : Search :=
  {| Picker := []; Valve := false; S_Text := ""; Explain := ""; S_WorkId := "";
     S_Type := 0; S_Status := 0; S_IDC := ""; S_Source := ""; S_Username := "";
     Dept := "" |}.

Definition sample_page (k : Z) : PageInfo := {| Page := k; Find := no_search; Tp := "" |}.

(** Forty stored orders with ids 1..40, even ids owned by alice. *)
Definition sample_owner (i : Z) : string := if Z.even i then "alice" else "bob".

Definition sample_query (i : Z) : CoreQueryOrder :=
  {| Q_ID := i; Q_WorkId := "w"; Q_Username := sample_owner i; Q_Date := "";
     Q_Text := "select 1"; Q_Assigned := "carol"; Q_RealName := ""; Q_Export := 0;
     Q_IDC := "idc"; Q_Source := "s1"; Q_QueryPer := 2 |}.

Definition sample_order (i : Z) : CoreSqlOrder :=
  {| ID := i; WorkId := "w"; Username := sample_owner i; Text := "t"; Backup := 0;
     Date := ""; RealName := ""; Executor := ""; Status := 2; Type_ := 1;
     Delay := ""; Source := "s1"; IDC := "idc"; DataBase := "d1"; Table := "";
     ExecuteTime := ""; Assigned := "carol"; CurrentStep := 0; Relevant := "" |}.

Definition sample_ids : list Z := Z.of_nat <$> seq 1 40.

Definition owner_query (u : string) (r : CoreQueryOrder) : bool := bool_decide (Q_Username r = u).
Definition owner_order (u : string) (r : CoreSqlOrder) : bool := bool_decide (Username r = u).
Definition source_order (s : string) (r : CoreSqlOrder) : bool := bool_decide (Source r = s).

Definition sample_db : DBHandle := {| log_mode := false |}.
Definition sample_glo : GloOther := {| Multi := true; Register := true |}.

Lemma GetSQLQueryList_page_witness :
  1 <= Page (sample_page 3) <= max_page ∧
  GetSQLQueryList (sample_page 3) [owner_query "alice"] (sample_query <$> sample_ids) =
  {| SQ_List := page_of (ranked Q_ID [owner_query "alice"] (sample_query <$> sample_ids)) 2;
     SQ_Count := 20 |}.
Proof. split; [simpl; unfold max_page; lia|]. apply GetSQLQueryList_page. simpl; unfold max_page; lia. Defined.

Lemma GetSQLOrderList_page_witness :
  1 <= Page (sample_page 1) <= max_page ∧
  GetSQLOrderList sample_db sample_glo (sample_page 1) [] (sample_order <$> sample_ids) =
  ({| log_mode := true |},
   {| SO_List := select_sql_order QueryField <$> page_of (ranked ID [] (sample_order <$> sample_ids)) 0;
      SO_Count := 40; SO_Multi := true |}).
Proof. split; [simpl; unfold max_page; lia|]. apply GetSQLOrderList_page. simpl; unfold max_page; lia. Defined.

Lemma GetSQLQueryList_length_witness :
  Z.of_nat (length (SQ_List (GetSQLQueryList (sample_page 3) [] (sample_query <$> sample_ids)))) =
  Z.max 0 (Z.min 15 (SQ_Count (GetSQLQueryList (sample_page 3) [] (sample_query <$> sample_ids)) - 15 * (3 - 1))).
Proof. apply (GetSQLQueryList_length (sample_page 3)). simpl; unfold max_page; lia. Defined.

Lemma GetSQLQueryList_page2_of_20_witness :
  length (SQ_List (GetSQLQueryList (sample_page 2) [owner_query "alice"] (sample_query <$> sample_ids))) = 5%nat ∧
  SQ_Count (GetSQLQueryList (sample_page 2) [owner_query "alice"] (sample_query <$> sample_ids)) = 20.
Proof. apply GetSQLQueryList_page2_of_20; vm_compute; reflexivity. Defined.

Lemma GetSQLQueryList_pages_witness :
  mjoin ((λ i : nat, SQ_List (GetSQLQueryList (at_page (sample_page 1) (Z.of_nat i + 1))
                                 [owner_query "bob"] (sample_query <$> sample_ids))) <$> seq 0 2) =
  take (2 * 15) (ranked Q_ID [owner_query "bob"] (sample_query <$> sample_ids)).
Proof. apply GetSQLQueryList_pages. unfold max_page; lia. Defined.

Lemma GetSQLOrderList_visible_witness :
  ∃ r0, r0 ∈ sample_order <$> sample_ids ∧ all_of [owner_order "alice"] r0 = true ∧
        select_sql_order QueryField (sample_order 40) = select_sql_order QueryField r0.
Proof.
  apply (GetSQLOrderList_visible sample_db sample_glo (sample_page 1) [owner_order "alice"]).
  apply (bool_decide_unpack _ (dec := list_elem_of_dec _ _)). vm_compute. exact I.
Defined.

Lemma GetSQLQueryList_nonpositive_page_witness :
  GetSQLQueryList (sample_page 0) [] (sample_query <$> sample_ids) =
  GetSQLQueryList (at_page (sample_page 0) 1) [] (sample_query <$> sample_ids).
Proof. apply GetSQLQueryList_nonpositive_page. simpl; unfold max_page; lia. Defined.

Lemma GetSQLQueryList_overflow_page_witness :
  GetSQLQueryList (sample_page 1229782938247303441) [] (sample_query <$> sample_ids) =
  GetSQLQueryList (at_page (sample_page 1229782938247303441) 1) [] (sample_query <$> sample_ids).
Proof. apply GetSQLQueryList_overflow_page. reflexivity. Defined.

Lemma GetSQLOrderList_scopes_perm_witness :
  GetSQLOrderList sample_db sample_glo (sample_page 1) [owner_order "alice"; source_order "s1"] (sample_order <$> sample_ids) =
  GetSQLOrderList sample_db sample_glo (sample_page 1) [source_order "s1"; owner_order "alice"] (sample_order <$> sample_ids).
Proof. apply GetSQLOrderList_scopes_perm. apply Permutation_swap. Defined.

Lemma GetSQLOrderList_ids_zero_witness :
  ID (select_sql_order QueryField (sample_order 40)) = 0.
Proof.
  apply (GetSQLOrderList_ids_zero sample_db sample_glo (sample_page 1) []
           (sample_order <$> sample_ids)).
  apply (bool_decide_unpack _ (dec := list_elem_of_dec _ _)). vm_compute. exact I.
Defined.

Lemma gorm_find_refines_witness :
  0 <= 15 ∧ 0 <= 15 ∧
  query_contract ID (all_of [owner_order "alice"]) 15 15 (sample_order <$> sample_ids)
    (gorm_find ID [owner_order "alice"] 15 15 (sample_order <$> sample_ids)).
Proof.
  split_and!; [lia|lia|]. apply (gorm_find_refines ID [owner_order "alice"] 15 15); lia.
Defined.

Lemma GetSQLOrderList_table_order_witness :
  reverse (sample_order <$> sample_ids) ≡ₚ sample_order <$> sample_ids ∧
  NoDup (ID <$> reverse (sample_order <$> sample_ids)) ∧
  GetSQLOrderList sample_db sample_glo (sample_page 2) [owner_order "bob"]
    (reverse (sample_order <$> sample_ids)) =
  GetSQLOrderList sample_db sample_glo (sample_page 2) [owner_order "bob"]
    (sample_order <$> sample_ids).
Proof.
  assert (reverse (sample_order <$> sample_ids) ≡ₚ sample_order <$> sample_ids) as Hp
    by apply reverse_Permutation.
  assert (NoDup (ID <$> reverse (sample_order <$> sample_ids))) as Hnd
    by (apply (bool_decide_unpack _ (dec := NoDup_dec _)); vm_compute; exact I).
  split_and!; [exact Hp|exact Hnd|exact (GetSQLOrderList_table_order _ _ _ _ _ _ Hp Hnd)].
Defined.

Lemma read_pages_all_witness :
  Z.of_nat (length (List.filter (all_of [owner_query "bob"]) (sample_query <$> sample_ids)) / 15 + 1)
    <= max_page ∧
  read_pages 2 (sample_page 1) 1 [owner_query "bob"] (sample_query <$> sample_ids) =
    ranked Q_ID [owner_query "bob"] (sample_query <$> sample_ids).
Proof.
  assert (Z.of_nat (length (List.filter (all_of [owner_query "bob"]) (sample_query <$> sample_ids)) / 15 + 1)
    <= max_page) as Hb by (vm_compute; discriminate).
  split; [exact Hb|exact (read_pages_all (sample_page 1) _ _ Hb)].
Defined.
