(* ===== verification/Accounts.v ===== *)
(** * The account store read and written by [login.go], and the interface of
      the external collaborators of login

    The [core_accounts] and [core_graineds] tables are lists of rows in
    primary-key order; gorm's [Create] appends a row and
    [Where("username = ?", u).First(&row)] returns the first row whose
    user name equals [u] under the column's collation [db_key] (MySQL's
    default collation ignores case, so [db_key] is a parameter of the
    development, not the identity).  The rows ([model.CoreAccount],
    [model.CoreGrained]) are outside [src/] and follow the spec's Account
    record.

    [LoginEnv] is the interface the handlers are proved against: LDAP bind
    ([lib.LdapContent]), Django password hashing ([lib.DjangoEncrypt],
    [lib.DjangoCheckPassword]), the random values of the request
    ([lib.GenWorkid], [lib.GetRandom]), JWT signing ([lib.JwtAuth]), the
    OAuth client and the HTTP client; its one law is that a password checks
    against its own hash. *)

From S2P Require Import Prelude.

(** ** Rows *)

Record CoreAccount := {
  Username : string; RealName : string; Password : string;
  Rule : string; Department : string; Email : string }.

Module Grained.
Record CoreGrained := { Username : string; Group : string }.
End Grained.

#[export] Instance CoreAccount_eq_dec : EqDecision CoreAccount.
Proof. solve_decision. Defined.

#[export] Instance CoreGrained_eq_dec : EqDecision Grained.CoreGrained.
Proof. solve_decision. Defined.

(** The zero value [var account model.CoreAccount]. *)
Definition zero_account : CoreAccount :=
  {| Username := ""; RealName := ""; Password := ""; Rule := ""; Department := "";
     Email := "" |}.

Record Store := { accounts : list CoreAccount; graineds : list Grained.CoreGrained }.

Definition empty_store : Store := {| accounts := []; graineds := [] |}.

(** [model.DB().Create(&model.CoreAccount{..})] and [Create(&CoreGrained{..})]. *)
Definition create_account (a : CoreAccount) (s : Store) : Store :=
  {| accounts := accounts s ++ [a]; graineds := graineds s |}.

Definition create_grained (g : Grained.CoreGrained) (s : Store) : Store :=
  {| accounts := accounts s; graineds := graineds s ++ [g] |}.

Arguments create_account : simpl never.
Arguments create_grained : simpl never.

(** [json.Marshal([]string{})]. *)
Definition empty_group : string := "[]".

(** ** The interface of the external collaborators *)

Record GitlabConf := {
  ClientID : string; ClientSecret : string; RedirectURL : string;
  AuthURL : string; TokenURL : string }.

Record OAuthToken := { AccessToken : string }.

Record GitlabUser := {
  GL_Username : string; GL_Name : string; GL_State : string; GL_Email : string }.

(** What the HTTP client does with a GET request. *)
Inductive HttpOutcome :=
| NewRequestErr (e : string)
| DoErr (e : string)
| ReadAllErr (e : string)
| Body (b : string).

(** What [json.Unmarshal] makes of a body for a [*GitlabUser]: an error, the
    nil pointer (body ["null"]), or a user. *)
Inductive Unmarshalled :=
| UnmarshalErr (e : string)
| UnmarshalNull
| UnmarshalUser (u : GitlabUser).

Class LoginEnv := {
  db_key : string → string;
  LdapContent : string → string → bool * goerr;
  DjangoEncrypt : string → string → string;
  DjangoCheckPassword : CoreAccount → string → bool;
  GenWorkid : string;
  GetRandom : string;
  JwtAuth : string → string → string * goerr;
  C_Gitlab : GitlabConf;
  GloBaseDomin : string;
  GloGitlab : string;
  AuthCodeURL : GitlabConf → string → string;
  Exchange : GitlabConf → string → OAuthToken * goerr;
  HttpGet : string → HttpOutcome;
  UnmarshalGitlabUser : string → Unmarshalled;
  check_encrypt : ∀ a pw salt, Password a = DjangoEncrypt pw salt → DjangoCheckPassword a pw = true
}.

Section Store.
Context `{LoginEnv}.

(** [model.DB().Where("username = ?", u).First(&row)]: [None] is
    [RecordNotFound()]. *)
Definition first_account (u : string) (s : Store) : option CoreAccount :=
  List.find (λ a, bool_decide (db_key (Username a) = db_key u)) (accounts s).

(** ** Invariants of the store *)

(** Every account has its grained row. *)
Definition grained_complete (s : Store) : Prop :=
  ∀ a, a ∈ accounts s → ∃ g, g ∈ graineds s ∧ Grained.Username g = Username a.

(** No two accounts share a user name under the collation. *)
Definition keys_unique (s : Store) : Prop :=
  NoDup ((λ a, db_key (Username a)) <$> accounts s).

Lemma first_account_Some u s a :
  first_account u s = Some a → a ∈ accounts s ∧ db_key (Username a) = db_key u.
Proof.
  unfold first_account. intros Hf.
  apply List.find_some in Hf as [Hin Hk]. apply bool_decide_eq_true in Hk.
  split; [by apply list_elem_of_In|done].
Qed.

Lemma first_account_None u s a :
  first_account u s = None → a ∈ accounts s → db_key (Username a) ≠ db_key u.
Proof.
  unfold first_account. intros Hf Hin Hk.
  apply list_elem_of_In in Hin. eapply List.find_none in Hf; [|done].
  by apply bool_decide_eq_false in Hf.
Qed.

(** Creating an account together with its grained row keeps the store
    complete. *)
Lemma grained_complete_create s a :
  grained_complete s →
  grained_complete (create_grained {| Grained.Username := Username a; Grained.Group := empty_group |}
                      (create_account a s)).
Proof.
  intros Hc b Hb. unfold create_grained, create_account in *. simpl in *. apply elem_of_app in Hb as [Hb|Hb].
  - destruct (Hc b Hb) as (g & Hg & Hu). exists g. split; [set_solver|done].
  - apply list_elem_of_singleton in Hb as ->.
    exists {| Grained.Username := Username a; Grained.Group := empty_group |}.
    split; [set_solver|done].
Qed.

(** Creating an account whose name is not yet taken keeps the keys unique. *)
Lemma keys_unique_create s a :
  keys_unique s → first_account (Username a) s = None →
  keys_unique (create_grained {| Grained.Username := Username a; Grained.Group := empty_group |}
                 (create_account a s)).
Proof.
  unfold keys_unique, create_grained, create_account. simpl. intros Hu Hf.
  rewrite fmap_app. apply NoDup_app. split_and!; [done| |by apply NoDup_singleton].
  intros k Hk Hk'. apply list_elem_of_fmap in Hk as (b & -> & Hb).
  apply list_elem_of_singleton in Hk'. by eapply first_account_None.
Qed.
End Store.

#[export] Hint Resolve grained_complete_create keys_unique_create : yearning.

Section Lookup.
Context `{LoginEnv}.

(** A row appended after all rows of another key is what [First] finds. *)
Lemma first_account_create_fresh k s a g :
  first_account k s = None → db_key (Username a) = db_key k →
  first_account k (create_grained g (create_account a s)) = Some a.
Proof.
  unfold first_account, create_grained, create_account. simpl. intros Hf Hk.
  rewrite find_app, Hf. simpl. by rewrite bool_decide_eq_true_2.
Qed.

(** A row appended after a row of the same key is shadowed by it. *)
Lemma first_account_create_old k s a b g :
  first_account k s = Some b →
  first_account k (create_grained g (create_account a s)) = Some b.
Proof.
  unfold first_account, create_grained, create_account. simpl. intros Hf.
  by rewrite find_app, Hf.
Qed.
End Lookup.
