(* ===== verification/Login.v ===== *)
(** * The login handlers of [src/handler/login/login.go]

    Each handler takes the account store and the request as [c.Bind] left it
    ([None] when binding failed) and returns the new store and the HTTP
    response written with [c.JSON].  A handler that [return]s without
    writing a response gives [NoResponse]; a nil-pointer dereference gives
    [NilDereference].  The response helpers of [commom] (outside [src/]) are
    the constructors of [Payload]; [ERR_COMMON_MESSAGE(err)] reads
    [err.Error()], so with a nil error it panics ([common_message]).  Logger
    calls are not modelled: they do not
    change the store or the response. *)

From S2P Require Import Prelude Types Accounts.

(** ** Requests and responses *)

Record loginForm := { lf_Username : string; lf_Password : string }.

Record Config := { State : string; Code : string }.

Definition oauthStateString : string := "state".
Definition unauth : string := "".

Inductive Payload :=
| ERR_REQ_BIND
| ERR_LOGIN
| ERR_REGISTER
| ERR_COMMON_MESSAGE (text : string)
| SuccessPayload (data : gmap string string)
| SuccessPayLoadToMessage (msg : string)
| UserUnAuth (url : string)
| UserAuthed (domain : string).

Inductive Response :=
| JSON (code : Z) (p : Payload)
| NoResponse
| NilDereference.

Definition StatusOK : Z := 200.
Definition StatusMovedPermanently : Z := 301.
Definition StatusInternalServerError : Z := 500.

(** [commom.ERR_COMMON_MESSAGE(err)] (outside [src/]) puts [err.Error()]
    into the payload: a method call on the error value, which panics with a
    nil pointer dereference when the error is nil. *)
Definition common_message (code : Z) (err : goerr) : Response :=
  match err with
  | Some e => JSON code (ERR_COMMON_MESSAGE e)
  | None => NilDereference
  end.

(** [lib.ErrExist], the error [gitlabUserRegister] returns for a known user. *)
Definition ErrExist : string := "user already exists".

Definition is_error_payload (p : Payload) : bool :=
  match p with
  | ERR_REQ_BIND | ERR_LOGIN | ERR_REGISTER | ERR_COMMON_MESSAGE _ => true
  | _ => false
  end.

Section Handlers.
Context `{LoginEnv}.

(** The [dataStore] of a password or LDAP login. *)
Definition login_data (token rule real_name : string) : gmap string string :=
  <["token" := token]> (<["permissions" := rule]> (<["real_name" := real_name]> ∅)).

Definition new_grained (u : string) : Grained.CoreGrained :=
  {| Grained.Username := u; Grained.Group := empty_group |}.

Definition UserLdapLogin (s : Store) (req : option loginForm) : Store * Response :=
  match req with
  | None => (s, JSON StatusOK ERR_REQ_BIND)
  | Some u =>
      let '(isOk, err) := LdapContent (lf_Username u) (lf_Password u) in
      match err with
      | Some e => (s, common_message StatusOK (Some e))
      | None =>
          if isOk then
            let '(account, s) :=
              match first_account (lf_Username u) s with
              | Some a => (a, s)
              | None =>
                  (zero_account,
                   create_grained (new_grained (lf_Username u))
                     (create_account
                        {| Username := lf_Username u; RealName := "请重置你的真实姓名";
                           Password := DjangoEncrypt GenWorkid GetRandom;
                           Rule := "guest"; Department := "all"; Email := "" |} s))
              end in
            let '(token, tokenErr) := JwtAuth (lf_Username u) (Rule account) in
            match tokenErr with
            | Some _ => (s, NoResponse)
            | None => (s, JSON StatusOK (SuccessPayload
                                          (login_data token (Rule account) (RealName account))))
            end
          else (s, JSON StatusOK ERR_LOGIN)
      end
  end.

Definition Setup : GitlabConf := C_Gitlab.

Definition UserGitlabLogin (token : string) : Response :=
  if bool_decide (token = unauth)
  then JSON StatusOK (UserUnAuth (AuthCodeURL Setup "state"))
  else JSON StatusMovedPermanently (UserAuthed GloBaseDomin).

(** [getGitlabUserInfo]: the user pointer (nil as [None]) and the error. *)
Definition getGitlabUserInfo (t : string) : option GitlabUser * goerr :=
  let url := GloGitlab +:+ "/api/v4/user?access_token=" +:+ t in
  match HttpGet url with
  | NewRequestErr e | DoErr e | ReadAllErr e => (None, Some e)
  | Body body =>
      match UnmarshalGitlabUser body with
      | UnmarshalErr e => (None, Some e)
      | UnmarshalNull => (None, None)
      | UnmarshalUser gu => (Some gu, None)
      end
  end.

(** [gitlabUserRegister]: [None] when [user] is nil and is dereferenced. *)
Definition gitlabUserRegister (s : Store) (user : option GitlabUser)
    : option (Store * CoreAccount * goerr) :=
  match user with
  | None => None
  | Some user =>
      let u := {| Username := GL_Username user; RealName := GL_Name user;
                  Password := ""; Rule := ""; Department := "";
                  Email := GL_Email user |} in
      match first_account (Username u) s with
      | Some unique => Some (s, unique, Some ErrExist)
      | None =>
          let s := create_account
                     {| Username := Username u; RealName := RealName u; Password := "";
                        Rule := "guest"; Department := ""; Email := Email u |} s in
          Some (create_grained (new_grained (Username u)) s, u, None)
      end
  end.

Definition callback_data (token : string) (gu : GitlabUser) (cu : CoreAccount)
    (err : goerr) : gmap string string :=
  <["rule" := if bool_decide (err = Some ErrExist) then Rule cu else "guest"]>
    (<["token" := token]> (<["real_name" := GL_Name gu]>
      (<["user" := GL_Username gu]> (<["permissions" := Rule cu]> ∅)))).

Definition HandleCallback (s : Store) (req : option Config) : Store * Response :=
  match req with
  | None => (s, JSON StatusOK ERR_REQ_BIND)
  | Some g =>
      if bool_decide (State g ≠ oauthStateString)
      then (s, common_message StatusInternalServerError (Some "invalid oauth state"))
      else
        let '(tok, err) := Exchange Setup (Code g) in
        match err with
        | Some e => (s, common_message StatusInternalServerError (Some e))
        | None =>
            let gu := (getGitlabUserInfo (AccessToken tok)).1 in
            match gitlabUserRegister s gu with
            | None => (s, NilDereference)
            | Some (s, cu, err) =>
                let '(token, tokenErr) := JwtAuth (Username cu) (Rule cu) in
                match tokenErr with
                | Some _ => (s, common_message StatusInternalServerError err)
                | None =>
                    match gu with
                    | None => (s, NilDereference)
                    | Some gu => (s, JSON StatusOK (SuccessPayload (callback_data token gu cu err)))
                    end
                end
            end
        end
  end.

Definition UserGeneralLogin (s : Store) (req : option loginForm) : Response :=
  match req with
  | None => JSON StatusOK ERR_REQ_BIND
  | Some u =>
      match first_account (lf_Username u) s with
      | None => JSON StatusOK ERR_LOGIN
      | Some account =>
          if bool_decide (Username account ≠ lf_Username u) then JSON StatusOK ERR_LOGIN
          else if DjangoCheckPassword account (lf_Password u) then
            let '(token, tokenErr) := JwtAuth (lf_Username u) (Rule account) in
            match tokenErr with
            | Some _ => NoResponse
            | None => JSON StatusOK (SuccessPayload
                                       (login_data token (Rule account) (RealName account)))
            end
          else JSON StatusOK ERR_LOGIN
      end
  end.

(** The row [UserRegister] creates: the bound fields, the password
    hashed with a fresh salt, the role [guest]. *)
Definition register_account (u : CoreAccount) : CoreAccount :=
  {| Username := Username u; RealName := RealName u;
     Password := DjangoEncrypt (Password u) GetRandom;
     Rule := "guest"; Department := Department u; Email := Email u |}.

Definition UserRegister (glo : GloOther) (s : Store) (req : option CoreAccount)
    : Store * Response :=
  if Register glo then
    match req with
    | None => (s, JSON StatusOK ERR_REQ_BIND)
    | Some u =>
        (* [Select("username").First(&unique)]: only the name is read *)
        let unique := from_option Username "" (first_account (Username u) s) in
        if bool_decide (unique ≠ "")
        then (s, common_message StatusOK (Some "用户已存在请重新注册！"))
        else
          let s := create_account (register_account u) s in
          (create_grained (new_grained (Username u)) s,
           JSON StatusOK (SuccessPayLoadToMessage "注册成功！"))
    end
  else (s, JSON StatusOK ERR_REGISTER).
End Handlers.

Section Store_effects.
Context `{LoginEnv}.

(** The store after a call: unchanged, or one account and its grained row
    appended; [fresh] says whether the name was free under the collation. *)
Definition adds_account (fresh : bool) (s s' : Store) : Prop :=
  s' = s ∨ ∃ a, (fresh → first_account (Username a) s = None) ∧
                s' = create_grained (new_grained (Username a)) (create_account a s).

(** Close an [adds_account] goal whose store is a creation. *)
Ltac adds_created_with tac :=
  match goal with
  | |- adds_account _ _ (create_grained _ (create_account ?a _)) =>
      right; exists a; split; [intros ?Hfresh; first [by destruct Hfresh | tac] | reflexivity]
  end.
Ltac adds_created := adds_created_with assumption.

Lemma adds_account_grained_complete fresh s s' :
  adds_account fresh s s' → grained_complete s → grained_complete s'.
Proof. intros [->|(a & _ & ->)] Hc; [done|]. by apply grained_complete_create. Qed.

Lemma adds_account_keys_unique s s' :
  adds_account true s s' → keys_unique s → keys_unique s'.
Proof. intros [->|(a & Ha & ->)] Hc; [done|]. by apply keys_unique_create, Ha. Qed.

Lemma UserLdapLogin_adds s req : adds_account true s (UserLdapLogin s req).1.
Proof.
  unfold UserLdapLogin. destruct req as [u|]; [|by left].
  go_case; first [by left | adds_created].
Qed.

Lemma gitlabUserRegister_adds s gu s' cu err :
  gitlabUserRegister s gu = Some (s', cu, err) → adds_account true s s'.
Proof.
  unfold gitlabUserRegister. intros Hg. go_case; first [by left | adds_created].
Qed.

Lemma HandleCallback_adds s req : adds_account true s (HandleCallback s req).1.
Proof.
  unfold HandleCallback. destruct req as [g|]; [|by left].
  go_case; first [by left | adds_created | eapply gitlabUserRegister_adds; eassumption].
Qed.

(** A registration always appends; it appends a fresh name unless the name
    collates with the empty name. *)
Lemma UserRegister_adds glo s req :
  adds_account false s (UserRegister glo s req).1 ∧
  (∀ u, req = Some u → db_key (Username u) ≠ db_key "" →
        adds_account true s (UserRegister glo s req).1).
Proof.
  unfold UserRegister, register_account. destruct (Register glo), req as [u|]; simpl;
    try (split; [by left|by intros; left]).
  case_bool_decide as Hu; [split; [by left|by intros; left]|].
  simpl. split; [adds_created|intros ? [= <-] Hk].
  adds_created_with ltac:(destruct (first_account (Username u) s) as [b|] eqn:Hf; [|done];
    simpl in Hu; apply first_account_Some in Hf as [_ Hb]; rewrite Hu in Hb; congruence).
Qed.
End Store_effects.

(** ** Sequences of calls *)

(** One HTTP call to a login handler. *)
Inductive LoginCall :=
| CallLdap (req : option loginForm)
| CallGeneral (req : option loginForm)
| CallGitlab (token : string)
| CallCallback (req : option Config)
| CallRegister (glo : GloOther) (req : option CoreAccount).

Section Calls.
Context `{LoginEnv}.

Definition run_call (s : Store) (c : LoginCall) : Store * Response :=
  match c with
  | CallLdap r => UserLdapLogin s r
  | CallGeneral r => (s, UserGeneralLogin s r)
  | CallGitlab t => (s, UserGitlabLogin t)
  | CallCallback r => HandleCallback s r
  | CallRegister glo r => UserRegister glo s r
  end.

(** A call that does not register a name collating with the empty name. *)
Definition name_safe (c : LoginCall) : Prop :=
  match c with
  | CallRegister _ (Some u) => db_key (Username u) ≠ db_key ""
  | _ => True
  end.

(** The stores reached from the empty database by calls allowed by [ok]. *)
Inductive reachable (ok : LoginCall → Prop) : Store → Prop :=
| reach_empty : reachable ok empty_store
| reach_call s c : reachable ok s → ok c → reachable ok (run_call s c).1.

Lemma adds_account_weaken s s' : adds_account true s s' → adds_account false s s'.
Proof. intros [->|(a & _ & ->)]; [by left|]. right. by exists a. Qed.

Lemma run_call_adds s c :
  adds_account false s (run_call s c).1 ∧
  (name_safe c → adds_account true s (run_call s c).1).
Proof.
  destruct c as [r|r|t|r|glo r]; simpl;
    try (split; [|intros _]; by left);
    try (split; [apply adds_account_weaken|intros _]; by auto using UserLdapLogin_adds, HandleCallback_adds).
  destruct (UserRegister_adds glo s r) as [Ha Hs]. split; [done|].
  destruct r as [u|]; [intros Hk; by apply (Hs u)|].
  intros _. unfold UserRegister, register_account. destruct (Register glo); by left.
Qed.
End Calls.

(** ** Theorems *)

Section Theorems.
Context `{LoginEnv}.

(** C5: Every store reached from the empty database by any sequence of
    login, registration and OAuth calls gives each account its grained
    row. *)
Theorem reachable_grained_complete ok s :
  reachable ok s → grained_complete s.
Proof.
  induction 1 as [|s c _ IH _]; [intros a Ha; simpl in Ha; set_solver|].
  exact (adds_account_grained_complete _ _ _ (proj1 (run_call_adds s c)) IH).
Qed.

(** C6: Along any sequence of calls that registers no name collating with
    the empty name, no two accounts share a user name under the
    collation. *)
Theorem reachable_keys_unique s :
  reachable name_safe s → keys_unique s.
Proof.
  induction 1 as [|s c _ IH Hc]; [constructor|].
  exact (adds_account_keys_unique _ _ (proj2 (run_call_adds s c) Hc) IH).
Qed.

Lemma general_login_success s u d :
  UserGeneralLogin s (Some u) = JSON StatusOK (SuccessPayload d) ↔
  ∃ a token, first_account (lf_Username u) s = Some a ∧ Username a = lf_Username u ∧
    DjangoCheckPassword a (lf_Password u) = true ∧
    JwtAuth (lf_Username u) (Rule a) = (token, None) ∧
    d = login_data token (Rule a) (RealName a).
Proof.
  unfold UserGeneralLogin. split.
  - intros Hl. go_case. apply dec_stable in H1. eauto 10.
  - intros (a & token & Hf & Hu & Hc & Hj & ->).
    rewrite Hf, bool_decide_eq_false_2, Hc, Hj by auto. done.
Qed.

(** C7: Password login succeeds exactly when the first account matching the
    name under the collation has exactly the requested name, the password
    checks against it and the token is signed; the response then carries
    the token, the stored role and the stored real name. *)
Theorem UserGeneralLogin_success s u d :
  UserGeneralLogin s (Some u) = JSON StatusOK (SuccessPayload d) ↔
  ∃ a token, first_account (lf_Username u) s = Some a ∧ Username a = lf_Username u ∧
    DjangoCheckPassword a (lf_Password u) = true ∧
    JwtAuth (lf_Username u) (Rule a) = (token, None) ∧
    d = login_data token (Rule a) (RealName a).
Proof. apply general_login_success. Qed.


(** C8: Registering a free name and then logging in with the same name and
    password succeeds, with the role "guest" and the registered real name. *)
Theorem register_then_login glo s u token :
  Register glo = true → first_account (Username u) s = None →
  JwtAuth (Username u) "guest" = (token, None) →
  UserGeneralLogin (UserRegister glo s (Some u)).1
    (Some {| lf_Username := Username u; lf_Password := Password u |}) =
  JSON StatusOK (SuccessPayload (login_data token "guest" (RealName u))).
Proof.
  intros Hr Hf Hj. apply general_login_success.
  unfold UserRegister, register_account. rewrite Hr, Hf. simpl.
  eexists _, token. rewrite first_account_create_fresh by done.
  split_and!; try done. by apply (check_encrypt _ _ GetRandom).
Qed.
End Theorems.

Section Bugs.
Context `{LoginEnv}.

(** The account a first LDAP login creates. *)
Definition ldap_account (u : loginForm) : CoreAccount :=
  {| Username := lf_Username u; RealName := "请重置你的真实姓名";
     Password := DjangoEncrypt GenWorkid GetRandom; Rule := "guest";
     Department := "all"; Email := "" |}.

(** C15: A first LDAP login stores a "guest" account but signs the token
    and answers with the role and real name of the zero-valued [account]
    variable, which gorm never filled: both are empty. *)
Theorem UserLdapLogin_first_login s u token :
  LdapContent (lf_Username u) (lf_Password u) = (true, None) →
  first_account (lf_Username u) s = None →
  JwtAuth (lf_Username u) "" = (token, None) →
  UserLdapLogin s (Some u) =
  (create_grained (new_grained (lf_Username u)) (create_account (ldap_account u) s),
   JSON StatusOK (SuccessPayload (login_data token "" ""))).
Proof. intros Hl Hf Hj. unfold UserLdapLogin. by rewrite Hl, Hf; simpl; rewrite Hj. Qed.

(** The account row a GitLab user is registered with, and the struct
    [gitlabUserRegister] returns for it. *)
Definition gitlab_account (gu : GitlabUser) : CoreAccount :=
  {| Username := GL_Username gu; RealName := GL_Name gu; Password := "";
     Rule := "guest"; Department := ""; Email := GL_Email gu |}.
Definition gitlab_returned (gu : GitlabUser) : CoreAccount :=
  {| Username := GL_Username gu; RealName := GL_Name gu; Password := "";
     Rule := ""; Department := ""; Email := GL_Email gu |}.

(** C16: The OAuth callback for a new GitLab user stores a "guest" account,
    but signs the token with the empty role of the struct it returns, and
    answers "permissions" = "" next to "rule" = "guest". *)
Theorem HandleCallback_new_user s g tok gu e token :
  State g = oauthStateString → Exchange Setup (Code g) = (tok, None) →
  getGitlabUserInfo (AccessToken tok) = (Some gu, e) →
  first_account (GL_Username gu) s = None →
  JwtAuth (GL_Username gu) "" = (token, None) →
  HandleCallback s (Some g) =
  (create_grained (new_grained (GL_Username gu)) (create_account (gitlab_account gu) s),
   JSON StatusOK (SuccessPayload (callback_data token gu (gitlab_returned gu) None))) ∧
  callback_data token gu (gitlab_returned gu) None !! "permissions" = Some "" ∧
  callback_data token gu (gitlab_returned gu) None !! "rule" = Some "guest".
Proof.
  intros Hs Hx Hg Hf Hj. split; [|done].
  unfold HandleCallback. rewrite bool_decide_eq_false_2 by (rewrite Hs; auto).
  rewrite Hx, Hg. simpl. rewrite Hf. simpl. by rewrite Hj.
Qed.

(** C17: When the GitLab profile request fails or its body is [null], the
    callback ignores the error and dereferences the nil user: the request
    ends in a nil-pointer panic and the store is unchanged. *)
Theorem HandleCallback_nil_profile s g tok :
  State g = oauthStateString → Exchange Setup (Code g) = (tok, None) →
  (getGitlabUserInfo (AccessToken tok)).1 = None →
  HandleCallback s (Some g) = (s, NilDereference).
Proof.
  intros Hs Hx Hg. unfold HandleCallback.
  rewrite bool_decide_eq_false_2 by (rewrite Hs; auto). by rewrite Hx, Hg.
Qed.

(** C18: When signing the token fails after a successful password check, the
    password-login handler returns without writing any response. *)
Theorem UserGeneralLogin_jwt_failure s u a token e :
  first_account (lf_Username u) s = Some a → Username a = lf_Username u →
  DjangoCheckPassword a (lf_Password u) = true →
  JwtAuth (lf_Username u) (Rule a) = (token, Some e) →
  UserGeneralLogin s (Some u) = NoResponse.
Proof.
  intros Hf Hu Hc Hj. unfold UserGeneralLogin.
  by rewrite Hf, bool_decide_eq_false_2, Hc, Hj by auto.
Qed.

(** C19: The OAuth callback is not atomic: when signing fails for a new
    GitLab user, the account and its grained row are already stored, and
    the handler then passes the registration's error, which is nil, to
    [ERR_COMMON_MESSAGE] instead of the signing error: [err.Error()] on
    the nil error panics, so the client gets no answer while the account
    stays. *)
Theorem HandleCallback_jwt_failure s g tok gu e token terr :
  State g = oauthStateString → Exchange Setup (Code g) = (tok, None) →
  getGitlabUserInfo (AccessToken tok) = (Some gu, e) →
  first_account (GL_Username gu) s = None →
  JwtAuth (GL_Username gu) "" = (token, Some terr) →
  HandleCallback s (Some g) =
  (create_grained (new_grained (GL_Username gu)) (create_account (gitlab_account gu) s),
   NilDereference).
Proof.
  intros Hs Hx Hg Hf Hj. unfold HandleCallback.
  rewrite bool_decide_eq_false_2 by (rewrite Hs; auto).
  rewrite Hx, Hg. simpl. rewrite Hf. simpl. by rewrite Hj.
Qed.

(** C14: Registering the empty user name twice succeeds twice: the
    uniqueness check reads the name of the row it finds, which is empty,
    so the second registration duplicates the account. *)
Theorem register_empty_name_twice glo s u :
  Register glo = true → Username u = "" → first_account "" s = None →
  let '(s1, r1) := UserRegister glo s (Some u) in
  let '(s2, r2) := UserRegister glo s1 (Some u) in
  r1 = JSON StatusOK (SuccessPayLoadToMessage "注册成功！") ∧
  r2 = JSON StatusOK (SuccessPayLoadToMessage "注册成功！") ∧
  ¬ keys_unique s2.
Proof.
  intros Hr Hu Hf. unfold UserRegister, register_account. rewrite Hr, Hu, Hf. simpl.
  erewrite first_account_create_fresh; [|exact Hf|reflexivity]. simpl.
  split_and!; [done|done|].
  unfold keys_unique, create_grained, create_account. simpl.
  rewrite <- app_assoc, fmap_app. simpl.
  intros Hd. apply NoDup_app in Hd as (_ & _ & Hd). inversion Hd; set_solver.
Qed.
End Bugs.

Definition is_error_response (r : Response) : bool :=
  match r with JSON _ p => is_error_payload p | _ => false end.

Section Atomic.
Context `{LoginEnv}.

(** C13: An LDAP login or a registration that answers with an error payload
    leaves the store unchanged. *)
Theorem error_response_keeps_store s req glo r :
  (is_error_response (UserLdapLogin s req).2 = true → (UserLdapLogin s req).1 = s) ∧
  (is_error_response (UserRegister glo s r).2 = true → (UserRegister glo s r).1 = s).
Proof. unfold UserLdapLogin, UserRegister. split; go_simpl. Qed.
End Atomic.

(** ** Well-formed responses

    The contract of the front end with these handlers: a 200 carries any
    payload but the redirect, a 301 carries the redirect ([UserAuthed]),
    a 500 carries an error message. *)
Definition response_wf (code : Z) (p : Payload) : bool :=
  match p with
  | UserAuthed _ => bool_decide (code = StatusMovedPermanently)
  | ERR_COMMON_MESSAGE _ => bool_decide (code = StatusOK ∨ code = StatusInternalServerError)
  | _ => bool_decide (code = StatusOK)
  end.

Section Responses.
Context `{LoginEnv}.

(** C34: Every JSON response a login handler writes is well formed: the
    redirect goes out with 301 and only with it, an error message with 200
    or 500, every other payload with 200. *)
Theorem login_responses_wf s c code p :
  (run_call s c).2 = JSON code p → response_wf code p = true.
Proof.
  destruct c as [r|r|t|r|glo r]; simpl;
    unfold UserLdapLogin, UserGeneralLogin, UserGitlabLogin, HandleCallback, UserRegister,
      register_account, common_message;
    intros Hr; go_simpl; try reflexivity.
  all: unfold gitlabUserRegister in *; go_simpl.
Qed.
End Responses.

(** ** Concrete runs *)

(** A case-insensitive collation on ASCII names, like MySQL's default. *)
Definition ascii_lower (a : Ascii.ascii) : Ascii.ascii :=
  let n := Ascii.nat_of_ascii a in
  if (65 <=? n)%nat && (n <=? 90)%nat then Ascii.ascii_of_nat (n + 32) else a.

Fixpoint lower (s : string) : string :=
  match s with
  | EmptyString => EmptyString
  | String a s' => String (ascii_lower a) (lower s')
  end.

Definition sample_check (a : CoreAccount) (pw : string) : bool :=
  bool_decide (Password a = "sha$" +:+ pw).

Lemma sample_check_encrypt a pw (salt : string) :
  Password a = "sha$" +:+ pw → sample_check a pw = true.
Proof. intros Hp. unfold sample_check. by rewrite bool_decide_eq_true. Qed.

Definition sample_gitlab : GitlabConf :=
  {| ClientID := "id"; ClientSecret := "secret"; RedirectURL := "https://y.example/cb";
     AuthURL := "https://gitlab.example/oauth/authorize";
     TokenURL := "https://gitlab.example/oauth/token" |}.

Definition dave : GitlabUser :=
  {| GL_Username := "dave"; GL_Name := "Dave"; GL_State := "active";
     GL_Email := "dave@example.com" |}.

Definition mallory : GitlabUser :=
  {| GL_Username := "mallory"; GL_Name := "Mallory"; GL_State := "active";
     GL_Email := "mallory@example.com" |}.

(** LDAP accepts the password "ldap-secret"; signing fails for "mallory";
    the OAuth code is the access token; the profile of token "null" is the
    JSON [null], of token "m" mallory's, of every other token dave's. *)
#[local] Instance sample_env : LoginEnv := {|
  db_key := lower;
  LdapContent u p := (bool_decide (p = "ldap-secret"), None);
  DjangoEncrypt pw salt := "sha$" +:+ pw;
  DjangoCheckPassword := sample_check;
  GenWorkid := "w-1";
  GetRandom := "salt";
  JwtAuth u r := if bool_decide (u = "mallory") then ("", Some "no signing key")
                 else (u +:+ ":" +:+ r, None);
  C_Gitlab := sample_gitlab;
  GloBaseDomin := "https://yearning.example";
  GloGitlab := "https://gitlab.example";
  AuthCodeURL c st := AuthURL c +:+ "?state=" +:+ st;
  Exchange c code := ({| AccessToken := code |}, None);
  HttpGet url := Body url;
  UnmarshalGitlabUser body :=
    if bool_decide (body = "https://gitlab.example/api/v4/user?access_token=null")
    then UnmarshalNull
    else if bool_decide (body = "https://gitlab.example/api/v4/user?access_token=m")
    then UnmarshalUser mallory else UnmarshalUser dave;
  check_encrypt a pw salt := sample_check_encrypt a pw salt
|}.

Definition open_glo : GloOther := {| Multi := false; Register := true |}.

Definition alice : CoreAccount :=
  {| Username := "alice"; RealName := "Alice"; Password := "pw1"; Rule := "admin";
     Department := "dba"; Email := "alice@example.com" |}.

Definition anon : CoreAccount :=
  {| Username := ""; RealName := "x"; Password := "pw"; Rule := ""; Department := "";
     Email := "" |}.

Definition cb (code : string) : Config := {| State := "state"; Code := code |}.

(** A sample history: register alice, LDAP login of bob, GitLab login of dave. *)
Definition sample_history : Store :=
  (run_call (run_call (run_call empty_store (CallRegister open_glo (Some alice))).1
     (CallLdap (Some {| lf_Username := "bob"; lf_Password := "ldap-secret" |}))).1
     (CallCallback (Some (cb "tok")))).1.

Lemma sample_history_reachable : reachable name_safe sample_history.
Proof.
  repeat apply reach_call; try exact I; [apply reach_empty | vm_compute; discriminate].
Qed.

Lemma reachable_grained_complete_witness : grained_complete sample_history.
Proof.
  apply (reachable_grained_complete name_safe). exact sample_history_reachable.
Defined.

Lemma reachable_keys_unique_witness : keys_unique sample_history.
Proof.
  apply reachable_keys_unique. exact sample_history_reachable.
Defined.

Lemma UserGeneralLogin_success_witness :
  UserGeneralLogin (UserRegister open_glo empty_store (Some alice)).1
    (Some {| lf_Username := "alice"; lf_Password := "pw1" |}) =
  JSON StatusOK (SuccessPayload (login_data "alice:guest" "guest" "Alice")).
Proof.
  apply UserGeneralLogin_success.
  exists {| Username := "alice"; RealName := "Alice"; Password := "sha$pw1"; Rule := "guest";
            Department := "dba"; Email := "alice@example.com" |}, "alice:guest".
  vm_compute. split_and!; reflexivity.
Defined.

Lemma register_then_login_witness :
  UserGeneralLogin (UserRegister open_glo empty_store (Some alice)).1
    (Some {| lf_Username := Username alice; lf_Password := Password alice |}) =
  JSON StatusOK (SuccessPayload (login_data "alice:guest" "guest" (RealName alice))).
Proof. apply register_then_login; reflexivity. Defined.

Lemma UserLdapLogin_first_login_witness :
  UserLdapLogin empty_store (Some {| lf_Username := "bob"; lf_Password := "ldap-secret" |}) =
  (create_grained (new_grained "bob")
     (create_account (ldap_account {| lf_Username := "bob"; lf_Password := "ldap-secret" |}) empty_store),
   JSON StatusOK (SuccessPayload (login_data "bob:" "" ""))).
Proof. apply UserLdapLogin_first_login; reflexivity. Defined.

Lemma HandleCallback_new_user_witness :
  HandleCallback empty_store (Some (cb "tok")) =
  (create_grained (new_grained "dave") (create_account (gitlab_account dave) empty_store),
   JSON StatusOK (SuccessPayload (callback_data "dave:" dave (gitlab_returned dave) None))) ∧
  callback_data "dave:" dave (gitlab_returned dave) None !! "permissions" = Some "" ∧
  callback_data "dave:" dave (gitlab_returned dave) None !! "rule" = Some "guest".
Proof.
  apply (HandleCallback_new_user empty_store (cb "tok") {| AccessToken := "tok" |} dave None);
    reflexivity.
Defined.

Lemma HandleCallback_nil_profile_witness :
  HandleCallback sample_history (Some (cb "null")) = (sample_history, NilDereference).
Proof. apply (HandleCallback_nil_profile _ _ {| AccessToken := "null" |}); reflexivity. Defined.

Lemma UserGeneralLogin_jwt_failure_witness :
  let s := (UserRegister open_glo empty_store
              (Some {| Username := "mallory"; RealName := "M"; Password := "pw";
                       Rule := ""; Department := ""; Email := "" |})).1 in
  UserGeneralLogin s (Some {| lf_Username := "mallory"; lf_Password := "pw" |}) = NoResponse.
Proof.
  apply (UserGeneralLogin_jwt_failure _ _
           {| Username := "mallory"; RealName := "M"; Password := "sha$pw"; Rule := "guest";
              Department := ""; Email := "" |} "" "no signing key"); reflexivity.
Defined.

Lemma HandleCallback_jwt_failure_witness :
  HandleCallback empty_store (Some (cb "m")) =
  (create_grained (new_grained "mallory") (create_account (gitlab_account mallory) empty_store),
   NilDereference).
Proof.
  apply (HandleCallback_jwt_failure empty_store (cb "m") {| AccessToken := "m" |} mallory None
           "" "no signing key"); reflexivity.
Defined.

Lemma register_empty_name_twice_witness :
  let '(s1, r1) := UserRegister open_glo sample_history (Some anon) in
  let '(s2, r2) := UserRegister open_glo s1 (Some anon) in
  r1 = JSON StatusOK (SuccessPayLoadToMessage "注册成功！") ∧
  r2 = JSON StatusOK (SuccessPayLoadToMessage "注册成功！") ∧
  ¬ keys_unique s2.
Proof. apply register_empty_name_twice; reflexivity. Defined.

Lemma error_response_keeps_store_witness :
  is_error_response (UserLdapLogin sample_history
     (Some {| lf_Username := "bob"; lf_Password := "wrong" |})).2 = true ∧
  (UserLdapLogin sample_history (Some {| lf_Username := "bob"; lf_Password := "wrong" |})).1
     = sample_history ∧
  is_error_response (UserRegister open_glo sample_history (Some alice)).2 = true ∧
  (UserRegister open_glo sample_history (Some alice)).1 = sample_history.
Proof.
  destruct (error_response_keeps_store sample_history
              (Some {| lf_Username := "bob"; lf_Password := "wrong" |}) open_glo (Some alice))
    as [Hl Hr].
  split_and!; [reflexivity | apply Hl; reflexivity | reflexivity | apply Hr; reflexivity].
Defined.

Lemma login_responses_wf_witness :
  (run_call empty_store (CallGitlab "t")).2 = JSON StatusMovedPermanently (UserAuthed GloBaseDomin) ∧
  response_wf StatusMovedPermanently (UserAuthed GloBaseDomin) = true.
Proof.
  assert ((run_call empty_store (CallGitlab "t")).2 =
          JSON StatusMovedPermanently (UserAuthed GloBaseDomin)) as H by reflexivity.
  split; [exact H|]. exact (login_responses_wf _ _ _ _ H).
Defined.
