(* ===== verification/Wx.v ===== *)
(** * [src/lib/wx.go]: the WeCom notification bridge

    [userIds] is the fixed table from e-mail address to WeCom user id, a Go
    map literal, here a [gmap string string] built from the same pairs.
    [whoNeedToSend] reads the two parties of a [model.Message] (outside
    [src/]: only its [User] and [ToUser] fields are read), with Go's zero
    value [""] for an address missing from the map.  [SendWxMsg] talks to the
    WeCom API through [WxEnv]; its observable effects are the message it
    hands to the API and the line it logs when the API fails: the caller is
    never told. *)

From S2P Require Import Prelude.

Record Message := { User : string; ToUser : string }.

Definition userIds_literal : list (string * string) :=
  [("jun.liu@aylaasia.com", "LiuJun");
   ("tao.chen@aylaasia.com", "0b7468c8e0f045a490038a2b3ad356fb");
   ("wei.fan@aylaasia.com", "bd5ca88ea2384681af0e00dc6b157496");
   ("xudong.fu@aylaasia.com", "9301a5a2726846f58f8315dfa568bea4");
   ("jing.lu@aylaasia.com", "943e292081f842b8a3780ec5eca945ed");
   ("jacky.song@aylaasia.com", "9a2bf7dc19aa4ed78f0d11ca71432421");
   ("tyler.tang@aylaasia.com", "TangLei");
   ("xiaodong.wang@aylaasia.com", "88c04a58e20a434894154fdb0c23a3a7");
   ("dinglin.wu@aylaasia.com", "WuDingLin");
   ("lin.yang@aylaasia.com", "1cb9d8d2173944a49a00c9df100a2dae");
   ("guoqiang.ye@aylaasia.com", "YeGuoQiang");
   ("jinghe.zhang@aylaasia.com", "ZhangJingHe");
   ("yinglong.zhang@aylaasia.com", "9436641919f243fa831fe9a5ca16b925");
   ("jim.zhao@aylaasia.com", "cff688373b3244039abaf127decaf0e9");
   ("mingyang.zou@aylaasia.com", "ed9a6ce5e0fa4fbea0c97ecb8cf0fcde");
   ("cheng.chen@aylaasia.com", "13027da7ccde410d95140ac7525c4e6e");
   ("taidong.li@aylaasia.com", "LiTaiDong");
   ("feng.pi@aylaasia.com", "5522380e65cf47dbad2db78ad3e7e252")].

Definition userIds : gmap string string := list_to_map userIds_literal.

(** [userIds[k]]: Go's map index gives the zero value for a missing key. *)
Definition map_index (m : gmap string string) (k : string) : string :=
  default "" (m !! k).

Definition whoNeedToSend (msg : Message) : list string :=
  let u := map_index userIds (User msg) in
  let toU := map_index userIds (ToUser msg) in
  [] ++ [u; toU].

(** ** The WeCom client *)

Record WxApp := { corp_id : string; corp_secret : string; agent_id : Z }.

Class WxEnv := {
  CorpID : string; CorpSecret : string; AgentID : Z;
  (** [app.SendMarkdownMessage(&Recipient{UserIDs: ids}, content, safe)] *)
  SendMarkdownMessage : WxApp → list string → string → bool → goerr
}.

Inductive WxEffect :=
| Sent (app : WxApp) (to : list string) (content : string) (safe : bool)
| Logged (line : string).

Section Send.
Context `{WxEnv}.

(** [workwx.New(CorpID).WithApp(CorpSecret, AgentID)]. *)
Definition wx_app : WxApp := {| corp_id := CorpID; corp_secret := CorpSecret; agent_id := AgentID |}.

(** The effects of [SendWxMsg(msg, sv)], in order. *)
Definition SendWxMsg (msg : Message) (sv : string) : list WxEffect :=
  let uIDs := whoNeedToSend msg in
  let err := SendMarkdownMessage wx_app uIDs sv false in
  Sent wx_app uIDs sv false ::
  match err with
  | Some e => [Logged e]
  | None => []
  end.
End Send.

(** ** Theorems *)

Lemma userIds_lookup e i : userIds !! e = Some i ↔ (e, i) ∈ userIds_literal.
Proof.
  unfold userIds. symmetry. apply elem_of_list_to_map.
  apply (bool_decide_unpack _ (dec := NoDup_dec _)). vm_compute. exact I.
Qed.

(** The e-mail table is one-to-one: two addresses never share a WeCom
    id, so a message is never delivered to the wrong person through a
    shared id. *)
Theorem userIds_injective e1 e2 i :
  userIds !! e1 = Some i → userIds !! e2 = Some i → e1 = e2.
Proof.
  rewrite !userIds_lookup. apply NoDup_snd_inj.
  apply (bool_decide_unpack _ (dec := NoDup_dec _)). vm_compute. exact I.
Qed.

(** [whoNeedToSend] names exactly two recipients, the sender's and the
    addressee's WeCom ids, in that order; an address missing from the table
    becomes the empty id rather than being dropped. *)
Theorem whoNeedToSend_spec msg :
  ∃ u t, whoNeedToSend msg = [u; t] ∧
    (userIds !! User msg = Some u ∨ (userIds !! User msg = None ∧ u = "")) ∧
    (userIds !! ToUser msg = Some t ∨ (userIds !! ToUser msg = None ∧ t = "")).
Proof.
  unfold whoNeedToSend, map_index. simpl. eexists _, _. split; [done|].
  split; destruct (userIds !! _); simpl; auto.
Qed.

(** No address of the table has the empty id. *)
Lemma userIds_nonempty e : userIds !! e ≠ Some "".
Proof.
  rewrite userIds_lookup. intros Hin.
  assert (Forall (λ p, p.2 ≠ "") userIds_literal) as Hall.
  { apply (bool_decide_unpack _). vm_compute. reflexivity. }
  rewrite Forall_forall in Hall. by apply (Hall _ Hin).
Qed.

(** The messages handed to the API and the lines logged, in order. *)
Definition sends (effs : list WxEffect) : list (WxApp * list string * string * bool) :=
  omap (λ x, match x with Sent a t c b => Some (a, t, c, b) | Logged _ => None end) effs.

Definition logs (effs : list WxEffect) : list string :=
  omap (λ x, match x with Logged l => Some l | Sent _ _ _ _ => None end) effs.

Section Send_theorems.
Context `{WxEnv}.

(** C24: [SendWxMsg] hands the API exactly one markdown message, to the
    recipients of [whoNeedToSend], with the given content and [safe]
    unset; it logs exactly the API's error, if any, and reports nothing to
    its caller.  The message can reach nobody but the two parties: every
    WeCom id it is addressed to belongs to the sender's or the addressee's
    address and to no other (the table is one-to-one, and an unknown
    address becomes the empty id, which belongs to nobody). *)
Theorem SendWxMsg_effects msg sv :
  sends (SendWxMsg msg sv) = [(wx_app, whoNeedToSend msg, sv, false)] ∧
  logs (SendWxMsg msg sv) = option_list (SendMarkdownMessage wx_app (whoNeedToSend msg) sv false) ∧
  ∀ i e, i ∈ whoNeedToSend msg → userIds !! e = Some i → e = User msg ∨ e = ToUser msg.
Proof.
  split_and!; [unfold SendWxMsg; by destruct (SendMarkdownMessage _ _ _ _)..|].
  intros i e Hi He. unfold whoNeedToSend, map_index in Hi. simpl in Hi.
  rewrite elem_of_cons, list_elem_of_singleton in Hi.
  destruct Hi as [->| ->]; [left|right];
    match goal with |- e = ?a =>
      destruct (userIds !! a) as [j|] eqn:Ha; simpl in He;
        [by apply (userIds_injective _ _ j)|by apply userIds_nonempty in He]
    end.
Qed.
End Send_theorems.

(** A message from a registered address to an unknown one. *)
Example whoNeedToSend_unknown :
  whoNeedToSend {| User := "jun.liu@aylaasia.com"; ToUser := "someone@example.com" |} =
  ["LiuJun"; ""].
Proof. reflexivity. Qed.

Lemma userIds_injective_witness :
  userIds !! "jun.liu@aylaasia.com" = Some "LiuJun" ∧
  "jun.liu@aylaasia.com" = "jun.liu@aylaasia.com".
Proof.
  assert (userIds !! "jun.liu@aylaasia.com" = Some "LiuJun") as H by (vm_compute; reflexivity).
  split; [exact H | exact (userIds_injective _ _ _ H H)].
Defined.
