(* ===== verification/Workflow.v ===== *)
(** * The order workflow engine of the spec (WorkflowEngine, AssignmentResolver,
      AuditTrail), modelled from [spec.md] sections 3 to 8

    Its code is not under [src/]; every definition here is modelled from the
    spec and marked [spec_modelled] in the manifest.  The shapes follow the
    source where it shows them: [current_step], [assigned] and the status
    vocabulary of [types.go].

    - [OrderStatus], [Order], [AuditEntry], [WfError]: the data model (spec 3, 7).
    - [eligible]: the AssignmentResolver (spec 4.2), a pure function of the
      approval chain, the registered users and their grants.
    - [audit_append]: the AuditTrail's idempotent append (spec 4.3).
    - [transition]: the legality of each transition on one order (spec 4.1).
    - [prepare] / [commit]: a call reads a snapshot and plans a
      compare-and-swap on [(status, current_step)]; [commit] applies the
      plan to the current store or fails with [Conflict] (spec 5).
      [call] is [commit] after [prepare] on the same store.
    - [Spec.step]: the abstract lifecycle; [transition_refines] shows each
      transition is one of its steps.
    - [order_wf], [audit_ok], [plan_ok]: the invariants of one store and
      what a plan carries from its snapshot; [commit_wf],
      [commit_create_audit_ok] and [commit_update_audit_ok] show a commit
      keeps them.
    Runs of concurrent calls are in [Runs], the engine's properties in
    [Engine]. *)

From S2P Require Import Prelude.

Local Open Scope nat_scope.

(** ** Data *)

Inductive OrderKind := Execution | Query.

Inductive OrderStatus :=
| Created | Editing | Reviewing (k : nat) | Agreed (k : nat) | Rejected
| AllEnded | Ended | AllCancelled | Cancelled | Deleted.

#[export] Instance OrderStatus_eq_dec : EqDecision OrderStatus.
Proof. solve_decision. Defined.

Record Order := {
  o_id : nat; o_work_id : string; o_owner : string; o_text : string;
  o_source : string; o_database : string; o_kind : OrderKind;
  o_status : OrderStatus; o_step : nat; o_assigned : list string; o_executor : string }.

Inductive Action := ACreate | AEdit | ADelete | AApprove | AReject | AExecute | ACancel.

#[export] Instance Action_eq_dec : EqDecision Action.
Proof. solve_decision. Defined.

Record AuditEntry := {
  a_order : nat; a_step : nat; a_actor : string; a_action : Action;
  a_status : OrderStatus; a_comment : string }.

Inductive WfError :=
| ValidationError | InvalidTransition | NotEligible | Forbidden
| NoReviewerAvailable | Conflict | NotFound.

Inductive Role := Guest | Dba | Admin.

Record Account := { acc_name : string; acc_role : Role; acc_department : string }.

(** The injected configuration (spec 9): multi-approver flag and the scope
    label each step of the approval chain requires. *)
Record WfConfig := { multiApprover : bool; chainDefinition : list string }.

(** The identity subsystem as the engine reads it. *)
Record Directory := {
  users : list Account;
  GrantsFor : string → list string }.

(** The terminal statuses: no transition leaves them. *)
Definition terminal (s : OrderStatus) : bool :=
  match s with Ended | AllCancelled | Cancelled | Deleted => true | _ => false end.

(** ** AssignmentResolver *)

(** The accounts whose grants hold the label of step [k], in directory order;
    no label (a step past the chain) gives nobody. *)
Definition eligible (cfg : WfConfig) (dir : Directory) (k : nat) : list string :=
  match chainDefinition cfg !! k with
  | None => []
  | Some label =>
      acc_name <$> List.filter (λ a, bool_decide (label ∈ GrantsFor dir (acc_name a))) (users dir)
  end.

#[export] Instance Role_eq_dec : EqDecision Role.
Proof. solve_decision. Defined.

Definition is_admin (dir : Directory) (u : string) : bool :=
  existsb (λ a, bool_decide (acc_name a = u ∧ acc_role a = Admin)) (users dir).

(** ** AuditTrail *)

(** Append, unless an entry with the same order, step and action exists. *)
Definition audit_append (e : AuditEntry) (log : list AuditEntry) : list AuditEntry :=
  if existsb (λ e', bool_decide (a_order e' = a_order e ∧ a_step e' = a_step e ∧
                                 a_action e' = a_action e)) log
  then log else log ++ [e].

Definition History (id : nat) (log : list AuditEntry) : list AuditEntry :=
  List.filter (λ e, bool_decide (a_order e = id)) log.

(** ** WorkflowEngine: the decision on one order *)

Inductive Request :=
| RCreate (actor work_id text source database : string) (kind : OrderKind)
| REdit (id : nat) (actor text : string)
| RDelete (id : nat) (actor : string)
| RApprove (id : nat) (actor : string)
| RReject (id : nat) (actor comment : string)
| RExecute (id : nat) (actor : string)
| RCancel (id : nat) (actor : string).

(** What a legal transition does to the order. *)
Inductive Outcome :=
| NoOp
| Apply (a : Action) (o' : Order) (comment : string).

Definition set_state (o : Order) (st : OrderStatus) (k : nat) (assigned : list string) : Order :=
  {| o_id := o_id o; o_work_id := o_work_id o; o_owner := o_owner o; o_text := o_text o;
     o_source := o_source o; o_database := o_database o; o_kind := o_kind o;
     o_status := st; o_step := k; o_assigned := assigned; o_executor := o_executor o |}.

Definition set_text (o : Order) (t : string) : Order :=
  {| o_id := o_id o; o_work_id := o_work_id o; o_owner := o_owner o; o_text := t;
     o_source := o_source o; o_database := o_database o; o_kind := o_kind o;
     o_status := o_status o; o_step := o_step o; o_assigned := o_assigned o;
     o_executor := o_executor o |}.

Definition set_executor (o : Order) (u : string) : Order :=
  {| o_id := o_id o; o_work_id := o_work_id o; o_owner := o_owner o; o_text := o_text o;
     o_source := o_source o; o_database := o_database o; o_kind := o_kind o;
     o_status := Ended; o_step := o_step o; o_assigned := []; o_executor := u |}.

(** The owner or an admin. *)
Definition may_manage (dir : Directory) (o : Order) (u : string) : bool :=
  bool_decide (u = o_owner o) || is_admin dir u.

(** The review step an order waits on: a created order waits on step 0. *)
Definition review_step (o : Order) : option nat :=
  match o_status o with
  | Created => Some 0%nat
  | Reviewing k => Some k
  | _ => None
  end.

Definition approve (cfg : WfConfig) (dir : Directory) (o : Order) (actor : string)
    : WfError + Outcome :=
  match review_step o with
  | None => inl InvalidTransition
  | Some k =>
      match eligible cfg dir k with
      | [] => inl NoReviewerAvailable
      | el =>
          if bool_decide (actor ∉ el) then inl NotEligible
          else if bool_decide (length (chainDefinition cfg) ≤ S k)%nat
          then inr (Apply AApprove (set_state o AllEnded (S k) []) "")
          else match eligible cfg dir (S k) with
               | [] => inl NoReviewerAvailable
               | el' => inr (Apply AApprove (set_state o (Reviewing (S k)) (S k) el') "")
               end
      end
  end.

Definition transition (cfg : WfConfig) (dir : Directory) (o : Order) (req : Request)
    : WfError + Outcome :=
  match req with
  | RCreate _ _ _ _ _ _ => inl InvalidTransition
  | REdit _ actor text =>
      if negb (may_manage dir o actor) then inl Forbidden
      else match o_status o with
           | Created | Reviewing _ => inr (Apply AEdit (set_text o text) "")
           | Rejected => inr (Apply AEdit (set_state (set_text o text) Created 0 (eligible cfg dir 0)) "")
           | _ => inl InvalidTransition
           end
  | RDelete _ actor =>
      if negb (may_manage dir o actor) then inl Forbidden
      else if terminal (o_status o) then inl InvalidTransition
      else inr (Apply ADelete (set_state o Deleted (o_step o) []) "")
  | RApprove _ actor => approve cfg dir o actor
  | RReject _ actor comment =>
      match review_step o with
      | None => inl InvalidTransition
      | Some k =>
          if bool_decide (comment = "") then inl ValidationError
          else if bool_decide (actor ∉ eligible cfg dir k) then inl NotEligible
          else inr (Apply AReject (set_state o Rejected (o_step o) []) comment)
      end
  | RExecute _ actor =>
      match o_status o, o_kind o with
      | AllEnded, Execution => inr (Apply AExecute (set_executor o actor) "")
      | _, _ => inl InvalidTransition
      end
  | RCancel _ actor =>
      match o_status o with
      | Cancelled | AllCancelled => inr NoOp
      | st =>
          if negb (may_manage dir o actor) then inl Forbidden
          else if terminal st then inl InvalidTransition
          else if bool_decide (st = AllEnded)
          then inr (Apply ACancel (set_state o AllCancelled (o_step o) []) "")
          else inr (Apply ACancel (set_state o Cancelled (o_step o) []) "")
      end
  end.

Arguments transition : simpl never.

(** ** WorkflowEngine: the store, compare-and-swap, audit and events *)

(** The event handed to the NotificationBridge. *)
Record Event := {
  ev_action : Action; ev_order : nat; ev_work_id : string; ev_actor : string;
  ev_owner : string; ev_status : OrderStatus; ev_next : list string }.

Record Engine := {
  orders : gmap nat Order; audit : list AuditEntry; events : list Event; next_id : nat }.

Definition empty_engine : Engine :=
  {| orders := ∅; audit := []; events := []; next_id := 0 |}.

(** What a call read from its snapshot and means to write. *)
Inductive Plan :=
| PFail (e : WfError)
| PNoOp
| PCreate (o : Order) (actor : string)
| PUpdate (id : nat) (exp_status : OrderStatus) (exp_step : nat) (o' : Order) (a : Action)
    (actor comment : string).

Inductive CallResult := Ok | Err (e : WfError).

#[export] Instance WfError_eq_dec : EqDecision WfError.
Proof. solve_decision. Defined.
#[export] Instance CallResult_eq_dec : EqDecision CallResult.
Proof. solve_decision. Defined.

Definition work_id_taken (st : Engine) (w : string) : bool :=
  existsb (λ io, bool_decide (o_work_id io.2 = w)) (map_to_list (orders st)).

Definition request_id (req : Request) : option nat :=
  match req with
  | RCreate _ _ _ _ _ _ => None
  | REdit id _ _ | RDelete id _ | RApprove id _ | RReject id _ _ | RExecute id _
  | RCancel id _ => Some id
  end.

Definition request_actor (req : Request) : string :=
  match req with
  | RCreate a _ _ _ _ _ | REdit _ a _ | RDelete _ a | RApprove _ a | RReject _ a _
  | RExecute _ a | RCancel _ a => a
  end.

(** Read the snapshot [st] and plan the write. *)
Definition prepare (cfg : WfConfig) (dir : Directory) (st : Engine) (req : Request) : Plan :=
  match req with
  | RCreate actor w text src db kind =>
      if bool_decide (src = "" ∨ db = "") || work_id_taken st w then PFail ValidationError
      else match eligible cfg dir 0 with
           | [] => PFail NoReviewerAvailable
           | el => PCreate {| o_id := next_id st; o_work_id := w; o_owner := actor; o_text := text;
                              o_source := src; o_database := db; o_kind := kind;
                              o_status := Created; o_step := 0; o_assigned := el;
                              o_executor := "" |} actor
           end
  | _ =>
      match request_id req with
      | None => PFail NotFound
      | Some id =>
          match orders st !! id with
          | None => PFail NotFound
          | Some o =>
              match transition cfg dir o req with
              | inl e => PFail e
              | inr NoOp => PNoOp
              | inr (Apply a o' c) => PUpdate id (o_status o) (o_step o) o' a (request_actor req) c
              end
          end
      end
  end.

(** Apply a plan to the current store: the compare-and-swap on
    [(status, current_step)] (on the next id for a creation), then one audit
    entry and one event. *)
Definition commit (st : Engine) (p : Plan) : CallResult * Engine :=
  match p with
  | PFail e => (Err e, st)
  | PNoOp => (Ok, st)
  | PCreate o actor =>
      if bool_decide (o_id o = next_id st) then
        (Ok, {| orders := <[o_id o := o]> (orders st);
                audit := audit_append {| a_order := o_id o; a_step := 0; a_actor := actor;
                                         a_action := ACreate; a_status := Created;
                                         a_comment := "" |} (audit st);
                events := events st ++ [{| ev_action := ACreate; ev_order := o_id o;
                                           ev_work_id := o_work_id o; ev_actor := actor;
                                           ev_owner := o_owner o; ev_status := Created;
                                           ev_next := o_assigned o |}];
                next_id := S (next_id st) |})
      else (Err Conflict, st)
  | PUpdate id es ek o' a actor c =>
      match orders st !! id with
      | Some o0 =>
          if bool_decide (o_status o0 = es ∧ o_step o0 = ek) then
            (Ok, {| orders := <[id := o']> (orders st);
                    audit := audit_append {| a_order := id; a_step := ek; a_actor := actor;
                                             a_action := a; a_status := o_status o';
                                             a_comment := c |} (audit st);
                    events := events st ++ [{| ev_action := a; ev_order := id;
                                               ev_work_id := o_work_id o'; ev_actor := actor;
                                               ev_owner := o_owner o'; ev_status := o_status o';
                                               ev_next := o_assigned o' |}];
                    next_id := next_id st |})
          else (Err Conflict, st)
      | None => (Err Conflict, st)
      end
  end.

Definition call (cfg : WfConfig) (dir : Directory) (st : Engine) (req : Request)
    : CallResult * Engine :=
  commit st (prepare cfg dir st req).

(** ** The abstract lifecycle (spec 4.1)

    A transition of [(status, current_step)] for a chain of [n] steps, as the
    spec's prose lists them; the engine refines it ([transition_refines]). *)
Module Spec.
Inductive waiting : OrderStatus → nat → Prop :=
| waiting_created : waiting Created 0
| waiting_reviewing k : waiting (Reviewing k) k.

Inductive step (n : nat) : OrderStatus → nat → Action → OrderStatus → nat → Prop :=
| approve_next s k : waiting s k → S k < n → step n s k AApprove (Reviewing (S k)) (S k)
| approve_last s k : waiting s k → n <= S k → step n s k AApprove AllEnded (S k)
| edit_pending s k : waiting s k → step n s k AEdit s k
| edit_rejected k : step n Rejected k AEdit Created 0
| reject s k : waiting s k → step n s k AReject Rejected k
| delete s k : terminal s = false → step n s k ADelete Deleted k
| execute k : step n AllEnded k AExecute Ended k
| cancel_pending s k : terminal s = false → s ≠ AllEnded → step n s k ACancel Cancelled k
| cancel_approved k : step n AllEnded k ACancel AllCancelled k.
End Spec.

(** ** Well-formed orders *)

(** How status and step go together in a chain of [n] steps. *)
Definition order_wf (n : nat) (o : Order) : Prop :=
  match o_status o with
  | Created => o_step o = 0 ∧ 0 < n
  | Reviewing k => o_step o = k ∧ 0 < k < n
  | AllEnded | Ended | AllCancelled => o_step o = n
  | Rejected | Cancelled => o_step o < n
  | Deleted => o_step o <= n
  | Editing | Agreed _ => False
  end%nat.

Definition engine_wf (cfg : WfConfig) (st : Engine) : Prop :=
  ∀ id o, orders st !! id = Some o →
    o_id o = id ∧ (id < next_id st)%nat ∧ order_wf (length (chainDefinition cfg)) o.

Lemma eligible_nonempty_lt cfg dir k :
  eligible cfg dir k ≠ [] → (k < length (chainDefinition cfg))%nat.
Proof.
  unfold eligible. destruct (chainDefinition cfg !! k) eqn:Hk; [|done].
  intros _. by apply lookup_lt_Some in Hk.
Qed.

Lemma review_step_wf n o k :
  order_wf n o → review_step o = Some k → Spec.waiting (o_status o) (o_step o) ∧ o_step o = k ∧ (k < n)%nat.
Proof.
  intros Hw Hr. unfold review_step, order_wf in *.
  destruct (o_status o); simplify_eq; destruct Hw as [Hs Hn]; rewrite Hs;
    (split; [constructor|lia]).
Qed.

(** Every change [transition] allows is a step of the abstract lifecycle,
    keeps the order well formed and keeps its id. *)
Lemma transition_refines cfg dir o req a o' c :
  order_wf (length (chainDefinition cfg)) o →
  transition cfg dir o req = inr (Apply a o' c) →
  Spec.step (length (chainDefinition cfg)) (o_status o) (o_step o) a (o_status o') (o_step o') ∧
  order_wf (length (chainDefinition cfg)) o' ∧ o_id o' = o_id o.
Proof.
  intros Hw Hd. destruct req; unfold transition, approve in Hd; simpl in Hd; go_case.
  all: try match goal with H : review_step _ = Some _ |- _ =>
         destruct (review_step_wf _ _ _ Hw H) as (Hwait & Hk & Hlt) end.
  all: unfold order_wf in Hw |- *; simpl.
  all: repeat match goal with H : o_status ?x = _ |- _ => rewrite H in *; clear H end.
  all: split_and!; try done; try lia.
  all: try (destruct Hw as [Hs _]; rewrite Hs).
  all: try solve [econstructor; eauto using Spec.waiting_created, Spec.waiting_reviewing].
  all: try solve [destruct (o_status o); simpl in *; done || lia].
  all: subst; econstructor; [done|lia].
Qed.

(** ** Engine lemmas *)

Lemma prepare_update cfg dir st req id es ek o' a actor c :
  prepare cfg dir st req = PUpdate id es ek o' a actor c →
  ∃ o, request_id req = Some id ∧ orders st !! id = Some o ∧ es = o_status o ∧ ek = o_step o ∧
       transition cfg dir o req = inr (Apply a o' c) ∧ actor = request_actor req.
Proof.
  intros Hp. destruct req; simpl in Hp; go_case;
    injection Hp as <- <- <- <- <- <- <-; eauto 10.
Qed.

Lemma prepare_create cfg dir st req o actor :
  prepare cfg dir st req = PCreate o actor →
  o_id o = next_id st ∧ o_status o = Created ∧ o_step o = 0 ∧
  o_assigned o = eligible cfg dir 0 ∧ o_assigned o ≠ [] ∧ actor = request_actor req ∧
  work_id_taken st (o_work_id o) = false.
Proof.
  intros Hp. destruct req; simpl in Hp; go_case.
  match goal with H : _ || _ = false |- _ => apply orb_false_iff in H as [_ Hw] end.
  simpl. split_and!; done.
Qed.

Lemma commit_err st p e st' : commit st p = (Err e, st') → st' = st.
Proof. intros Hc. destruct p; go_simpl. Qed.

Lemma transition_not_conflict cfg dir o req : transition cfg dir o req ≠ inl Conflict.
Proof. intros Hd. destruct req; unfold transition, approve in Hd; go_case. Qed.

Lemma prepare_not_conflict cfg dir st req : prepare cfg dir st req ≠ PFail Conflict.
Proof.
  intros Hp. destruct req; simpl in Hp; go_case;
    match goal with Hd : transition _ _ _ _ = inl Conflict |- _ => by apply transition_not_conflict in Hd end.
Qed.

(** A call that fails changes nothing: not the orders, not the audit
    trail, not the events (spec 7: no transition is partially applied); and
    a call whose read is fresh never loses the compare-and-swap, so it
    never fails with [Conflict]. *)
Theorem call_failure_atomic cfg dir st req e st' :
  call cfg dir st req = (Err e, st') → st' = st ∧ e ≠ Conflict.
Proof.
  intros Hc. split; [by apply commit_err in Hc|]. intros ->. revert Hc. unfold call.
  destruct (prepare cfg dir st req) as [e| |o a|id es ek o' a actor c] eqn:Hp; simpl.
  - intros [= ->]. by apply prepare_not_conflict in Hp.
  - done.
  - apply prepare_create in Hp as (Hid & _). by rewrite bool_decide_eq_true_2.
  - apply prepare_update in Hp as (o & _ & Ho & -> & -> & _). by rewrite Ho, bool_decide_eq_true_2.
Qed.

(** Inserting a well-formed order under its id, below the next free id,
    keeps the orders well formed. *)
Lemma engine_wf_insert cfg st o nid au evs :
  engine_wf cfg st → (o_id o < nid)%nat → (next_id st <= nid)%nat →
  order_wf (length (chainDefinition cfg)) o →
  engine_wf cfg {| orders := <[o_id o := o]> (orders st); audit := au; events := evs;
                   next_id := nid |}.
Proof.
  intros Hwf Hlt Hle Ho id o' Hl. simpl in *.
  rewrite lookup_insert in Hl. case_decide; simplify_eq; [done|].
  destruct (Hwf id o' Hl) as (? & ? & ?). split_and!; [done|lia|done].
Qed.

Lemma commit_update_ok st id es ek o' a actor c r st' :
  commit st (PUpdate id es ek o' a actor c) = (r, st') → r = Ok →
  orders st' !! id = Some o'.
Proof. simpl. intros Hc ->. go_case. by rewrite lookup_insert_eq. Qed.

(** A plan made from a snapshot conflicts once the order's status or step
    has moved. *)
Lemma commit_conflict st id es ek o1 o2 a2 actor2 c2 :
  orders st !! id = Some o1 → (o_status o1, o_step o1) ≠ (es, ek) →
  commit st (PUpdate id es ek o2 a2 actor2 c2) = (Err Conflict, st).
Proof.
  intros Ho Hne. simpl. rewrite Ho, bool_decide_eq_false_2; [done|].
  intros [<- <-]. by apply Hne.
Qed.

Lemma transition_approve_not_noop cfg dir o id actor :
  transition cfg dir o (RApprove id actor) ≠ inr NoOp.
Proof. unfold transition, approve. intros Hd. go_case. Qed.

Lemma approve_advances cfg dir o id actor a o' c :
  order_wf (length (chainDefinition cfg)) o →
  transition cfg dir o (RApprove id actor) = inr (Apply a o' c) →
  o_step o' = S (o_step o).
Proof.
  intros Hw Hd. destruct (transition_refines _ _ _ _ _ _ _ Hw Hd) as (Hs & _ & _).
  assert (a = AApprove) as -> by (unfold transition, approve in Hd; go_simpl).
  by inversion Hs.
Qed.

(** A successful approval is a planned update of that order. *)
Lemma approve_plan cfg dir st id actor :
  (call cfg dir st (RApprove id actor)).1 = Ok →
  ∃ o o' a c, orders st !! id = Some o ∧
    transition cfg dir o (RApprove id actor) = inr (Apply a o' c) ∧
    prepare cfg dir st (RApprove id actor) = PUpdate id (o_status o) (o_step o) o' a actor c.
Proof.
  unfold call. simpl. destruct (orders st !! id) as [o|] eqn:Ho; [|done].
  destruct (transition cfg dir o (RApprove id actor)) as [e|[|a o' c]] eqn:Hd; try done.
  - by apply transition_approve_not_noop in Hd.
  - intros _. by exists o, o', a, c.
Qed.

(** Race safety (spec 5, 8): two approvals of the same order prepared from
    the same snapshot, each of which would succeed alone, commit one after
    the other: the first succeeds, the second fails with [Conflict] and
    changes nothing, and the current step advances by exactly one. *)
Theorem concurrent_approve cfg dir st id a1 a2 :
  engine_wf cfg st →
  (call cfg dir st (RApprove id a1)).1 = Ok → (call cfg dir st (RApprove id a2)).1 = Ok →
  let r1 := commit st (prepare cfg dir st (RApprove id a1)) in
  let r2 := commit r1.2 (prepare cfg dir st (RApprove id a2)) in
  r1.1 = Ok ∧ r2 = (Err Conflict, r1.2) ∧
  ∃ o o1, orders st !! id = Some o ∧ orders r1.2 !! id = Some o1 ∧ o_step o1 = S (o_step o).
Proof.
  intros Hwf H1 H2. cbv zeta.
  destruct (approve_plan _ _ _ _ _ H1) as (o & o1 & b1 & c1 & Ho & Hd1 & ->).
  destruct (approve_plan _ _ _ _ _ H2) as (o' & o2 & b2 & c2 & Ho' & Hd2 & ->).
  rewrite Ho in Ho'. injection Ho' as <-.
  destruct (Hwf id o Ho) as (_ & _ & Hw).
  pose proof (approve_advances _ _ _ _ _ _ _ _ Hw Hd1) as Hadv.
  destruct (commit st (PUpdate id (o_status o) (o_step o) o1 b1 a1 c1)) as [r st1] eqn:Hc.
  assert (r = Ok) as ->.
  { revert Hc. simpl. rewrite Ho, bool_decide_eq_true_2 by done. by intros [= <- _]. }
  pose proof (commit_update_ok _ _ _ _ _ _ _ _ _ _ Hc eq_refl) as Ho1.
  split_and!; [done| |by exists o, o1].
  apply (commit_conflict _ _ _ _ o1); [done|]. intros [= _ Hk]. lia.
Qed.

(** Refinement: after a successful call every order that existed is
    either unchanged or has taken one step of the abstract lifecycle
    [Spec.step] (spec 4.1). *)
Theorem call_refines cfg dir st req st' id o :
  engine_wf cfg st → call cfg dir st req = (Ok, st') → orders st !! id = Some o →
  ∃ o', orders st' !! id = Some o' ∧
    (o' = o ∨ ∃ a, Spec.step (length (chainDefinition cfg)) (o_status o) (o_step o) a
                              (o_status o') (o_step o')).
Proof.
  intros Hwf Hc Ho. unfold call in Hc.
  destruct (prepare cfg dir st req) as [e| |oc actor|id' es ek o' a actor c] eqn:Hp;
    simpl in Hc; simplify_eq.
  - by exists o; auto.
  - case_bool_decide; simplify_eq/=. exists o. split; [|by left].
    rewrite lookup_insert_ne; [done|]. destruct (Hwf id o Ho) as (_ & ? & _). lia.
  - apply prepare_update in Hp as (o0 & _ & Ho0 & -> & -> & Hd & _).
    rewrite Ho0, bool_decide_eq_true_2 in Hc by done. simplify_eq/=.
    rewrite lookup_insert. case_decide as Hid; simplify_eq/=; [|by exists o; auto].
    exists o'. split; [done|right]. destruct (Hwf _ _ Ho0) as (_ & _ & Hw).
    exists a. by apply (transition_refines cfg dir o0 req a o' c).
Qed.

(** ** The audit trail *)

Definition same_key (e e' : AuditEntry) : Prop :=
  a_order e' = a_order e ∧ a_step e' = a_step e ∧ a_action e' = a_action e.

#[export] Instance same_key_dec e e' : Decision (same_key e e').
Proof. unfold same_key. apply _. Defined.

Lemma audit_append_dup e log :
  (∃ e', e' ∈ log ∧ same_key e e') → audit_append e log = log.
Proof.
  intros (e' & Hin & Hk). unfold audit_append.
  replace (existsb _ log) with true; [done|]. symmetry. apply existsb_exists.
  exists e'. split; [by apply list_elem_of_In|]. by apply bool_decide_eq_true_2.
Qed.

Lemma audit_append_fresh e log :
  ¬ (∃ e', e' ∈ log ∧ same_key e e') → audit_append e log = log ++ [e].
Proof.
  intros Hn. unfold audit_append.
  destruct (existsb _ log) eqn:Hx; [|done]. exfalso. apply Hn.
  apply existsb_exists in Hx as (e' & Hin & Hk%bool_decide_eq_true_1).
  exists e'. split; [by apply list_elem_of_In|done].
Qed.

Lemma History_app id l1 l2 : History id (l1 ++ l2) = History id l1 ++ History id l2.
Proof. apply List.filter_app. Qed.

Lemma History_elem id e log : e ∈ History id log ↔ e ∈ log ∧ a_order e = id.
Proof.
  unfold History. rewrite !list_elem_of_In, List.filter_In.
  by rewrite bool_decide_eq_true.
Qed.

Lemma History_audit_append_other id e log :
  a_order e ≠ id → History id (audit_append e log) = History id log.
Proof.
  intros Hne. unfold audit_append. destruct (existsb _ _); [done|].
  rewrite History_app. simpl. rewrite bool_decide_eq_false_2 by done. apply app_nil_r.
Qed.

Definition request_action (req : Request) : Action :=
  match req with
  | RCreate _ _ _ _ _ _ => ACreate | REdit _ _ _ => AEdit | RDelete _ _ => ADelete
  | RApprove _ _ => AApprove | RReject _ _ _ => AReject | RExecute _ _ => AExecute
  | RCancel _ _ => ACancel
  end.

Lemma transition_action cfg dir o req a o' c :
  transition cfg dir o req = inr (Apply a o' c) → a = request_action req ∧ terminal (o_status o) = false.
Proof.
  intros Hd. destruct req; unfold transition, approve in Hd; go_simpl;
    unfold review_step in *; split; try done; by destruct (o_status o).
Qed.

(** What a lifecycle step that is not a rejection does to the step and the
    status. *)
Lemma spec_step_facts n s k a s' k' :
  Spec.step n s k a s' k' → s ≠ Rejected → a ≠ AReject →
  (k <= k')%nat ∧ (a = AApprove → k < k')%nat ∧
  (a = ADelete ∨ a = ACancel ∨ a = AExecute → terminal s' = true) ∧
  (a = AEdit → s' = s ∧ k' = k) ∧ s' ≠ Rejected ∧ a ≠ ACreate.
Proof. intros Hs Hr Ha. inversion Hs; subst; naive_solver lia. Qed.

(** The history of one order in a run without rejections: its last entry
    carries the order's status; no entry lies past the current step; an
    approval entry lies before it; a delete, cancel or execute entry means the
    order is terminal; there is no rejection. *)
Definition hist_ok (o : Order) (h : list AuditEntry) : Prop :=
  (∃ e, last h = Some e ∧ a_status e = o_status o) ∧
  Forall (λ e, (a_step e <= o_step o)%nat ∧ (a_action e = AApprove → a_step e < o_step o)%nat ∧
                (a_action e = ADelete ∨ a_action e = ACancel ∨ a_action e = AExecute →
                 terminal (o_status o) = true) ∧ a_action e ≠ AReject) h.

Definition audit_ok (st : Engine) : Prop :=
  (∀ e, e ∈ audit st → is_Some (orders st !! a_order e)) ∧
  ∀ id o, orders st !! id = Some o → o_status o ≠ Rejected ∧ hist_ok o (History id (audit st)).

Lemma hist_ok_same o o' h :
  o_status o' = o_status o → o_step o' = o_step o → hist_ok o h → hist_ok o' h.
Proof. unfold hist_ok. intros -> ->. done. Qed.

(** Appending the entry of a step from a non-terminal order. *)
Lemma hist_ok_extend o o' h e :
  hist_ok o h → terminal (o_status o) = false → (o_step o <= o_step o')%nat →
  a_status e = o_status o' → (a_step e <= o_step o')%nat →
  (a_action e = AApprove → a_step e < o_step o')%nat →
  (a_action e = ADelete ∨ a_action e = ACancel ∨ a_action e = AExecute →
   terminal (o_status o') = true) → a_action e ≠ AReject →
  hist_ok o' (h ++ [e]).
Proof.
  intros [_ Hf] Ht Hle Hs He1 He2 He3 He4. split.
  - exists e. by rewrite last_app.
  - apply Forall_app. split; [|by repeat constructor].
    eapply Forall_impl; [exact Hf|]. intros e' (H1 & H2 & H3 & H4).
    split_and!; [lia|intros; specialize (H2 ltac:(done)); lia| |done].
    intros Hx. by rewrite (H3 Hx) in Ht.
Qed.

(** Every audit entry names an order, and orders live below the next id:
    so an entry for the next id does not exist yet. *)
Lemma History_next_empty cfg st :
  engine_wf cfg st → audit_ok st → History (next_id st) (audit st) = [].
Proof.
  intros Hwf [Hex _]. destruct (History _ _) as [|e h] eqn:Hh; [done|]. exfalso.
  assert (e ∈ History (next_id st) (audit st)) as He by (rewrite Hh; left).
  apply History_elem in He as [Hin Hid]. destruct (Hex e Hin) as [o Ho].
  rewrite Hid in Ho. destruct (Hwf _ _ Ho) as (_ & Hlt & _). lia.
Qed.

Lemma History_single id e :
  History id [e] = if bool_decide (a_order e = id) then [e] else [].
Proof. unfold History. simpl. by case_bool_decide. Qed.

(** ** Plans that any snapshot produces

    A plan carries what its snapshot guaranteed: a creation is a created
    order waiting on step 0 of a non-empty chain; an update is one step of
    the abstract lifecycle from the expected [(status, step)] to a
    well-formed order under the same id.  [commit] only needs this, not the
    snapshot itself, so a plan read from a stale snapshot is covered too. *)
Definition plan_ok (n : nat) (p : Plan) : Prop :=
  match p with
  | PCreate o _ => o_status o = Created ∧ o_step o = 0 ∧ 0 < n
  | PUpdate id es ek o' a _ _ =>
      Spec.step n es ek a (o_status o') (o_step o') ∧ order_wf n o' ∧ o_id o' = id
  | _ => True
  end.

Definition plan_action (p : Plan) : option Action :=
  match p with
  | PCreate _ _ => Some ACreate
  | PUpdate _ _ _ _ a _ _ => Some a
  | _ => None
  end.

Lemma spec_step_source n s k a s' k' :
  Spec.step n s k a s' k' → terminal s = false ∧ a ≠ ACreate.
Proof.
  inversion 1; subst; try done;
    match goal with Hw : Spec.waiting _ _ |- _ => inversion Hw; subst; done end.
Qed.

Lemma prepare_plan_ok cfg dir st req :
  engine_wf cfg st → plan_ok (length (chainDefinition cfg)) (prepare cfg dir st req).
Proof.
  intros Hwf. destruct (prepare cfg dir st req) eqn:Hp; simpl; try done.
  - apply prepare_create in Hp as (_ & Hs & Hk & Ha & Hne & _).
    split_and!; [done|done|]. apply (eligible_nonempty_lt cfg dir). by rewrite <- Ha.
  - apply prepare_update in Hp as (o0 & _ & Ho & -> & -> & Hd & _).
    destruct (Hwf id o0 Ho) as (Hid & _ & Hw).
    destruct (transition_refines _ _ _ _ _ _ _ Hw Hd) as (? & ? & ?). split_and!; congruence.
Qed.

Lemma prepare_action cfg dir st req a :
  plan_action (prepare cfg dir st req) = Some a → a = request_action req.
Proof.
  destruct (prepare cfg dir st req) eqn:Hp; simpl; intros; simplify_eq.
  - destruct req; simpl in Hp |- *; go_case; done.
  - apply prepare_update in Hp as (o0 & _ & _ & _ & _ & Hd & _).
    by apply transition_action in Hd as [-> _].
Qed.

(** Committing a plan of any snapshot keeps the orders well formed. *)
Lemma commit_wf cfg st p :
  engine_wf cfg st → plan_ok (length (chainDefinition cfg)) p → engine_wf cfg (commit st p).2.
Proof.
  intros Hwf Hp. destruct p as [| |o actor|id es ek o' a actor c]; simpl in *; try done.
  - destruct Hp as (Hs & Hk & Hn). case_bool_decide; [|done].
    apply engine_wf_insert; simpl; try lia; [done|]. unfold order_wf. by rewrite Hs, Hk.
  - destruct Hp as (_ & Hw' & Hid'). destruct (orders st !! id) as [o0|] eqn:Ho0; [|done].
    case_bool_decide; [|done]. simpl. destruct (Hwf id o0 Ho0) as (_ & Hlt & _).
    rewrite <- Hid'. apply engine_wf_insert; [done|lia|done|done].
Qed.

Lemma commit_create_audit_ok cfg st o actor :
  engine_wf cfg st → audit_ok st → plan_ok (length (chainDefinition cfg)) (PCreate o actor) →
  audit_ok (commit st (PCreate o actor)).2.
Proof.
  intros Hwf Hok (Hs & Hk & _). pose proof (History_next_empty _ _ Hwf Hok) as Hnil.
  simpl. case_bool_decide as Hid; [|done]. simpl.
  rewrite audit_append_fresh; last first.
  { intros (e' & He' & [Hkey _]). simpl in Hkey.
    assert (e' ∈ History (next_id st) (audit st)) as Hin
      by (apply History_elem; split; [done|congruence]).
    rewrite Hnil in Hin. by apply not_elem_of_nil in Hin. }
  destruct Hok as [Hex Hh]. split; simpl.
  - intros e [He|He%list_elem_of_singleton]%elem_of_app.
    + destruct (Hex e He) as [x Hx]. rewrite lookup_insert. case_decide; eauto.
    + subst. simpl. rewrite lookup_insert_eq. eauto.
  - intros id o'' Hl. rewrite lookup_insert in Hl. rewrite History_app, History_single.
    case_decide as Hi; simplify_eq/=.
    + rewrite bool_decide_eq_true_2 by done. rewrite Hid, Hnil. simpl.
      rewrite Hs. split; [done|]. split; [by eexists; split; [reflexivity|]|].
      repeat constructor; simpl; try lia; try done; naive_solver.
    + rewrite bool_decide_eq_false_2, app_nil_r by done. by apply Hh.
Qed.

Lemma hist_ok_entry o h e :
  hist_ok o h → e ∈ h →
  (a_step e <= o_step o)%nat ∧ (a_action e = AApprove → a_step e < o_step o)%nat ∧
  (a_action e = ADelete ∨ a_action e = ACancel ∨ a_action e = AExecute →
   terminal (o_status o) = true) ∧ a_action e ≠ AReject.
Proof. intros [_ Hf] He. by eapply Forall_forall in Hf; [|exact He]. Qed.

(** An update that is not a rejection keeps the audit trail consistent.  A
    duplicate key can only come from a second edit at the same step, which
    leaves status and step alone. *)
Lemma commit_update_audit_ok cfg st id es ek o' a actor c :
  engine_wf cfg st → audit_ok st →
  plan_ok (length (chainDefinition cfg)) (PUpdate id es ek o' a actor c) → a ≠ AReject →
  audit_ok (commit st (PUpdate id es ek o' a actor c)).2.
Proof.
  intros Hwf Hok (Hstep & _ & Hid') Hna. simpl.
  destruct (orders st !! id) as [o0|] eqn:Ho0; [|done].
  case_bool_decide as Hcas; [|done]. destruct Hcas as [<- <-]. simpl.
  destruct Hok as [Hex Hh]. destruct (Hh id o0 Ho0) as [Hnr Hho].
  destruct (spec_step_source _ _ _ _ _ _ Hstep) as [Hnt Hnc].
  destruct (spec_step_facts _ _ _ _ _ _ Hstep Hnr Hna) as (Hle & Hap & Hterm & Hed & Hnr' & _).
  set (e := {| a_order := id; a_step := o_step o0; a_actor := actor; a_action := a;
               a_status := o_status o'; a_comment := c |}).
  split.
  - intros e1 He1. simpl. rewrite lookup_insert. case_decide; [done|].
    unfold audit_append in He1. case_match; [by apply Hex|].
    apply elem_of_app in He1 as [He1|He1%list_elem_of_singleton]; [by apply Hex|].
    by subst e1.
  - intros id1 o1 Hl. simpl in Hl |- *. rewrite lookup_insert in Hl. case_decide as Hi; simplify_eq/=;
      [|split; [by eapply Hh|]; rewrite History_audit_append_other by done; by eapply Hh].
    split; [done|].
    destruct (list_exist_dec (same_key e) (audit st) _) as [Hd|Hd].
    + rewrite audit_append_dup by done.
      destruct Hd as (e' & He' & Ho & Hk & Ha).
      destruct (hist_ok_entry o0 _ e' Hho) as (_ & H2 & H3 & _); [by apply History_elem|].
      simpl in *. destruct a; try done.
      * destruct (Hed eq_refl) as [Hs Hk']. by eapply hist_ok_same.
      * rewrite H3 in Hnt by (rewrite <- Ha; auto). done.
      * specialize (H2 Ha). lia.
      * rewrite H3 in Hnt by (rewrite <- Ha; auto). done.
      * rewrite H3 in Hnt by (rewrite <- Ha; auto). done.
    + rewrite audit_append_fresh, History_app, History_single by done. simpl.
      rewrite bool_decide_eq_true_2 by done.
      eapply hist_ok_extend; [done|done|done|done|done|simpl; naive_solver lia|naive_solver|done].
Qed.
