(* ===== verification/Runs.v ===== *)
(** * Runs of the workflow engine: every interleaving of concurrent calls

    A [run] is the list of stores the engine goes through, newest first;
    each call reads a snapshot (any store of the run so far) and commits
    its plan against the newest store.  This file proves the invariants of
    runs: well-formed orders, dense ids, a consistent audit trail in runs
    without rejections, that every later store keeps the orders, work ids
    and owners of an earlier one, and that work ids stay unique.  It also
    defines sequential calls ([calls], [run_seq], [after]) used by the
    examples. *)

From S2P Require Import Prelude Workflow.

Local Open Scope nat_scope.

(** ** Runs with concurrent calls

    A run is the list of the stores the engine went through, newest first.
    Each call reads a snapshot, any store of the run so far (the one it
    started on, possibly stale), and commits its plan against the newest
    store: this covers every interleaving of concurrent calls (spec 5).
    [allowed] restricts the requests of the run. *)
Inductive run (cfg : WfConfig) (allowed : Request → Prop) : list Engine → Prop :=
| run_init : run cfg allowed [empty_engine]
| run_step st tr st0 dir req :
    run cfg allowed (st :: tr) → st0 ∈ st :: tr → allowed req →
    run cfg allowed ((commit st (prepare cfg dir st0 req)).2 :: st :: tr).

Definition any_request (req : Request) : Prop := True.
Definition no_reject (req : Request) : Prop := request_action req ≠ AReject.

Lemma run_nonempty cfg P tr : run cfg P tr → tr ≠ [].
Proof. by destruct 1. Qed.

(** A property of stores that holds at the start and that every commit of
    a plan read from a store of the run keeps holds all along the run. *)
Lemma run_ind_all cfg P (I : Engine → Prop) tr :
  I empty_engine →
  (∀ st st0 dir req, I st → I st0 → P req → I (commit st (prepare cfg dir st0 req)).2) →
  run cfg P tr → Forall I tr.
Proof.
  intros H0 Hstep. induction 1 as [|st tr st0 dir req Hr IH Hin Hreq]; [by repeat constructor|].
  constructor; [|done]. apply Hstep; [by inversion IH| |done].
  by eapply Forall_forall in IH; [|exact Hin].
Qed.

Lemma commit_plan_wf cfg dir st st0 req :
  engine_wf cfg st → engine_wf cfg st0 → engine_wf cfg (commit st (prepare cfg dir st0 req)).2.
Proof. intros Hwf Hwf0. apply commit_wf; [done|by apply prepare_plan_ok]. Qed.

Lemma commit_plan_audit_ok cfg dir st st0 req :
  engine_wf cfg st → audit_ok st → engine_wf cfg st0 → no_reject req →
  audit_ok (commit st (prepare cfg dir st0 req)).2.
Proof.
  intros Hwf Hok Hwf0 Hnr. pose proof (prepare_plan_ok cfg dir st0 req Hwf0) as Hp.
  pose proof (prepare_action cfg dir st0 req) as Ha.
  destruct (prepare cfg dir st0 req); simpl in Ha; try done.
  - by apply (commit_create_audit_ok cfg).
  - apply (commit_update_audit_ok cfg); [done..|]. intros ->. apply Hnr. symmetry. by apply Ha.
Qed.

Lemma empty_engine_wf cfg : engine_wf cfg empty_engine.
Proof. intros id o. simpl. by rewrite lookup_empty. Qed.

Lemma empty_engine_audit_ok : audit_ok empty_engine.
Proof. split; simpl; [set_solver|]. intros id o. by rewrite lookup_empty. Qed.

Lemma run_wf cfg P tr : run cfg P tr → Forall (engine_wf cfg) tr.
Proof.
  apply run_ind_all; [apply empty_engine_wf|]. intros. by apply commit_plan_wf.
Qed.

Lemma run_audit_ok cfg tr : run cfg no_reject tr → Forall audit_ok tr.
Proof.
  intros Hr. pose proof (run_wf _ _ _ Hr) as Hwf.
  cut (Forall (λ st, engine_wf cfg st ∧ audit_ok st) tr).
  { intros H. eapply Forall_impl; [exact H|]. by intros ? []. }
  revert Hr. apply run_ind_all; [split; [apply empty_engine_wf|apply empty_engine_audit_ok]|].
  intros st st0 dir req [] [] Hnr. split; [by apply commit_plan_wf|by apply commit_plan_audit_ok].
Qed.

(** Orders are never removed, ids below the next id all hold an order, and
    the audit trail only grows. *)
Definition ids_dense (st : Engine) : Prop :=
  ∀ i, (i < next_id st)%nat → is_Some (orders st !! i).

Lemma commit_orders_persist st p id :
  is_Some (orders st !! id) → is_Some (orders (commit st p).2 !! id).
Proof.
  intros Ho. destruct p as [| |o a|id' es ek o' a actor c]; simpl; try done.
  - case_bool_decide; [|done]. simpl. rewrite lookup_insert. by case_decide.
  - destruct (orders st !! id'); [|done]. case_bool_decide; [|done]. simpl.
    rewrite lookup_insert. by case_decide.
Qed.

Lemma commit_ids_dense st p : ids_dense st → ids_dense (commit st p).2.
Proof.
  intros Hd i Hi. destruct p as [| |o a|id' es ek o' a actor c]; simpl in *; try by apply Hd.
  - case_bool_decide as Hid; simpl in *; [|by apply Hd].
    rewrite lookup_insert. case_decide; [done|]. apply Hd. lia.
  - destruct (orders st !! id') eqn:Ho; [|by apply Hd]. case_bool_decide; [|by apply Hd].
    simpl in *. rewrite lookup_insert. case_decide; [done|]. by apply Hd.
Qed.

Lemma run_ids_dense cfg P tr : run cfg P tr → Forall ids_dense tr.
Proof.
  apply run_ind_all; [intros i; simpl; lia|]. intros. by apply commit_ids_dense.
Qed.

Lemma audit_append_prefix e log : ∃ l, audit_append e log = log ++ l.
Proof. unfold audit_append. case_match; [exists []; by rewrite app_nil_r|by eexists]. Qed.

Lemma commit_audit_prefix st p : ∃ l, audit (commit st p).2 = audit st ++ l.
Proof.
  destruct p as [| |o a|id' es ek o' a actor c]; simpl;
    repeat case_match; simpl; try (exists []; by rewrite app_nil_r); apply audit_append_prefix.
Qed.

(** Calls one after the other from a given store. *)
Definition calls (cfg : WfConfig) (dir : Directory) (st : Engine) (reqs : list Request) : Engine :=
  foldl (λ st req, (call cfg dir st req).2) st reqs.

Lemma calls_inv cfg dir st reqs :
  engine_wf cfg st → audit_ok st → Forall no_reject reqs →
  engine_wf cfg (calls cfg dir st reqs) ∧ audit_ok (calls cfg dir st reqs).
Proof.
  revert st. induction reqs as [|req reqs IH]; intros st Hwf Hok Hr; simpl; [done|].
  apply Forall_cons in Hr as [Hr Hrs]. apply IH; [| |done]; unfold call.
  - by apply commit_plan_wf.
  - by apply commit_plan_audit_ok.
Qed.

Lemma calls_persist cfg dir st reqs id :
  is_Some (orders st !! id) →
  is_Some (orders (calls cfg dir st reqs) !! id) ∧ ∃ l, audit (calls cfg dir st reqs) = audit st ++ l.
Proof.
  revert st. induction reqs as [|req reqs IH]; intros st Ho; simpl.
  - split; [done|]. exists []. by rewrite app_nil_r.
  - destruct (IH (call cfg dir st req).2) as [Ho' [l Hl]]; [by apply commit_orders_persist|].
    split; [done|]. destruct (commit_audit_prefix st (prepare cfg dir st req)) as [l0 Hl0].
    exists (l0 ++ l). rewrite Hl. unfold call. by rewrite Hl0, app_assoc.
Qed.

(** ** Immutable fields and unique work ids *)

Lemma transition_immutable cfg dir o req a o' c :
  transition cfg dir o req = inr (Apply a o' c) →
  o_work_id o' = o_work_id o ∧ o_owner o' = o_owner o.
Proof. intros Hd. destruct req; unfold transition, approve in Hd; go_simpl. Qed.

(** [st] comes after [s0]: no id is taken back and every order of [s0] is
    still there with its work id and owner. *)
Definition keeps (s0 st : Engine) : Prop :=
  (next_id s0 <= next_id st)%nat ∧
  ∀ id o0, orders s0 !! id = Some o0 →
    ∃ o, orders st !! id = Some o ∧ o_work_id o = o_work_id o0 ∧ o_owner o = o_owner o0.

Lemma keeps_refl st : keeps st st.
Proof. split; [lia|]. intros id o0 Ho. by exists o0. Qed.

Lemma keeps_trans s0 s1 s2 : keeps s0 s1 → keeps s1 s2 → keeps s0 s2.
Proof.
  intros [Hn1 H1] [Hn2 H2]. split; [lia|]. intros id o0 Ho.
  destruct (H1 id o0 Ho) as (o1 & Ho1 & Hw1 & Hu1).
  destruct (H2 id o1 Ho1) as (o2 & Ho2 & Hw2 & Hu2). exists o2. split_and!; congruence.
Qed.

(** Committing a plan read from an earlier store keeps the current one. *)
Lemma commit_keeps cfg dir st0 st req :
  engine_wf cfg st → keeps st0 st → keeps st (commit st (prepare cfg dir st0 req)).2.
Proof.
  intros Hwf [_ Hk]. destruct (prepare cfg dir st0 req) as [| |o a|id es ek o' a actor c] eqn:Hp;
    simpl; try apply keeps_refl.
  - case_bool_decide as Hid; [|apply keeps_refl]. split; simpl; [lia|].
    intros id o0 Ho. exists o0. rewrite lookup_insert_ne; [done|].
    destruct (Hwf id o0 Ho) as (_ & ? & _). lia.
  - apply prepare_update in Hp as (oS & _ & HoS & -> & -> & Hd & _).
    destruct (orders st !! id) as [o0|] eqn:Ho0; [|apply keeps_refl].
    case_bool_decide; [|apply keeps_refl]. split; simpl; [lia|].
    intros id' o1 Ho1. rewrite lookup_insert. case_decide; simplify_eq; [|by exists o1].
    exists o'. split; [done|]. destruct (Hk id' oS HoS) as (o2 & Ho2 & Hw & Hu).
    rewrite Ho0 in Ho2. injection Ho2 as <-. apply transition_immutable in Hd as [Hw' Hu']. split; congruence.
Qed.

Lemma run_keeps cfg P tr st : run cfg P (st :: tr) → ∀ s0, s0 ∈ st :: tr → keeps s0 st.
Proof.
  remember (st :: tr) as l eqn:El. intros Hr. revert st tr El.
  induction Hr as [|st tr st0 dir req Hr IH Hin _]; intros st' tr' El s0 Hs0; simplify_eq.
  - apply list_elem_of_singleton in Hs0 as ->. apply keeps_refl.
  - pose proof (run_wf _ _ _ Hr) as Hwf. apply Forall_inv in Hwf.
    assert (keeps st (commit st (prepare cfg dir st0 req)).2) as Hstep
      by (apply commit_keeps; [done|by apply (IH st tr)]).
    apply elem_of_cons in Hs0 as [->|Hs0]; [apply keeps_refl|].
    eapply keeps_trans; [by apply (IH st tr)|done].
Qed.

Lemma work_id_taken_false st w :
  work_id_taken st w = false → ∀ id o, orders st !! id = Some o → o_work_id o ≠ w.
Proof.
  unfold work_id_taken. intros Hw id o Ho Heq. apply not_true_iff_false in Hw. apply Hw.
  apply existsb_exists. exists (id, o). split; [|by apply bool_decide_eq_true].
  apply list_elem_of_In. by apply elem_of_map_to_list.
Qed.

Definition wid_unique (m : gmap nat Order) : Prop :=
  ∀ i j oi oj, m !! i = Some oi → m !! j = Some oj → o_work_id oi = o_work_id oj → i = j.

Lemma wid_unique_update m id o0 o' :
  m !! id = Some o0 → o_work_id o' = o_work_id o0 → wid_unique m → wid_unique (<[id:=o']> m).
Proof.
  intros Ho Hw Hu i j oi oj Hi Hj Heq.
  destruct (base.decide (i = id)) as [->|Hni], (base.decide (j = id)) as [->|Hnj]; [done|..].
  - rewrite lookup_insert_eq in Hi. rewrite lookup_insert_ne in Hj by done. injection Hi as <-.
    apply (Hu id j o0 oj Ho Hj). congruence.
  - rewrite lookup_insert_eq in Hj. rewrite lookup_insert_ne in Hi by done. injection Hj as <-.
    apply (Hu i id oi o0 Hi Ho). congruence.
  - rewrite lookup_insert_ne in Hi, Hj by done. by apply (Hu i j oi oj).
Qed.

Lemma wid_unique_fresh m id o :
  m !! id = None → (∀ j oj, m !! j = Some oj → o_work_id oj ≠ o_work_id o) →
  wid_unique m → wid_unique (<[id:=o]> m).
Proof.
  intros Hn Hf Hu i j oi oj Hi Hj Heq.
  destruct (base.decide (i = id)) as [->|Hni], (base.decide (j = id)) as [->|Hnj]; [done|..].
  - rewrite lookup_insert_eq in Hi. rewrite lookup_insert_ne in Hj by done. injection Hi as <-.
    by destruct (Hf j oj Hj).
  - rewrite lookup_insert_eq in Hj. rewrite lookup_insert_ne in Hi by done. injection Hj as <-.
    by destruct (Hf i oi Hi).
  - rewrite lookup_insert_ne in Hi, Hj by done. by apply (Hu i j oi oj).
Qed.

(** Committing against [st] a plan read from an earlier store [st0]: a
    creation commits only if no order was created since, and the read saw
    no order with its work id. *)
Lemma commit_wid_unique cfg dir st0 st req :
  engine_wf cfg st → ids_dense st0 → keeps st0 st → wid_unique (orders st) →
  wid_unique (orders (commit st (prepare cfg dir st0 req)).2).
Proof.
  intros Hwf Hd [_ Hk] Hu. destruct (prepare cfg dir st0 req) as [| |o a|id es ek o' a actor c] eqn:Hp;
    simpl; try done.
  - apply prepare_create in Hp as (Hid0 & _ & _ & _ & _ & _ & Hw).
    case_bool_decide as Hid; [|done]. simpl. rewrite Hid. apply wid_unique_fresh; [|intros j oj Hj|done].
    + destruct (orders st !! next_id st) as [x|] eqn:Hx; [|done].
      destruct (Hwf _ _ Hx) as (_ & ? & _). lia.
    + destruct (Hwf _ _ Hj) as (_ & Hlt & _). destruct (Hd j) as [oj0 Hj0]; [lia|].
      destruct (Hk j oj0 Hj0) as (oj' & Hj' & Hw' & _). rewrite Hj in Hj'. injection Hj' as <-.
      rewrite Hw'. by apply (work_id_taken_false st0 _ Hw j).
  - apply prepare_update in Hp as (oS & _ & HoS & -> & -> & Hd' & _).
    destruct (orders st !! id) as [o0|] eqn:Ho0; [|done]. case_bool_decide; [|done]. simpl.
    apply (wid_unique_update _ _ o0); [done| |done].
    destruct (Hk id oS HoS) as (o2 & Ho2 & Hw & _). rewrite Ho0 in Ho2. injection Ho2 as <-.
    apply transition_immutable in Hd' as [-> _]. done.
Qed.

Lemma run_wid_unique cfg P tr : run cfg P tr → Forall (λ st, wid_unique (orders st)) tr.
Proof.
  induction 1 as [|st tr st0 dir req Hr IH Hin _].
  - repeat constructor. intros i j oi oj Hi. simpl in Hi. by rewrite lookup_empty in Hi.
  - constructor; [|done]. pose proof (run_wf _ _ _ Hr) as Hwf. pose proof (run_ids_dense _ _ _ Hr) as Hd.
    apply (commit_wid_unique cfg); [by apply Forall_inv in Hwf| |by apply (run_keeps _ _ _ _ Hr)|by apply Forall_inv in IH].
    by eapply Forall_forall in Hd; [|exact Hin].
Qed.

(** Calls made one after the other, each on a fresh read. *)
Fixpoint run_seq (cfg : WfConfig) (dir : Directory) (tr : list Engine) (reqs : list Request)
    : list Engine :=
  match reqs with
  | [] => tr
  | req :: reqs' => run_seq cfg dir ((call cfg dir (default empty_engine (head tr)) req).2 :: tr) reqs'
  end.

Lemma run_seq_run cfg dir P tr reqs :
  run cfg P tr → Forall P reqs → run cfg P (run_seq cfg dir tr reqs).
Proof.
  revert tr. induction reqs as [|req reqs IH]; intros tr Hr Hp; simpl; [done|].
  apply Forall_cons in Hp as [Hp Hps]. apply IH; [|done].
  destruct tr as [|st tr]; [by apply run_nonempty in Hr|]. simpl.
  apply run_step; [done|left|done].
Qed.

(** The newest store of a sequential run from the empty engine. *)
Definition after (cfg : WfConfig) (dir : Directory) (reqs : list Request) : Engine :=
  default empty_engine (head (run_seq cfg dir [empty_engine] reqs)).

Lemma after_run cfg dir P reqs :
  Forall P reqs → ∃ tr, run cfg P (after cfg dir reqs :: tr).
Proof.
  intros Hp. pose proof (run_seq_run cfg dir P [empty_engine] reqs (run_init _ _) Hp) as Hr.
  unfold after. destruct (run_seq _ _ _ _) as [|st tr]; [by apply run_nonempty in Hr|].
  by exists tr.
Qed.

Lemma after_wf cfg dir reqs : engine_wf cfg (after cfg dir reqs).
Proof.
  destruct (after_run cfg dir any_request reqs) as [tr Hr]; [by apply Forall_forall|].
  by apply run_wf, Forall_inv in Hr.
Qed.
