(* ===== verification/Engine.v ===== *)
(** * Properties of the workflow engine and its examples

    Theorems about single calls and runs of [Workflow]: audit consistency,
    the lost second rejection, cancel idempotence, forbidden edits, frozen
    terminal orders, when an approval succeeds, progress of the approval
    chain, the resolver's specification, the scenario of spec 8, and the
    lost update of two concurrent edits; with the sample directory and
    configurations the witnesses run on. *)

From S2P Require Import Prelude Workflow Runs.

Local Open Scope nat_scope.

(** ** Properties of the engine *)

(** Audit consistency (spec 3, 8), under every interleaving of
    concurrent calls that contains no rejection: for each order, the last
    entry of its History carries the order's current status, and no entry
    of its History lies past the order's current step. *)
Theorem audit_consistent cfg tr st id o :
  run cfg no_reject (st :: tr) → orders st !! id = Some o →
  (∃ e, last (History id (audit st)) = Some e ∧ a_status e = o_status o) ∧
  ∀ e, e ∈ History id (audit st) → (a_step e <= o_step o)%nat.
Proof.
  intros Hr Ho. apply run_audit_ok, Forall_inv in Hr as [_ Hh].
  destruct (Hh id o Ho) as [_ Hok]. split; [apply Hok|].
  intros e He. by apply (hist_ok_entry o _ e Hok).
Qed.

(** The directory of the examples: [bob] holds the "dba" label, [dave] the
    "lead" label, [root] is an admin, [alice] and [carol] hold nothing. *)
Definition sample_dir : Directory :=
  {| users := [{| acc_name := "alice"; acc_role := Guest; acc_department := "dev" |};
               {| acc_name := "bob"; acc_role := Dba; acc_department := "ops" |};
               {| acc_name := "carol"; acc_role := Guest; acc_department := "dev" |};
               {| acc_name := "dave"; acc_role := Dba; acc_department := "ops" |};
               {| acc_name := "root"; acc_role := Admin; acc_department := "ops" |}];
     GrantsFor := λ u, if bool_decide (u = "bob") then ["dba"]
                       else if bool_decide (u = "dave") then ["lead"] else [] |}.

Definition single_step : WfConfig := {| multiApprover := false; chainDefinition := ["dba"] |}.
Definition two_steps : WfConfig := {| multiApprover := false; chainDefinition := ["dba"; "lead"] |}.

Definition create_W1 : Request := RCreate "alice" "W1" "select 1" "s1" "d1" Execution.

Lemma audit_consistent_witness :
  run single_step no_reject
    [after single_step sample_dir [create_W1; RApprove 0 "bob"];
     after single_step sample_dir [create_W1]; empty_engine] ∧
  ∃ o, orders (after single_step sample_dir [create_W1; RApprove 0 "bob"]) !! 0 = Some o ∧
       (∃ e, last (History 0 (audit (after single_step sample_dir [create_W1; RApprove 0 "bob"])))
               = Some e ∧ a_status e = o_status o).
Proof.
  assert (run single_step no_reject
    [after single_step sample_dir [create_W1; RApprove 0 "bob"];
     after single_step sample_dir [create_W1]; empty_engine]) as Hr.
  { apply (run_seq_run single_step sample_dir no_reject [empty_engine] [create_W1; RApprove 0 "bob"]).
    - apply run_init.
    - repeat constructor; unfold no_reject; simpl; done. }
  split; [exact Hr|].
  destruct (orders (after single_step sample_dir [create_W1; RApprove 0 "bob"]) !! 0)
    as [o|] eqn:Ho; [|vm_compute in Ho; discriminate].
  exists o. split; [reflexivity|]. exact (proj1 (audit_consistent _ _ _ 0 o Hr Ho)).
Defined.

(** The audit trail loses a second rejection (spec 3 and 4.3 disagree):
    create, reject, edit back to [Created], reject again.  The second
    rejection has the key [(order, step 0, reject)] of the first, so the
    idempotent append drops it: the order is [Rejected] while the last
    entry of its History says [Created]. *)
Theorem audit_loses_second_reject :
  let reqs := [create_W1; RReject 0 "bob" "no"; REdit 0 "alice" "select 2";
               RReject 0 "bob" "still no"] in
  (∃ tr, run single_step any_request (after single_step sample_dir reqs :: tr)) ∧
  (∃ o, orders (after single_step sample_dir reqs) !! 0 = Some o ∧ o_status o = Rejected) ∧
  (∃ e, last (History 0 (audit (after single_step sample_dir reqs))) = Some e ∧
        a_status e = Created) ∧
  length (History 0 (audit (after single_step sample_dir reqs))) = 3%nat.
Proof.
  cbv zeta. split; [apply after_run; by repeat constructor|].
  split; [eexists; split; vm_compute; reflexivity|].
  split; [eexists; split; vm_compute; reflexivity|]. vm_compute. reflexivity.
Qed.

(** An order whose status is [Cancelled] or [AllCancelled]: a cancel is a
    no-op on it. *)
Lemma call_cancel_noop cfg dir st id u o :
  orders st !! id = Some o → o_status o = Cancelled ∨ o_status o = AllCancelled →
  call cfg dir st (RCancel id u) = (Ok, st).
Proof.
  intros Ho Hs. unfold call, prepare. simpl. rewrite Ho. unfold transition.
  by destruct Hs as [->| ->].
Qed.

(** Cancel is idempotent (spec 4.1, 8): once a cancel has succeeded, a
    second cancel of the same order, by the same or any other caller,
    succeeds and changes nothing: no second audit entry, no second event. *)
Theorem cancel_idempotent cfg dir st id u u' st1 :
  call cfg dir st (RCancel id u) = (Ok, st1) → call cfg dir st1 (RCancel id u') = (Ok, st1).
Proof.
  intros Hc. unfold call, prepare in Hc. simpl in Hc.
  destruct (orders st !! id) as [o|] eqn:Ho; [|done].
  destruct (transition cfg dir o (RCancel id u)) as [e|[|a o' c]] eqn:Hd; simplify_eq/=.
  - apply (call_cancel_noop _ _ _ _ _ o); [done|].
    unfold transition in Hd. destruct (o_status o); go_simpl; auto.
  - revert Hc. simpl. rewrite Ho, bool_decide_eq_true_2 by done. intros [= <-].
    apply (call_cancel_noop _ _ _ _ _ o'); [simpl; apply lookup_insert_eq|].
    unfold transition in Hd. destruct (o_status o); go_simpl; auto.
Qed.

Lemma cancel_idempotent_witness :
  call single_step sample_dir (after single_step sample_dir [create_W1]) (RCancel 0 "alice") =
    (Ok, after single_step sample_dir [create_W1; RCancel 0 "alice"]) ∧
  call single_step sample_dir (after single_step sample_dir [create_W1; RCancel 0 "alice"])
    (RCancel 0 "root") = (Ok, after single_step sample_dir [create_W1; RCancel 0 "alice"]).
Proof.
  assert (call single_step sample_dir (after single_step sample_dir [create_W1]) (RCancel 0 "alice") =
    (Ok, after single_step sample_dir [create_W1; RCancel 0 "alice"])) as H by (vm_compute; reflexivity).
  split; [exact H|exact (cancel_idempotent _ _ _ _ _ _ _ H)].
Defined.

(** An edit by a caller who is neither the owner nor an admin fails with
    [Forbidden] and changes nothing: no status, text or step change, no
    audit entry, no event (spec 8, the [carol] scenario). *)
Theorem edit_forbidden cfg dir st id u text o :
  orders st !! id = Some o → u ≠ o_owner o → is_admin dir u = false →
  call cfg dir st (REdit id u text) = (Err Forbidden, st).
Proof.
  intros Ho Hu Ha. unfold call, prepare. simpl. rewrite Ho. unfold transition, may_manage.
  by rewrite bool_decide_eq_false_2, Ha.
Qed.

Lemma edit_forbidden_witness :
  let st := after single_step sample_dir [create_W1] in
  (∃ o, orders st !! 0 = Some o ∧ "carol" ≠ o_owner o) ∧ is_admin sample_dir "carol" = false ∧
  call single_step sample_dir st (REdit 0 "carol" "drop table t") = (Err Forbidden, st).
Proof.
  cbv zeta.
  destruct (orders (after single_step sample_dir [create_W1]) !! 0) as [o|] eqn:Ho;
    [|vm_compute in Ho; discriminate].
  assert ("carol" ≠ o_owner o) as Hu by (vm_compute in Ho; injection Ho as <-; simpl; done).
  assert (is_admin sample_dir "carol" = false) as Ha by (vm_compute; reflexivity).
  split_and!; [by exists o|exact Ha|exact (edit_forbidden _ _ _ _ _ _ o Ho Hu Ha)].
Defined.

(** Terminal orders are frozen (spec 3), also under concurrency: whatever
    snapshot a call read, committing it against a store where the order is
    ended, cancelled or deleted leaves that order as it is. *)
Theorem terminal_frozen cfg dir st st0 req id o :
  engine_wf cfg st → engine_wf cfg st0 → orders st !! id = Some o → terminal (o_status o) = true →
  orders (commit st (prepare cfg dir st0 req)).2 !! id = Some o.
Proof.
  intros Hwf Hwf0 Ho Ht. pose proof (prepare_plan_ok cfg dir st0 req Hwf0) as Hp.
  destruct (prepare cfg dir st0 req) as [| |oc a|id' es ek o' a actor c]; simpl in *; try done.
  - case_bool_decide; [|done]. simpl. rewrite lookup_insert_ne; [done|].
    destruct (Hwf id o Ho) as (_ & ? & _). lia.
  - destruct Hp as (Hs & _ & _). destruct (orders st !! id') as [o0|] eqn:Ho0; [|done].
    case_bool_decide as Hc; [|done]. simpl. rewrite lookup_insert_ne; [done|].
    intros ->. destruct Hc as [Hc _]. simplify_eq.
    destruct (spec_step_source _ _ _ _ _ _ Hs) as [Hnt _]. by rewrite Ht in Hnt.
Qed.

Lemma terminal_frozen_witness :
  let st := after single_step sample_dir [create_W1; RCancel 0 "alice"] in
  engine_wf single_step st ∧ engine_wf single_step (after single_step sample_dir [create_W1]) ∧
  ∃ o, orders st !! 0 = Some o ∧ terminal (o_status o) = true ∧
    orders (commit st (prepare single_step sample_dir (after single_step sample_dir [create_W1])
                         (RApprove 0 "bob"))).2 !! 0 = Some o.
Proof.
  cbv zeta.
  pose proof (after_wf single_step sample_dir) as Hwf.
  destruct (orders (after single_step sample_dir [create_W1; RCancel 0 "alice"]) !! 0) as [o|] eqn:Ho;
    [|vm_compute in Ho; discriminate].
  assert (terminal (o_status o) = true) as Ht by (vm_compute in Ho; injection Ho as <-; reflexivity).
  split_and!; [apply Hwf|apply Hwf|]. exists o. split_and!; [done|done|].
  exact (terminal_frozen _ _ _ _ _ _ _ (Hwf _) (Hwf _) Ho Ht).
Defined.

(** A call on an existing order: [transition] on the current order, then the
    commit, whose compare-and-swap succeeds on a fresh read. *)
Lemma call_existing cfg dir st req id o :
  request_id req = Some id → orders st !! id = Some o →
  call cfg dir st req =
    match transition cfg dir o req with
    | inl e => (Err e, st)
    | inr NoOp => (Ok, st)
    | inr (Apply a o' c) =>
        (Ok, {| orders := <[id := o']> (orders st);
                audit := audit_append {| a_order := id; a_step := o_step o;
                                         a_actor := request_actor req; a_action := a;
                                         a_status := o_status o'; a_comment := c |} (audit st);
                events := events st ++ [{| ev_action := a; ev_order := id;
                                           ev_work_id := o_work_id o'; ev_actor := request_actor req;
                                           ev_owner := o_owner o'; ev_status := o_status o';
                                           ev_next := o_assigned o' |}];
                next_id := next_id st |})
    end.
Proof.
  intros Hid Ho. unfold call.
  destruct req; simpl in Hid; simplify_eq; unfold prepare; simpl; rewrite Ho;
    destruct (transition _ _ _ _) as [e|[|a o' c]]; simpl; try done;
    rewrite Ho, bool_decide_eq_true_2 by done; done.
Qed.

(** A successful approval in a store whose audit is consistent adds an
    approval entry by its actor to the order's history. *)
Lemma approve_appends cfg dir st id u st1 :
  engine_wf cfg st → audit_ok st → call cfg dir st (RApprove id u) = (Ok, st1) →
  ∃ e, e ∈ History id (audit st1) ∧ a_actor e = u ∧ a_action e = AApprove.
Proof.
  intros Hwf [_ Hh] Hc. destruct (orders st !! id) as [o|] eqn:Ho;
    [|by unfold call, prepare in Hc; simpl in Hc; rewrite Ho in Hc].
  rewrite (call_existing _ _ _ _ id o) in Hc by done.
  destruct (transition cfg dir o (RApprove id u)) as [?|[|a o' c]] eqn:Hd; try done;
    [by apply transition_approve_not_noop in Hd|].
  apply transition_action in Hd as [-> _]. injection Hc as <-. simpl.
  set (e := {| a_order := id; a_step := o_step o; a_actor := u; a_action := AApprove;
               a_status := o_status o'; a_comment := c |}).
  exists e. rewrite audit_append_fresh; last first.
  { intros (e' & He' & Hord & Hst & Hact). destruct (Hh id o Ho) as [_ Hho].
    destruct (hist_ok_entry o _ e' Hho) as (_ & H2 & _); [by apply History_elem|].
    simpl in *. specialize (H2 Hact). lia. }
  split; [|done]. apply History_elem. split; [set_solver|done].
Qed.

Lemma approve_waiting cfg o k :
  order_wf (length (chainDefinition cfg)) o → review_step o = Some k → k = o_step o.
Proof. intros Hw Hr. by destruct (review_step_wf _ _ _ Hw Hr) as (_ & -> & _). Qed.

(** When an approval succeeds (spec 4.1): the order waited on its
    current step [k] (created or reviewing), the actor is eligible for step
    [k], and [k] is not a step past the chain; the call succeeds exactly
    then. *)
Theorem approve_ok_iff cfg dir st id u o :
  engine_wf cfg st → orders st !! id = Some o →
  (call cfg dir st (RApprove id u)).1 = Ok ↔
  review_step o = Some (o_step o) ∧ u ∈ eligible cfg dir (o_step o) ∧
  (S (o_step o) < length (chainDefinition cfg) → eligible cfg dir (S (o_step o)) ≠ []).
Proof.
  intros Hwf Ho. destruct (Hwf id o Ho) as (_ & _ & Hw).
  rewrite (call_existing _ _ _ _ id o); [|done|done]. unfold transition, approve.
  destruct (review_step o) as [k|] eqn:Hr; [|naive_solver].
  pose proof (approve_waiting _ _ _ Hw Hr) as <-.
  destruct (eligible cfg dir k) as [|x el] eqn:He; [set_solver|].
  case_bool_decide as Hu; [naive_solver|].
  case_bool_decide as Hn; simpl.
  - split; [|done]. intros _. split_and!; [done|done|lia].
  - destruct (eligible cfg dir (S k)) eqn:He'; simpl; naive_solver lia.
Qed.

Lemma approve_ok_iff_witness :
  let st := after two_steps sample_dir [create_W1] in
  ∃ o, orders st !! 0 = Some o ∧
  ((call two_steps sample_dir st (RApprove 0 "bob")).1 = Ok ↔
   review_step o = Some (o_step o) ∧ "bob" ∈ eligible two_steps sample_dir (o_step o) ∧
   (S (o_step o) < length (chainDefinition two_steps) →
    eligible two_steps sample_dir (S (o_step o)) ≠ [])).
Proof.
  cbv zeta. destruct (orders (after two_steps sample_dir [create_W1]) !! 0) as [o|] eqn:Ho;
    [|vm_compute in Ho; discriminate].
  exists o. split; [done|]. exact (approve_ok_iff _ _ _ _ _ _ (after_wf _ _ _) Ho).
Defined.

(** An approval by an eligible actor of an order waiting on its step [k]
    moves it to step [k+1]: fully approved past the last step, else
    reviewing the next step, assigned to that step's eligible actors. *)
Lemma approve_step cfg dir st id u o :
  orders st !! id = Some o → review_step o = Some (o_step o) → u ∈ eligible cfg dir (o_step o) →
  (S (o_step o) < length (chainDefinition cfg) → eligible cfg dir (S (o_step o)) ≠ []) →
  ∃ o', orders (call cfg dir st (RApprove id u)).2 !! id = Some o' ∧ o_step o' = S (o_step o) ∧
    o_text o' = o_text o ∧ o_work_id o' = o_work_id o ∧ o_id o' = o_id o ∧
    ((length (chainDefinition cfg) <= S (o_step o) ∧ o_status o' = AllEnded) ∨
     (S (o_step o) < length (chainDefinition cfg) ∧ o_status o' = Reviewing (S (o_step o)))).
Proof.
  intros Ho Hr Hu Hn. rewrite (call_existing _ _ _ _ id o); [|done|done]. unfold transition, approve.
  rewrite Hr. destruct (eligible cfg dir (o_step o)) eqn:He; [set_solver|].
  rewrite bool_decide_eq_false_2 by set_solver. case_bool_decide as Hl.
  - eexists. simpl. rewrite lookup_insert_eq. split_and!; [done..|]. by left.
  - destruct (eligible cfg dir (S (o_step o))) eqn:He'; [exfalso; apply Hn; [lia|done]|].
    eexists. simpl. rewrite lookup_insert_eq. split_and!; [done..|]. right. split; [lia|done].
Qed.

(** Approvals of one order, one after the other, by the given actors. *)
Definition approve_all (cfg : WfConfig) (dir : Directory) (st : Engine) (id : nat)
    (actors : list string) : Engine :=
  foldl (λ st a, (call cfg dir st (RApprove id a)).2) st actors.

Lemma approve_all_from cfg dir actors : ∀ st id o,
  engine_wf cfg st → orders st !! id = Some o → review_step o = Some (o_step o) →
  length actors = length (chainDefinition cfg) - o_step o →
  (∀ j a, actors !! j = Some a → a ∈ eligible cfg dir (o_step o + j)) →
  ∃ o', orders (approve_all cfg dir st id actors) !! id = Some o' ∧ o_status o' = AllEnded ∧
        o_step o' = length (chainDefinition cfg) ∧ o_text o' = o_text o ∧
        o_work_id o' = o_work_id o.
Proof.
  induction actors as [|a actors IH]; intros st id o Hwf Ho Hr Hlen Hel.
  - destruct (Hwf id o Ho) as (_ & _ & Hw). destruct (review_step_wf _ _ _ Hw Hr) as (_ & _ & Hlt).
    simpl in Hlen. lia.
  - assert (a ∈ eligible cfg dir (o_step o)) as Ha by (rewrite <- (Nat.add_0_r (o_step o)); by apply Hel).
    destruct (approve_step cfg dir st id a o) as (o' & Ho' & Hk & Ht & Hw' & _ & Hs); [done..| |].
    { intros Hlt. destruct actors as [|b actors]; [simpl in Hlen; lia|].
      specialize (Hel 1 b eq_refl). rewrite Nat.add_1_r in Hel. intros He. rewrite He in Hel. by apply not_elem_of_nil in Hel. }
    simpl. destruct Hs as [[Hle Hs]|[Hlt Hs]].
    + destruct actors; [|simpl in Hlen; lia]. exists o'. simpl in *. split_and!; [done|done|lia|done|done].
    + destruct (IH (call cfg dir st (RApprove id a)).2 id o') as (o'' & Ho'' & Hs'' & Hk'' & Ht'' & Hw''); [|done|..].
      * unfold call. by apply commit_plan_wf.
      * unfold review_step. by rewrite Hs, Hk.
      * simpl in Hlen. lia.
      * intros j b Hj. rewrite Hk. replace (S (o_step o) + j) with (o_step o + S j) by lia. by apply Hel.
      * exists o''. split_and!; [done|done|done|congruence|congruence].
Qed.

(** Progress of the approval chain (spec 4.1, 4.2): a created order that
    receives, one after the other, an approval from an eligible actor of
    each step of the chain ends fully approved ([AllEnded]) with its
    current step at the chain's length, its text and work id unchanged. *)
Theorem approvals_complete cfg dir st id o actors :
  engine_wf cfg st → orders st !! id = Some o → o_status o = Created →
  length actors = length (chainDefinition cfg) →
  (∀ k a, actors !! k = Some a → a ∈ eligible cfg dir k) →
  ∃ o', orders (approve_all cfg dir st id actors) !! id = Some o' ∧ o_status o' = AllEnded ∧
        o_step o' = length (chainDefinition cfg) ∧ o_text o' = o_text o ∧
        o_work_id o' = o_work_id o.
Proof.
  intros Hwf Ho Hs Hlen Hel. destruct (Hwf id o Ho) as (_ & _ & Hw).
  unfold order_wf in Hw. rewrite Hs in Hw. destruct Hw as [Hk _].
  apply approve_all_from; [done|done|unfold review_step; by rewrite Hs, Hk|lia|].
  rewrite Hk. done.
Qed.

Lemma approvals_complete_witness :
  let st := after two_steps sample_dir [create_W1] in
  engine_wf two_steps st ∧
  (∃ o, orders st !! 0 = Some o ∧ o_status o = Created) ∧
  length ["bob"; "dave"] = length (chainDefinition two_steps) ∧
  (∀ k a, ["bob"; "dave"] !! k = Some a → a ∈ eligible two_steps sample_dir k) ∧
  ∃ o, orders st !! 0 = Some o ∧ ∃ o', orders (approve_all two_steps sample_dir st 0 ["bob"; "dave"]) !! 0 = Some o' ∧
    o_status o' = AllEnded.
Proof.
  cbv zeta. pose proof (after_wf two_steps sample_dir [create_W1]) as Hwf.
  destruct (orders (after two_steps sample_dir [create_W1]) !! 0) as [o|] eqn:Ho;
    [|vm_compute in Ho; discriminate].
  assert (o_status o = Created) as Hs by (vm_compute in Ho; injection Ho as <-; reflexivity).
  assert (∀ k a, ["bob"; "dave"] !! k = Some a → a ∈ eligible two_steps sample_dir k) as Hel.
  { intros [|[|k]] a Ha; simpl in Ha; simplify_eq; vm_compute; constructor. }
  split_and!; [done|by exists o|done|done|]. exists o. split; [done|].
  destruct (approvals_complete _ _ _ _ _ ["bob"; "dave"] Hwf Ho Hs eq_refl Hel) as (o' & ? & ? & _).
  by exists o'.
Defined.

(** The AssignmentResolver (spec 4.2): the eligible actors of step [k]
    are exactly the registered accounts whose grants hold the scope label
    the chain requires at step [k]; a step past the chain has none. *)
Theorem eligible_spec cfg dir k u :
  u ∈ eligible cfg dir k ↔
  ∃ label a, chainDefinition cfg !! k = Some label ∧ a ∈ users dir ∧ acc_name a = u ∧
             label ∈ GrantsFor dir u.
Proof.
  unfold eligible. destruct (chainDefinition cfg !! k) as [label|]; [|set_solver].
  rewrite list_elem_of_fmap. split.
  - intros (a & -> & Ha). apply list_elem_of_In, List.filter_In in Ha as [Ha Hg].
    apply bool_decide_eq_true in Hg. exists label, a. split_and!; [done|by apply list_elem_of_In|done|done].
  - intros (l & a & Hl & Ha & <- & Hg). injection Hl as <-. exists a. split; [done|].
    apply list_elem_of_In, List.filter_In. split; [by apply list_elem_of_In|by apply bool_decide_eq_true].
Qed.

(** The scenario of spec 8: [alice] creates [W1] for [s1]/[d1], which is
    [Created] with step 0 resolved to [{bob}]; [bob]'s approval makes it
    [AllEnded] on a single-step chain, and [Reviewing 1] assigned to the
    next step's actors on a two-step chain; a second approval by [bob] of
    the [AllEnded] order fails with [InvalidTransition]. *)
Theorem spec_scenario_W1 :
  let st1 cfg := after cfg sample_dir [create_W1] in
  let st2 cfg := after cfg sample_dir [create_W1; RApprove 0 "bob"] in
  (o_status <$> orders (st1 single_step) !! 0) = Some Created ∧
  (o_status <$> orders (st1 two_steps) !! 0) = Some Created ∧
  eligible single_step sample_dir 0 = ["bob"] ∧ eligible two_steps sample_dir 0 = ["bob"] ∧
  (o_status <$> orders (st2 single_step) !! 0) = Some AllEnded ∧
  (call single_step sample_dir (st2 single_step) (RApprove 0 "bob")).1 = Err InvalidTransition ∧
  (o_status <$> orders (st2 two_steps) !! 0) = Some (Reviewing 1) ∧
  (o_assigned <$> orders (st2 two_steps) !! 0) = Some (eligible two_steps sample_dir 1) ∧
  eligible two_steps sample_dir 1 = ["dave"].
Proof.
  cbv zeta. split_and!; vm_compute; reflexivity.
Qed.

(** In every run, under any interleaving of concurrent calls and with
    any request, every order is well formed: it is stored under its id,
    below the next free id, and its status and current step agree (a
    created order waits on step 0, a reviewed one on a step inside the
    chain; an approved, executed or approved-then-cancelled one has passed
    the whole chain). *)
Theorem run_orders_wf cfg P tr st id o :
  run cfg P (st :: tr) → orders st !! id = Some o →
  o_id o = id ∧ (id < next_id st)%nat ∧ order_wf (length (chainDefinition cfg)) o.
Proof. intros Hr. apply run_wf, Forall_inv in Hr. apply Hr. Qed.

(** ** Witnesses *)

Lemma run_orders_wf_witness :
  let reqs := [create_W1; RReject 0 "bob" "no"; REdit 0 "alice" "select 2"; RApprove 0 "bob"] in
  ∃ tr o, run two_steps any_request (after two_steps sample_dir reqs :: tr) ∧
    orders (after two_steps sample_dir reqs) !! 0 = Some o ∧ order_wf 2 o.
Proof.
  cbv zeta.
  destruct (after_run two_steps sample_dir any_request
    [create_W1; RReject 0 "bob" "no"; REdit 0 "alice" "select 2"; RApprove 0 "bob"]) as [tr Hr];
    [by repeat constructor|].
  destruct (orders (after two_steps sample_dir
    [create_W1; RReject 0 "bob" "no"; REdit 0 "alice" "select 2"; RApprove 0 "bob"]) !! 0)
    as [o|] eqn:Ho; [|vm_compute in Ho; discriminate].
  exists tr, o. split_and!; [done|done|]. exact (proj2 (proj2 (run_orders_wf _ _ _ _ _ _ Hr Ho))).
Defined.

Lemma call_failure_atomic_witness :
  let st := after single_step sample_dir [create_W1] in
  call single_step sample_dir st (RApprove 0 "carol") = (Err NotEligible, st) ∧
  st = st ∧ NotEligible ≠ Conflict.
Proof.
  cbv zeta.
  assert (call single_step sample_dir (after single_step sample_dir [create_W1]) (RApprove 0 "carol") =
          (Err NotEligible, after single_step sample_dir [create_W1])) as H by (vm_compute; reflexivity).
  split; [exact H|exact (call_failure_atomic _ _ _ _ _ _ H)].
Defined.

Lemma concurrent_approve_witness :
  let st := after two_steps sample_dir [create_W1] in
  engine_wf two_steps st ∧
  (call two_steps sample_dir st (RApprove 0 "bob")).1 = Ok ∧
  let r1 := commit st (prepare two_steps sample_dir st (RApprove 0 "bob")) in
  r1.1 = Ok ∧ commit r1.2 (prepare two_steps sample_dir st (RApprove 0 "bob")) = (Err Conflict, r1.2).
Proof.
  cbv zeta. pose proof (after_wf two_steps sample_dir [create_W1]) as Hwf.
  assert ((call two_steps sample_dir (after two_steps sample_dir [create_W1]) (RApprove 0 "bob")).1 = Ok)
    as Hok by (vm_compute; reflexivity).
  destruct (concurrent_approve _ _ _ _ _ _ Hwf Hok Hok) as (H1 & H2 & _).
  split_and!; [exact Hwf|exact Hok|exact H1|exact H2].
Defined.

Lemma call_refines_witness :
  let st := after two_steps sample_dir [create_W1] in
  engine_wf two_steps st ∧
  call two_steps sample_dir st (RApprove 0 "bob") =
    (Ok, after two_steps sample_dir [create_W1; RApprove 0 "bob"]) ∧
  ∃ o o', orders st !! 0 = Some o ∧
    orders (after two_steps sample_dir [create_W1; RApprove 0 "bob"]) !! 0 = Some o' ∧
    (o' = o ∨ ∃ a, Spec.step 2 (o_status o) (o_step o) a (o_status o') (o_step o')).
Proof.
  cbv zeta. pose proof (after_wf two_steps sample_dir [create_W1]) as Hwf.
  assert (call two_steps sample_dir (after two_steps sample_dir [create_W1]) (RApprove 0 "bob") =
    (Ok, after two_steps sample_dir [create_W1; RApprove 0 "bob"])) as Hc by (vm_compute; reflexivity).
  destruct (orders (after two_steps sample_dir [create_W1]) !! 0) as [o|] eqn:Ho;
    [|vm_compute in Ho; discriminate].
  destruct (call_refines _ _ _ _ _ _ _ Hwf Hc Ho) as (o' & Ho' & Hs).
  split_and!; [exact Hwf|exact Hc|]. by exists o, o'.
Defined.

(** Two concurrent edits of the same order, both prepared from the same
    snapshot, both commit: an edit changes neither status nor step, so the
    compare-and-swap on [(status, current_step)] does not see the first
    one.  The second overwrites the first one's text, and the audit trail,
    keyed by [(order, step, action)], records only the first edit (spec 5
    says no two transitions may apply from one snapshot). *)
Theorem concurrent_edits_lost_update :
  let st := after single_step sample_dir [create_W1] in
  let r1 := commit st (prepare single_step sample_dir st (REdit 0 "alice" "select 2")) in
  let r2 := commit r1.2 (prepare single_step sample_dir st (REdit 0 "root" "select 3")) in
  r1.1 = Ok ∧ r2.1 = Ok ∧
  (o_text <$> orders r2.2 !! 0) = Some "select 3" ∧
  length (History 0 (audit r2.2)) = 2 ∧
  (a_actor <$> last (History 0 (audit r2.2))) = Some "alice".
Proof. cbv zeta. split_and!; vm_compute; reflexivity. Qed.
