(* ===== verification/Notify.v ===== *)
(** * NotificationBridge (spec 1, 5, 6): the engine's events delivered
      through [SendWxMsg] of [src/lib/wx.go]

    Every transition the engine commits appends one [Event].  The bridge
    turns an event into WeCom messages: one [model.Message] per next actor
    (from the event's actor to that actor), or to the owner when no actor
    follows; each message goes out through [SendWxMsg] with the markdown
    text a template makes of the status label ([types.go]'s [ORDER_IS_*]
    constants) and the work id.  The template and the e-mail of an account
    are not in the sources: they are parameters of the section.  Delivery
    is fire-and-forget: [SendWxMsg] only logs a failure, so the engine's
    result never depends on it. *)

From S2P Require Import Prelude Types Wx Workflow Runs Engine.

Local Open Scope nat_scope.

(** The label of an event: an edit is labelled as an edit, any other
    transition by the status it leads to (spec 6: the labels map to the
    statuses of spec 4.1). *)
Definition event_label (ev : Event) : OrderLabel :=
  match ev_action ev with
  | AEdit => ORDER_IS_EDIT
  | _ =>
      match ev_status ev with
      | Created => ORDER_IS_CREATE | Editing => ORDER_IS_EDIT
      | Reviewing _ | Agreed _ => ORDER_IS_AGREE | Rejected => ORDER_IS_REJECT
      | AllEnded => ORDER_IS_ALL_END | Ended => ORDER_IS_END
      | AllCancelled => ORDER_IS_ALL_CANCEL | Cancelled => ORDER_IS_CLEAR
      | Deleted => ORDER_IS_DELETE
      end
  end.

Section Bridge.
Context `{WxEnv}.

(** The identity contract's e-mail of an account, and the markdown
    template applied to a label text and a work id. *)
Variable email_of : string → string.
Variable template : string → string → string.

Definition event_text (ev : Event) : string :=
  template (status_label (event_label ev)) (ev_work_id ev).

Definition event_messages (ev : Event) : list Message :=
  (λ u, {| User := email_of (ev_actor ev); ToUser := email_of u |}) <$>
  match ev_next ev with [] => [ev_owner ev] | next => next end.

(** The WeCom effects of one event. *)
Definition Notify (ev : Event) : list WxEffect :=
  mjoin ((λ m, SendWxMsg m (event_text ev)) <$> event_messages ev).

(** A call followed by the delivery of the events it appended. *)
Definition call_notify (cfg : WfConfig) (dir : Directory) (st : Engine) (req : Request)
    : CallResult * Engine * list WxEffect :=
  let '(r, st') := call cfg dir st req in
  (r, st', mjoin (Notify <$> drop (length (events st)) (events st'))).

(** Committing a plan read from any snapshot [st0] appends at most one
    event, of the request's actor and action, and only on success. *)
Lemma commit_plan_events cfg dir st0 st req r st' :
  commit st (prepare cfg dir st0 req) = (r, st') →
  events st' = events st ∨
  (r = Ok ∧ ∃ ev, events st' = events st ++ [ev] ∧ ev_actor ev = request_actor req ∧
                  ev_action ev = request_action req).
Proof.
  pose proof (prepare_action cfg dir st0 req) as Ha.
  destruct (prepare cfg dir st0 req) as [e| |o a|id es ek o' a actor c] eqn:Hp; simpl in *;
    intros Hc.
  - injection Hc as <- <-. by left.
  - injection Hc as <- <-. by left.
  - apply prepare_create in Hp as (_ & _ & _ & _ & _ & -> & _).
    case_bool_decide; injection Hc as <- <-; [right|by left].
    split; [done|]. eexists. split_and!; [done|done|]. simpl. by apply Ha.
  - apply prepare_update in Hp as (o & _ & _ & _ & _ & _ & ->).
    destruct (orders st !! id); [case_bool_decide|]; injection Hc as <- <-;
      [right|by left|by left].
    split; [done|]. eexists. split_and!; [done|done|]. simpl. by apply Ha.
Qed.

Lemma call_events cfg dir st req r st' :
  call cfg dir st req = (r, st') →
  events st' = events st ∨
  (r = Ok ∧ ∃ ev, events st' = events st ++ [ev] ∧ ev_actor ev = request_actor req ∧
                  ev_action ev = request_action req).
Proof. apply commit_plan_events. Qed.

(** C35: Every call is announced exactly once and never holds up the engine
    (spec 4.1, 5): the engine's result and store are those of the call
    whatever WeCom answers; a call that appends no event sends nothing, and
    a call that commits a transition appends one event, of its actor and
    action, whose messages are all it sends. *)
Theorem call_notify_once cfg dir st req r st' eff :
  call_notify cfg dir st req = (r, st', eff) →
  call cfg dir st req = (r, st') ∧
  ((events st' = events st ∧ eff = []) ∨
   (r = Ok ∧ ∃ ev, events st' = events st ++ [ev] ∧ ev_actor ev = request_actor req ∧
                  ev_action ev = request_action req ∧ eff = Notify ev)).
Proof.
  unfold call_notify. destruct (call cfg dir st req) as [r0 st0] eqn:Hc. intros [= <- <- <-].
  split; [done|]. destruct (call_events _ _ _ _ _ _ Hc) as [He|(-> & ev & He & Ha & Hact)].
  - left. split; [done|]. by rewrite He, drop_all.
  - right. split; [done|]. exists ev. split_and!; [done..|].
    rewrite He, drop_app_length. simpl. apply app_nil_r.
Qed.

(** The texts cannot tell a fully approved order from one cancelled
    after its approval (spec 6 says the labels map one-to-one to the
    statuses): whatever the template, the event of the approval that ends
    the chain and the event of a cancellation of an approved order, for the
    same work id, are sent with the same text. *)
Theorem notify_all_end_is_all_cancel ev1 ev2 :
  ev_action ev1 = AApprove → ev_status ev1 = AllEnded →
  ev_action ev2 = ACancel → ev_status ev2 = AllCancelled → ev_work_id ev1 = ev_work_id ev2 →
  event_text ev1 = event_text ev2.
Proof.
  intros Ha1 Hs1 Ha2 Hs2 Hw. unfold event_text, event_label.
  by rewrite Ha1, Hs1, Ha2, Hs2, Hw.
Qed.
End Bridge.

(** ** Witnesses *)

(** A WeCom client that rejects a message with an unknown (empty) id. *)
#[local] Instance sample_wx : WxEnv := {|
  CorpID := "corp"; CorpSecret := "secret"; AgentID := 1000002;
  SendMarkdownMessage := λ _ to _ _, if bool_decide ("" ∈ to) then Some "invalid user" else None |}.

Definition sample_email (u : string) : string :=
  if bool_decide (u = "alice") then "tao.chen@aylaasia.com"
  else if bool_decide (u = "bob") then "jun.liu@aylaasia.com" else u.

Definition sample_template (label w : string) : string := label +:+ " " +:+ w.

Lemma call_notify_once_witness :
  let x := call_notify sample_email sample_template two_steps sample_dir
             (after two_steps sample_dir [create_W1]) (RApprove 0 "bob") in
  call_notify sample_email sample_template two_steps sample_dir
    (after two_steps sample_dir [create_W1]) (RApprove 0 "bob") = (x.1.1, x.1.2, x.2) ∧
  x.1.1 = Ok ∧ length x.2 = 2 ∧
  call two_steps sample_dir (after two_steps sample_dir [create_W1]) (RApprove 0 "bob") =
    (x.1.1, x.1.2).
Proof.
  cbv zeta.
  assert (call_notify sample_email sample_template two_steps sample_dir
    (after two_steps sample_dir [create_W1]) (RApprove 0 "bob") =
    ((call_notify sample_email sample_template two_steps sample_dir
        (after two_steps sample_dir [create_W1]) (RApprove 0 "bob")).1.1,
     (call_notify sample_email sample_template two_steps sample_dir
        (after two_steps sample_dir [create_W1]) (RApprove 0 "bob")).1.2,
     (call_notify sample_email sample_template two_steps sample_dir
        (after two_steps sample_dir [create_W1]) (RApprove 0 "bob")).2)) as Hx
    by (vm_compute; reflexivity).
  split_and!; [exact Hx|vm_compute; reflexivity|vm_compute; reflexivity|].
  exact (proj1 (call_notify_once _ _ _ _ _ _ _ _ _ Hx)).
Defined.
