(* ===== verification/Search.v ===== *)
(** * ScopedSearch (spec 4.4): the role-scoped worklist over the engine's
      orders, served by [GetSQLOrderList] of [types.go]

    The engine's orders are persisted as [CoreSqlOrder] rows ([order_row])
    in id order ([order_table]).  A worklist request is
    [GetSQLOrderList] over that table with the requester's role scope put
    in front of the search filters: an owner sees the rows they own, an
    auditor the rows whose current eligible set holds them plus every row
    whose audit history names them, an admin every row.  The scope builders
    and the row layout are outside [src/] and follow the spec; the query
    chain, paging and column projection are [types.go]'s. *)

From S2P Require Import Prelude Types Paging Workflow Runs Engine.

(** ** Orders as rows *)

(** The [status] and [type] columns: the statuses in the order of spec
    4.1, the kinds execution then query. *)
Definition status_code (s : OrderStatus) : Z :=
  match s with
  | Created => 0 | Editing => 1 | Reviewing _ => 2 | Agreed _ => 3 | Rejected => 4
  | AllEnded => 5 | Ended => 6 | AllCancelled => 7 | Cancelled => 8 | Deleted => 9
  end.

Definition kind_code (k : OrderKind) : Z :=
  match k with Execution => 0 | Query => 1 end.

(** The [assigned] column: the eligible actors joined by commas. *)
Fixpoint join_commas (l : list string) : string :=
  match l with
  | [] => ""
  | [x] => x
  | x :: l' => x +:+ "," +:+ join_commas l'
  end.

Definition order_row (o : Order) : CoreSqlOrder :=
  {| ID := Z.of_nat (o_id o); WorkId := o_work_id o; Username := o_owner o; Text := o_text o;
     Backup := 0; Date := ""; RealName := ""; Executor := o_executor o;
     Status := status_code (o_status o); Type_ := kind_code (o_kind o); Delay := "";
     Source := o_source o; IDC := ""; DataBase := o_database o; Table := "";
     ExecuteTime := ""; Assigned := join_commas (o_assigned o);
     CurrentStep := Z.of_nat (o_step o); Relevant := "" |}.

(** The [core_sql_orders] table: the rows in primary-key order. *)
Definition order_table (st : Engine) : list CoreSqlOrder :=
  omap (λ i, order_row <$> orders st !! i) (seq 0 (next_id st)).

(** ** Role scopes *)

Inductive SearchRole := OwnerRole | AuditorRole | AdminRole.

(** The order a row stands for. *)
Definition row_order (st : Engine) (r : CoreSqlOrder) : option Order :=
  orders st !! Z.to_nat (ID r).

(** [u] has an entry in the order's audit history. *)
Definition acted (st : Engine) (u : string) (id : nat) : bool :=
  existsb (λ e, bool_decide (a_actor e = u)) (History id (audit st)).

Definition owner_scope (u : string) (r : CoreSqlOrder) : bool :=
  bool_decide (Username r = u).

Definition auditor_scope (st : Engine) (u : string) (r : CoreSqlOrder) : bool :=
  match row_order st r with
  | Some o => bool_decide (u ∈ o_assigned o) || acted st u (o_id o)
  | None => false
  end.

Definition role_scopes (st : Engine) (role : SearchRole) (u : string)
    : list (CoreSqlOrder → bool) :=
  match role with
  | OwnerRole => [owner_scope u]
  | AuditorRole => [auditor_scope st u]
  | AdminRole => []
  end.

(** The worklist page of [u] in role [role], with the search filters
    [filters] after the role scope. *)
Definition ScopedSearch (db : DBHandle) (glo : GloOther) (st : Engine) (p : PageInfo)
    (role : SearchRole) (u : string) (filters : list (CoreSqlOrder → bool))
    : DBHandle * SQLOrder :=
  GetSQLOrderList db glo p (role_scopes st role u ++ filters) (order_table st).

(** The search criteria of a request ([Search] of [types.go], spec 4.4 and
    9): each criterion that is set adds one [WHERE] clause; the status and
    type criteria apply when [Valve] is set.  The department criterion
    reads the account table, which the worklist rows do not carry, and is
    not modelled. *)
Definition criterion (set : bool) (p : CoreSqlOrder → bool) : list (CoreSqlOrder → bool) :=
  if set then [p] else [].

Definition search_filters (f : Search) : list (CoreSqlOrder → bool) :=
  criterion (negb (bool_decide (S_WorkId f = ""))) (λ r, bool_decide (WorkId r = S_WorkId f)) ++
  criterion (negb (bool_decide (S_Username f = ""))) (λ r, bool_decide (Username r = S_Username f)) ++
  criterion (negb (bool_decide (S_Source f = ""))) (λ r, bool_decide (Source r = S_Source f)) ++
  criterion (negb (bool_decide (S_IDC f = ""))) (λ r, bool_decide (IDC r = S_IDC f)) ++
  criterion (negb (bool_decide (S_Text f = "")))
    (λ r, bool_decide (is_Some (String.index 0 (S_Text f) (Text r)))) ++
  criterion (Valve f) (λ r, bool_decide (Status r = S_Status f)) ++
  criterion (Valve f) (λ r, bool_decide (Type_ r = S_Type f)).

(** A worklist request: the page and the criteria of [PageInfo]. *)
Definition Worklist (db : DBHandle) (glo : GloOther) (st : Engine) (p : PageInfo)
    (role : SearchRole) (u : string) : DBHandle * SQLOrder :=
  ScopedSearch db glo st p role u (search_filters (Find p)).

(** ** Rows of the table *)

Lemma order_table_elem st r :
  r ∈ order_table st ↔ ∃ id o, orders st !! id = Some o ∧ (id < next_id st)%nat ∧ r = order_row o.
Proof.
  unfold order_table. rewrite list_elem_of_omap. setoid_rewrite elem_of_seq.
  split.
  - intros (id & [_ Hlt] & Hr). destruct (orders st !! id) as [o|] eqn:Ho; simplify_eq/=.
    exists id, o. split_and!; [done|lia|done].
  - intros (id & o & Ho & Hlt & ->). exists id. split; [lia|]. by rewrite Ho.
Qed.

Lemma row_order_row cfg st id o :
  engine_wf cfg st → orders st !! id = Some o → row_order st (order_row o) = Some o.
Proof.
  intros Hwf Ho. destruct (Hwf id o Ho) as (Hid & _ & _).
  unfold row_order. simpl. by rewrite Nat2Z.id, Hid.
Qed.

(** The rows a worklist page shows are projections of table rows that pass
    the role scope and the filters. *)
Lemma search_rows db glo st p role u filters r :
  r ∈ SO_List (ScopedSearch db glo st p role u filters).2 →
  ∃ id o, orders st !! id = Some o ∧ all_of (role_scopes st role u) (order_row o) = true ∧
          all_of filters (order_row o) = true ∧ r = select_sql_order QueryField (order_row o).
Proof.
  intros Hr. apply order_list_rows in Hr as (r0 & Hr0 & Hs & ->).
  apply order_table_elem in Hr0 as (id & o & Ho & _ & ->).
  rewrite all_of_app in Hs. apply andb_true_iff in Hs as [? ?]. by exists id, o.
Qed.

Lemma length_omap_seq {A} (f : nat → option A) n :
  (length (omap f (seq 0 n)) <= n)%nat ∧
  ((∀ i, (i < n)%nat → is_Some (f i)) → length (omap f (seq 0 n)) = n).
Proof.
  induction n as [|n [IH1 IH2]]; [done|].
  rewrite seq_S, omap_app, length_app. simpl.
  split; [destruct (f n); simpl; lia|].
  intros Hs. destruct (Hs n ltac:(lia)) as [x ->]. simpl.
  rewrite IH2; [lia|]. intros i Hi. apply Hs. lia.
Qed.

(** Filtering the rows of distinct ids, when at most one id can pass. *)
Lemma filter_omap_at_most_one {A} (f : nat → option A) (P : A → bool) (l : list nat) :
  NoDup l →
  (∀ i j x y, i ∈ l → j ∈ l → f i = Some x → f j = Some y → P x = true → P y = true → i = j) →
  (length (List.filter P (omap f l)) <= 1)%nat.
Proof.
  induction l as [|i l IH]; intros Hnd Hu; [simpl; lia|].
  apply NoDup_cons in Hnd as [Hi Hnd].
  assert (length (List.filter P (omap f l)) <= 1)%nat as IH'.
  { apply IH; [done|]. intros ?????????. eapply Hu; eauto; by right. }
  change (omap f (i :: l)) with (match f i with Some y => y :: omap f l | None => omap f l end).
  destruct (f i) as [x|] eqn:Hx; [|done]. cbn [List.filter]. destruct (P x) eqn:Px; [|done].
  destruct (List.filter P (omap f l)) as [|y ys] eqn:Hl; [simpl; lia|exfalso].
  assert (y ∈ List.filter P (omap f l)) as Hy by (rewrite Hl; left).
  apply list_elem_of_In, List.filter_In in Hy as [Hy Py]. apply list_elem_of_In in Hy.
  apply list_elem_of_omap in Hy as (j & Hj & Hfj). apply Hi.
  by rewrite (Hu i j x y ltac:(left) ltac:(by right) Hx Hfj Px Py).
Qed.

Lemma search_filters_work_id f r :
  S_WorkId f ≠ "" → all_of (search_filters f) r = true → WorkId r = S_WorkId f.
Proof.
  intros Hw Hr. unfold search_filters, criterion in Hr.
  rewrite bool_decide_eq_false_2 in Hr by done. simpl in Hr.
  apply andb_true_iff in Hr as [Hr _]. by apply bool_decide_eq_true in Hr.
Qed.

(** ** Visibility *)

(** C25: Owner visibility (spec 4.4, 8): on any page and with any search
    filters, a requester searching in the owner role receives only rows
    they own, each the [QueryField] projection of one of their orders. *)
Theorem ScopedSearch_owner_visibility db glo st p u filters r :
  r ∈ SO_List (ScopedSearch db glo st p OwnerRole u filters).2 →
  Username r = u ∧ ∃ id o, orders st !! id = Some o ∧ o_owner o = u ∧
                           r = select_sql_order QueryField (order_row o).
Proof.
  intros Hr. apply search_rows in Hr as (id & o & Ho & Hs & _ & ->).
  unfold role_scopes, all_of, owner_scope in Hs. simpl in Hs.
  rewrite andb_true_r in Hs. apply bool_decide_eq_true in Hs.
  rewrite select_QueryField. simpl. split; [done|]. by exists id, o.
Qed.

(** C26: Auditor visibility (spec 4.4): a requester searching in the auditor
    role receives only orders whose current eligible set holds them or
    whose audit history has an entry of theirs. *)
Theorem ScopedSearch_auditor_visibility cfg db glo st p u filters r :
  engine_wf cfg st → r ∈ SO_List (ScopedSearch db glo st p AuditorRole u filters).2 →
  ∃ id o, orders st !! id = Some o ∧ r = select_sql_order QueryField (order_row o) ∧
    (u ∈ o_assigned o ∨ ∃ e, e ∈ History id (audit st) ∧ a_actor e = u).
Proof.
  intros Hwf Hr. apply search_rows in Hr as (id & o & Ho & Hs & _ & ->).
  exists id, o. split_and!; [done|done|].
  unfold role_scopes, all_of, auditor_scope in Hs. simpl in Hs.
  rewrite andb_true_r, (row_order_row cfg st id o Hwf Ho) in Hs.
  destruct (Hwf id o Ho) as (Hid & _ & _). rewrite Hid in Hs.
  apply orb_true_iff in Hs as [Hs|Hs]; [left; by apply bool_decide_eq_true in Hs|right].
  unfold acted in Hs. apply existsb_exists in Hs as (e & He & Ha).
  exists e. split; [by apply list_elem_of_In|by apply bool_decide_eq_true in Ha].
Qed.

Lemma search_complete cfg db glo st role u filters id o :
  engine_wf cfg st → orders st !! id = Some o →
  all_of (role_scopes st role u ++ filters) (order_row o) = true →
  Z.of_nat (next_id st) <= 15 * max_page →
  ∃ page, 1 <= page <= max_page ∧
    ∀ p, Page p = page →
      select_sql_order QueryField (order_row o) ∈ SO_List (ScopedSearch db glo st p role u filters).2.
Proof.
  intros Hwf Ho Hs Hn. apply order_list_complete; [|done|].
  - apply order_table_elem. exists id, o. split_and!; [done| |done].
    by destruct (Hwf id o Ho) as (_ & ? & _).
  - unfold order_table. pose proof (proj1 (length_omap_seq (λ i, order_row <$> orders st !! i) (next_id st))).
    lia.
Qed.

(** C29: Completeness of the owner worklist: each order of [u] is on some
    page between 1 and [max_page] of [u]'s owner-role search, as long as the
    ids fit [15 * max_page]; no order is lost between pages. *)
Theorem ScopedSearch_owner_complete cfg db glo st u id o :
  engine_wf cfg st → orders st !! id = Some o → o_owner o = u →
  Z.of_nat (next_id st) <= 15 * max_page →
  ∃ page, 1 <= page <= max_page ∧
    ∀ p, Page p = page →
      select_sql_order QueryField (order_row o) ∈ SO_List (ScopedSearch db glo st p OwnerRole u []).2.
Proof.
  intros Hwf Ho Hu Hn. apply (search_complete cfg _ _ _ _ _ _ id); [done|done| |done].
  unfold role_scopes, all_of, owner_scope. simpl. by rewrite bool_decide_eq_true_2.
Qed.

(** C30: Soft deletion keeps every order listed: in every run, under any
    interleaving, the admin worklist counts exactly as many orders as were
    ever created, deleted and cancelled ones included. *)
Theorem ScopedSearch_admin_count cfg P tr st db glo p u :
  run cfg P (st :: tr) →
  SO_Count (ScopedSearch db glo st p AdminRole u []).2 = Z.of_nat (next_id st).
Proof.
  intros Hr. apply run_ids_dense, Forall_inv in Hr.
  unfold ScopedSearch, GetSQLOrderList. destruct (Paging _ _). simpl.
  rewrite (List.filter_ext _ (λ _, true)), List.filter_true by done.
  unfold order_table. rewrite (proj2 (length_omap_seq _ _)); [done|].
  intros i Hi. destruct (Hr i Hi) as [o ->]. by eexists.
Qed.

(** The history entries of an order are kept by every later call. *)
Lemma calls_keep_entry cfg dir st reqs id e :
  e ∈ History id (audit st) → is_Some (orders st !! id) →
  e ∈ History id (audit (calls cfg dir st reqs)) ∧ is_Some (orders (calls cfg dir st reqs) !! id).
Proof.
  intros He Ho. destruct (calls_persist cfg dir st reqs id Ho) as [Ho' [l Hl]].
  split; [|done]. apply History_elem in He as [He Hid]. apply History_elem.
  rewrite Hl. split; [set_solver|done].
Qed.

(** C27: An auditor keeps seeing what they approved (spec 4.4), in runs
    without rejections: after [u]'s approval of an order succeeds, the order
    stays on some page of [u]'s auditor worklist in every store that later
    calls reach, also once it has moved past [u]'s step (as long as the ids
    fit [15 * max_page]). *)
Theorem auditor_keeps_approved cfg dir st id u st1 reqs db glo :
  engine_wf cfg st → audit_ok st → call cfg dir st (RApprove id u) = (Ok, st1) →
  Forall no_reject reqs → Z.of_nat (next_id (calls cfg dir st1 reqs)) <= 15 * max_page →
  ∃ o page, orders (calls cfg dir st1 reqs) !! id = Some o ∧ 1 <= page <= max_page ∧
    ∀ p, Page p = page → select_sql_order QueryField (order_row o) ∈
      SO_List (ScopedSearch db glo (calls cfg dir st1 reqs) p AuditorRole u []).2.
Proof.
  intros Hwf Hok Hc Hr Hn.
  destruct (approve_appends cfg dir st id u st1 Hwf Hok Hc) as (e & He & Ha & _).
  assert (engine_wf cfg st1 ∧ audit_ok st1) as [Hwf1 Hok1].
  { replace st1 with (call cfg dir st (RApprove id u)).2 by (by rewrite Hc). unfold call.
    split; [by apply commit_plan_wf|by apply commit_plan_audit_ok]. }
  assert (is_Some (orders st1 !! id)) as Hs1.
  { apply History_elem in He as [He' <-]. by apply (proj1 Hok1). }
  destruct (calls_keep_entry cfg dir st1 reqs id e He Hs1) as [He' [o Ho]].
  destruct (calls_inv cfg dir st1 reqs Hwf1 Hok1 Hr) as [Hwf' _].
  destruct (search_complete cfg db glo _ AuditorRole u [] id o Hwf' Ho) as (page & ? & ?); [|done|].
  - rewrite app_nil_r. unfold role_scopes, all_of, auditor_scope. simpl.
    rewrite (row_order_row cfg _ id o Hwf' Ho), andb_true_r.
    apply orb_true_iff. right. destruct (Hwf' id o Ho) as (-> & _ & _).
    apply existsb_exists. exists e. split; [by apply list_elem_of_In|by apply bool_decide_eq_true].
  - by exists o, page.
Qed.

(** The directory of the examples: [bob] and [erin] hold the "dba" label of
    step 0, [dave] the "lead" label of step 1. *)
Definition search_dir : Directory :=
  {| users := [{| acc_name := "alice"; acc_role := Guest; acc_department := "dev" |};
               {| acc_name := "bob"; acc_role := Dba; acc_department := "ops" |};
               {| acc_name := "erin"; acc_role := Dba; acc_department := "ops" |};
               {| acc_name := "dave"; acc_role := Dba; acc_department := "ops" |}];
     GrantsFor := λ u, if bool_decide (u = "bob" ∨ u = "erin") then ["dba"]
                       else if bool_decide (u = "dave") then ["lead"] else [] |}.

Definition resubmitted : list Request :=
  [create_W1; RApprove 0 "bob"; RReject 0 "dave" "no"; REdit 0 "alice" "select 2"].

(** A successful approval at a step whose approval key [(order, step,
    approve)] is already in the audit trail appends nothing to it. *)
Lemma approve_repeated_key cfg dir st id o k b st' :
  engine_wf cfg st → orders st !! id = Some o → review_step o = Some k →
  (∃ e, e ∈ History id (audit st) ∧ a_step e = k ∧ a_action e = AApprove) →
  call cfg dir st (RApprove id b) = (Ok, st') →
  audit st' = audit st ∧ ∃ o1, orders st' !! id = Some o1 ∧ o_work_id o1 = o_work_id o.
Proof.
  intros Hwf Ho Hk (e & He & Hs & Ha) Hc.
  destruct (approve_plan cfg dir st id b) as (o0 & o1 & a & c & Ho0 & Hd & Hp); [by rewrite Hc|].
  rewrite Ho in Ho0. injection Ho0 as <-.
  destruct (Hwf id o Ho) as (_ & _ & Hw). destruct (review_step_wf _ _ _ Hw Hk) as (_ & Hstep & _).
  pose proof Hd as Hd'. apply transition_action in Hd' as [Hact _]. simpl in Hact. subst a.
  unfold call in Hc. rewrite Hp in Hc. simpl in Hc.
  rewrite Ho, bool_decide_eq_true_2 in Hc by done. injection Hc as <-. simpl. split.
  - apply audit_append_dup. apply History_elem in He as [He Hid].
    exists e. split; [done|]. unfold same_key. simpl. split_and!; congruence.
  - exists o1. rewrite lookup_insert_eq. split; [done|]. by apply transition_immutable in Hd as [-> _].
Qed.

(** C28: An auditor can lose sight of an order they approved (spec 4.3
    and 4.4 disagree): in any run, when an order waits on a step [k] whose
    approval is already in its audit trail (an earlier round, before a
    rejection and re-edit), an approval of step [k] by an auditor [b] who
    never acted on the order succeeds, yet its audit entry has the same key
    and is dropped.  So, unless [b] is assigned to the next step, [b]'s
    auditor worklist never shows the order, on any page and with any
    filters. *)
Theorem auditor_loses_approval cfg tr st dir id o k b st' db glo p filters :
  run cfg any_request (st :: tr) →
  orders st !! id = Some o → review_step o = Some k →
  (∃ e, e ∈ History id (audit st) ∧ a_step e = k ∧ a_action e = AApprove) →
  acted st b id = false →
  call cfg dir st (RApprove id b) = (Ok, st') →
  (∀ o', orders st' !! id = Some o' → b ∉ o_assigned o') →
  acted st' b id = false ∧
  ∀ r, r ∈ SO_List (ScopedSearch db glo st' p AuditorRole b filters).2 → WorkId r ≠ o_work_id o.
Proof.
  intros Hr Ho Hk He Hb Hc Hna.
  assert (run cfg any_request (st' :: st :: tr)) as Hr'.
  { replace st' with (commit st (prepare cfg dir st (RApprove id b))).2 by (unfold call in Hc; by rewrite Hc).
    by apply run_step; [|left|]. }
  pose proof (Forall_inv (run_wf _ _ _ Hr)) as Hwf.
  pose proof (Forall_inv (run_wf _ _ _ Hr')) as Hwf'.
  pose proof (Forall_inv (run_wid_unique _ _ _ Hr')) as Hu'.
  destruct (approve_repeated_key cfg dir st id o k b st' Hwf Ho Hk He Hc) as (Ha & o1 & Ho1 & Hw1).
  assert (acted st' b id = false) as Hb' by (unfold acted; by rewrite Ha).
  split; [done|]. intros r Hin Hwr.
  apply search_rows in Hin as (id2 & o2 & Ho2 & Hs & _ & ->).
  rewrite select_QueryField in Hwr. simpl in Hwr.
  assert (id2 = id) as -> by (apply (Hu' id2 id o2 o1 Ho2 Ho1); congruence).
  rewrite Ho1 in Ho2. injection Ho2 as <-.
  unfold role_scopes, all_of, auditor_scope in Hs. simpl in Hs.
  rewrite (row_order_row cfg st' id o1 Hwf' Ho1), andb_true_r in Hs.
  destruct (Hwf' id o1 Ho1) as (Hid & _ & _). rewrite Hid, Hb', orb_false_r in Hs.
  apply bool_decide_eq_true in Hs. by apply (Hna o1 Ho1).
Qed.

(** C36: Work ids identify orders in the worklist (spec 3): in every run,
    under any interleaving of concurrent calls, a worklist request that
    names a work id counts at most one order, in any role and on any page,
    and every row it shows has that work id. *)
Theorem Worklist_work_id_unique cfg P tr st db glo p role u :
  run cfg P (st :: tr) → S_WorkId (Find p) ≠ "" →
  SO_Count (Worklist db glo st p role u).2 <= 1 ∧
  ∀ r, r ∈ SO_List (Worklist db glo st p role u).2 → WorkId r = S_WorkId (Find p).
Proof.
  intros Hr Hw. apply run_wid_unique, Forall_inv in Hr as Hu. split.
  - unfold Worklist, ScopedSearch, GetSQLOrderList. destruct (Paging _ _). simpl.
    enough (length (List.filter (all_of (role_scopes st role u ++ search_filters (Find p)))
                      (order_table st)) <= 1)%nat by lia.
    apply filter_omap_at_most_one; [apply NoDup_seq|].
    intros i j x y _ _ Hx Hy Px Py.
    destruct (orders st !! i) as [oi|] eqn:Hi, (orders st !! j) as [oj|] eqn:Hj; simplify_eq/=.
    rewrite all_of_app in Px, Py. apply andb_true_iff in Px as [_ Px], Py as [_ Py].
    apply (search_filters_work_id _ _ Hw) in Px, Py. simpl in Px, Py.
    apply (Hu i j oi oj Hi Hj). congruence.
  - intros r Hr'. apply search_rows in Hr' as (id & o & _ & _ & Hf & ->).
    rewrite select_QueryField. simpl. by apply (search_filters_work_id _ (order_row o)) in Hf.
Qed.

Lemma approve_all_wf cfg dir st id actors :
  engine_wf cfg st → engine_wf cfg (approve_all cfg dir st id actors).
Proof.
  revert st. induction actors as [|a actors IH]; intros st Hwf; simpl; [done|].
  apply IH. unfold call. by apply commit_plan_wf.
Qed.

(** C37: Progress as the worklist shows it (spec 4.1, 4.4): once every step of
    the chain has been approved by one of its eligible actors, the admin
    worklist lists the order, on some page, as fully approved ([AllEnded])
    with its current step at the chain's length. *)
Theorem Worklist_shows_approved cfg dir st id o actors db glo :
  engine_wf cfg st → orders st !! id = Some o → o_status o = Created →
  length actors = length (chainDefinition cfg) →
  (∀ k a, actors !! k = Some a → a ∈ eligible cfg dir k) →
  Z.of_nat (next_id (approve_all cfg dir st id actors)) <= 15 * max_page →
  ∃ page r, 1 <= page <= max_page ∧
    (∀ p, Page p = page →
       r ∈ SO_List (ScopedSearch db glo (approve_all cfg dir st id actors) p AdminRole "" []).2) ∧
    WorkId r = o_work_id o ∧ Status r = status_code AllEnded ∧
    CurrentStep r = Z.of_nat (length (chainDefinition cfg)).
Proof.
  intros Hwf Ho Hs Hlen Hel Hn.
  destruct (approvals_complete cfg dir st id o actors Hwf Ho Hs Hlen Hel)
    as (o' & Ho' & Hs' & Hk' & _ & Hw').
  destruct (search_complete cfg db glo (approve_all cfg dir st id actors) AdminRole "" [] id o') as (page & Hp & Hin);
    [by apply approve_all_wf|done|done|done|].
  exists page, (select_sql_order QueryField (order_row o')). split_and!; [lia|lia|exact Hin|..];
    rewrite select_QueryField; simpl; by rewrite ?Hw', ?Hs', ?Hk'.
Qed.

(** ** Witnesses *)

Definition approved : list Request := [create_W1; RApprove 0 "bob"].

Lemma ScopedSearch_owner_visibility_witness :
  let st := after two_steps search_dir approved in
  ∃ r, r ∈ SO_List (ScopedSearch sample_db sample_glo st (sample_page 1) OwnerRole "alice" []).2 ∧
       Username r = "alice".
Proof.
  cbv zeta.
  assert (∃ r rs, SO_List (ScopedSearch sample_db sample_glo (after two_steps search_dir approved)
                  (sample_page 1) OwnerRole "alice" []).2 = r :: rs) as (r & rs & Hl)
    by (eexists _, _; vm_compute; reflexivity).
  assert (r ∈ SO_List (ScopedSearch sample_db sample_glo (after two_steps search_dir approved)
                  (sample_page 1) OwnerRole "alice" []).2) as Hr by (rewrite Hl; left).
  exists r. split; [exact Hr|exact (proj1 (ScopedSearch_owner_visibility _ _ _ _ _ _ _ Hr))].
Defined.

Lemma ScopedSearch_auditor_visibility_witness :
  let st := after two_steps search_dir approved in
  engine_wf two_steps st ∧
  ∃ r, r ∈ SO_List (ScopedSearch sample_db sample_glo st (sample_page 1) AuditorRole "bob" []).2 ∧
    ∃ id o, orders st !! id = Some o ∧ r = select_sql_order QueryField (order_row o) ∧
      (("bob" ∈ o_assigned o) ∨ ∃ e, e ∈ History id (audit st) ∧ a_actor e = "bob").
Proof.
  cbv zeta. pose proof (after_wf two_steps search_dir approved) as Hwf.
  assert (∃ r rs, SO_List (ScopedSearch sample_db sample_glo (after two_steps search_dir approved)
                  (sample_page 1) AuditorRole "bob" []).2 = r :: rs) as (r & rs & Hl)
    by (eexists _, _; vm_compute; reflexivity).
  assert (r ∈ SO_List (ScopedSearch sample_db sample_glo (after two_steps search_dir approved)
                  (sample_page 1) AuditorRole "bob" []).2) as Hr by (rewrite Hl; left).
  split; [exact Hwf|]. exists r. split; [exact Hr|].
  exact (ScopedSearch_auditor_visibility _ _ _ _ _ _ _ _ Hwf Hr).
Defined.

Lemma ScopedSearch_owner_complete_witness :
  let st := after two_steps search_dir approved in
  engine_wf two_steps st ∧
  ∃ o, orders st !! 0%nat = Some o ∧ o_owner o = "alice" ∧
    Z.of_nat (next_id st) <= 15 * max_page ∧
    ∃ page, 1 <= page <= max_page ∧
      ∀ p, Page p = page → select_sql_order QueryField (order_row o) ∈
             SO_List (ScopedSearch sample_db sample_glo st p OwnerRole "alice" []).2.
Proof.
  cbv zeta. pose proof (after_wf two_steps search_dir approved) as Hwf.
  destruct (orders (after two_steps search_dir approved) !! 0%nat) as [o|] eqn:Ho;
    [|vm_compute in Ho; discriminate].
  assert (o_owner o = "alice") as Hu by (vm_compute in Ho; injection Ho as <-; reflexivity).
  assert (Z.of_nat (next_id (after two_steps search_dir approved)) <= 15 * max_page) as Hn
    by (vm_compute; discriminate).
  split; [exact Hwf|]. exists o. split_and!; [done|exact Hu|exact Hn|].
  exact (ScopedSearch_owner_complete _ _ _ _ _ _ _ Hwf Ho Hu Hn).
Defined.

Lemma ScopedSearch_admin_count_witness :
  let reqs := [create_W1; RDelete 0 "alice"; RCreate "carol" "W2" "select 3" "s1" "d1" Query] in
  (∃ tr, run two_steps any_request (after two_steps search_dir reqs :: tr)) ∧
  SO_Count (ScopedSearch sample_db sample_glo (after two_steps search_dir reqs) (sample_page 1)
              AdminRole "root" []).2 = 2.
Proof.
  cbv zeta.
  destruct (after_run two_steps search_dir any_request
    [create_W1; RDelete 0 "alice"; RCreate "carol" "W2" "select 3" "s1" "d1" Query]) as [tr Hr];
    [by repeat constructor|].
  split; [by exists tr|]. rewrite (ScopedSearch_admin_count _ _ _ _ _ _ _ _ Hr).
  vm_compute. reflexivity.
Defined.

Lemma auditor_keeps_approved_witness :
  let st := after two_steps search_dir [create_W1] in
  let st' := calls two_steps search_dir (after two_steps search_dir approved) [RApprove 0 "dave"] in
  engine_wf two_steps st ∧ audit_ok st ∧
  call two_steps search_dir st (RApprove 0 "bob") = (Ok, after two_steps search_dir approved) ∧
  Forall no_reject [RApprove 0 "dave"] ∧ Z.of_nat (next_id st') <= 15 * max_page ∧
  ∃ o page, orders st' !! 0%nat = Some o ∧ 1 <= page <= max_page ∧
    ∀ p, Page p = page → select_sql_order QueryField (order_row o) ∈
      SO_List (ScopedSearch sample_db sample_glo st' p AuditorRole "bob" []).2.
Proof.
  cbv zeta. pose proof (after_wf two_steps search_dir [create_W1]) as Hwf.
  assert (audit_ok (after two_steps search_dir [create_W1])) as Hok.
  { destruct (after_run two_steps search_dir no_reject [create_W1]) as [tr Hr];
      [repeat constructor; unfold no_reject; simpl; done|].
    by apply run_audit_ok, Forall_inv in Hr. }
  assert (call two_steps search_dir (after two_steps search_dir [create_W1]) (RApprove 0 "bob") =
          (Ok, after two_steps search_dir approved)) as Hc by (vm_compute; reflexivity).
  assert (Forall no_reject [RApprove 0 "dave"]) as Hr
    by (repeat constructor; unfold no_reject; simpl; done).
  assert (Z.of_nat (next_id (calls two_steps search_dir (after two_steps search_dir approved)
            [RApprove 0 "dave"])) <= 15 * max_page) as Hn by (vm_compute; discriminate).
  split_and!; [exact Hwf|exact Hok|exact Hc|exact Hr|exact Hn|].
  exact (auditor_keeps_approved _ _ _ _ _ _ _ sample_db sample_glo Hwf Hok Hc Hr Hn).
Defined.

(** Page 1 of a search by work id. *)
Definition work_id_page (w : string) : PageInfo :=
  {| Page := 1; Find := {| Picker := []; Valve := false; S_Text := ""; Explain := "";
                           S_WorkId := w; S_Type := 0; S_Status := 0; S_IDC := "";
                           S_Source := ""; S_Username := ""; Dept := "" |}; Tp := "" |}.

Lemma Worklist_work_id_unique_witness :
  let reqs := [create_W1; RCreate "carol" "W2" "select 3" "s1" "d1" Query;
               RCreate "carol" "W1" "select 4" "s1" "d1" Query] in
  (∃ tr, run two_steps any_request (after two_steps search_dir reqs :: tr)) ∧
  S_WorkId (Find (work_id_page "W1")) ≠ "" ∧
  SO_Count (Worklist sample_db sample_glo (after two_steps search_dir reqs) (work_id_page "W1")
              AdminRole "root").2 <= 1 ∧
  SO_Count (Worklist sample_db sample_glo (after two_steps search_dir reqs) (work_id_page "W1")
              AdminRole "root").2 = 1.
Proof.
  cbv zeta.
  destruct (after_run two_steps search_dir any_request
    [create_W1; RCreate "carol" "W2" "select 3" "s1" "d1" Query;
     RCreate "carol" "W1" "select 4" "s1" "d1" Query]) as [tr Hr]; [by repeat constructor|].
  assert (S_WorkId (Find (work_id_page "W1")) ≠ "") as Hw by done.
  split_and!; [by exists tr|exact Hw|exact (proj1 (Worklist_work_id_unique _ _ _ _ _ _ _ _ _ Hr Hw))|].
  vm_compute. reflexivity.
Defined.

Lemma Worklist_shows_approved_witness :
  let st := after two_steps search_dir [create_W1] in
  engine_wf two_steps st ∧
  (∃ o, orders st !! 0%nat = Some o ∧ o_status o = Created) ∧
  length ["bob"; "dave"] = length (chainDefinition two_steps) ∧
  (∀ k a, ["bob"; "dave"] !! k = Some a → a ∈ eligible two_steps search_dir k) ∧
  Z.of_nat (next_id (approve_all two_steps search_dir st 0 ["bob"; "dave"])) <= 15 * max_page ∧
  ∃ page r, 1 <= page <= max_page ∧
    (∀ p, Page p = page → r ∈ SO_List (ScopedSearch sample_db sample_glo
            (approve_all two_steps search_dir st 0 ["bob"; "dave"]) p AdminRole "" []).2) ∧
    WorkId r = "W1" ∧ Status r = status_code AllEnded ∧ CurrentStep r = 2.
Proof.
  cbv zeta. pose proof (after_wf two_steps search_dir [create_W1]) as Hwf.
  destruct (orders (after two_steps search_dir [create_W1]) !! 0%nat) as [o|] eqn:Ho;
    [|vm_compute in Ho; discriminate].
  assert (o_status o = Created ∧ o_work_id o = "W1") as [Hs Hw]
    by (vm_compute in Ho; injection Ho as <-; split; reflexivity).
  assert (∀ k a, ["bob"; "dave"] !! k = Some a → a ∈ eligible two_steps search_dir k) as Hel.
  { intros [|[|k]] a Ha; simpl in Ha; simplify_eq; vm_compute; constructor. }
  assert (Z.of_nat (next_id (approve_all two_steps search_dir (after two_steps search_dir [create_W1])
            0 ["bob"; "dave"])) <= 15 * max_page) as Hn by (vm_compute; discriminate).
  split_and!; [done|by exists o|done|done|done|].
  destruct (Worklist_shows_approved _ _ _ _ _ ["bob"; "dave"] sample_db sample_glo Hwf Ho Hs
              eq_refl Hel Hn) as (page & r & Hp & Hin & Hr & Hst & Hk).
  exists page, r. split_and!; [lia|lia|exact Hin|congruence|done|done].
Defined.

(** [bob] approves step 0, [dave] rejects step 1, [alice] edits the order
    back to step 0 and [erin] approves it: the approval succeeds, [bob]
    still sees the order, [erin] does not. *)
Lemma auditor_loses_approval_witness :
  let st := after two_steps search_dir resubmitted in
  let st' := (call two_steps search_dir st (RApprove 0 "erin")).2 in
  (call two_steps search_dir st (RApprove 0 "erin")).1 = Ok ∧
  SO_Count (ScopedSearch sample_db sample_glo st' (sample_page 1) AuditorRole "bob" []).2 = 1 ∧
  SO_Count (ScopedSearch sample_db sample_glo st' (sample_page 1) AuditorRole "erin" []).2 = 0 ∧
  acted st' "erin" 0 = false.
Proof.
  cbv zeta.
  destruct (after_run two_steps search_dir any_request resubmitted) as [tr Hr];
    [by apply Forall_forall|].
  destruct (orders (after two_steps search_dir resubmitted) !! 0%nat) as [o|] eqn:Ho;
    [|vm_compute in Ho; discriminate].
  assert (review_step o = Some 0%nat) as Hk by (revert Ho; vm_compute; by intros [= <-]).
  assert (∃ e, e ∈ History 0 (audit (after two_steps search_dir resubmitted)) ∧
               a_step e = 0%nat ∧ a_action e = AApprove) as He.
  { eexists. split; [apply list_elem_of_In; vm_compute; right; left; reflexivity|].
    split; reflexivity. }
  assert (acted (after two_steps search_dir resubmitted) "erin" 0 = false) as Hb
    by (vm_compute; reflexivity).
  assert (call two_steps search_dir (after two_steps search_dir resubmitted) (RApprove 0 "erin") =
          (Ok, (call two_steps search_dir (after two_steps search_dir resubmitted)
                  (RApprove 0 "erin")).2)) as Hc by (vm_compute; reflexivity).
  assert (∀ o', orders (call two_steps search_dir (after two_steps search_dir resubmitted)
                          (RApprove 0 "erin")).2 !! 0%nat = Some o' → "erin" ∉ o_assigned o')
    as Hna.
  { intros o' Ho'. assert (o_assigned o' = ["dave"]) as ->
      by (revert Ho'; vm_compute; by intros [= <-]).
    rewrite list_elem_of_singleton. discriminate. }
  split_and!; [by rewrite Hc|vm_compute; reflexivity|vm_compute; reflexivity|].
  exact (proj1 (auditor_loses_approval _ _ _ _ _ _ _ _ _ sample_db sample_glo (sample_page 1) []
                  Hr Ho Hk He Hb Hc Hna)).
Defined.
