(* ===== verification/Retry.v ===== *)
(** * Bounded retry of a conflicting call (spec 5, 7), with its notifications

    A caller whose call loses the compare-and-swap gets [Conflict], "safe
    to retry automatically up to a small bounded count" (spec 7).  An
    attempt reads the current store, lets the calls of other callers that
    land between its read and its commit happen ([w], committed with fresh
    reads), then commits its plan; its WeCom effects are those of the
    events it appended ([Notify]).  [retry n] makes at most [n + 1]
    attempts, the [k]-th with the interference [nth k sched []], and
    retries only on [Conflict].

    The theorems: a retry is its last attempt on the store the other
    callers produced, the earlier attempts leaving no trace; it ends in
    [Conflict] only if every attempt was interfered with; it announces its
    transition at most once, whatever the number of conflicts; and it is an
    execution of the concurrency model of [Runs], so every run invariant
    holds of its result. *)

From S2P Require Import Prelude Types Wx Workflow Runs Engine Notify.

Local Open Scope nat_scope.

Section Retry.
Context `{WxEnv}.
Variable email_of : string → string.
Variable template : string → string → string.
Variable cfg : WfConfig.
Variable dir : Directory.

(** One attempt: read [st], let the calls [w] of other callers land, then
    commit against the store they left. *)
Definition attempt (st : Engine) (w : list Request) (req : Request)
    : CallResult * Engine * list WxEffect :=
  let st1 := calls cfg dir st w in
  let '(r, st2) := commit st1 (prepare cfg dir st req) in
  (r, st2, mjoin (Notify email_of template <$> drop (length (events st1)) (events st2))).

(** At most [n + 1] attempts; only a [Conflict] is retried. *)
Fixpoint retry (n : nat) (sched : list (list Request)) (st : Engine) (req : Request)
    : CallResult * Engine * list WxEffect :=
  match attempt st (List.hd [] sched) req, n with
  | (Err Conflict, st2, _), S n' => retry n' (List.tl sched) st2 req
  | res, _ => res
  end.

(** The store after the interference of the first [k] attempts. *)
Fixpoint interfered (st : Engine) (sched : list (list Request)) (k : nat) : Engine :=
  match k with
  | O => st
  | S k' => interfered (calls cfg dir st (List.hd [] sched)) (List.tl sched) k'
  end.

(** ** Attempts *)

Lemma attempt_conflict st w req st2 eff :
  attempt st w req = (Err Conflict, st2, eff) → st2 = calls cfg dir st w ∧ eff = [].
Proof.
  unfold attempt. destruct (commit _ _) as [r st2'] eqn:Hc. intros [= -> <- <-].
  apply commit_err in Hc as ->. by rewrite drop_all.
Qed.

(** An attempt whose interfering calls leave the store as they found it
    is a call on a fresh read, and a fresh read never conflicts. *)
Lemma attempt_fresh st w req :
  calls cfg dir st w = st → (attempt st w req).1.1 ≠ Err Conflict.
Proof.
  intros Hw. unfold attempt. rewrite Hw.
  destruct (commit st (prepare cfg dir st req)) as [r st2] eqn:Hc.
  simpl. intros ->. by apply (call_failure_atomic cfg dir st req Conflict st2).
Qed.

Lemma attempt_events st w req r st2 eff :
  attempt st w req = (r, st2, eff) →
  (events st2 = events (calls cfg dir st w) ∧ eff = []) ∨
  (r = Ok ∧ ∃ ev, events st2 = events (calls cfg dir st w) ++ [ev] ∧
     ev_actor ev = request_actor req ∧ ev_action ev = request_action req ∧
     eff = Notify email_of template ev).
Proof.
  unfold attempt. destruct (commit _ _) as [r' st2'] eqn:Hc. intros [= <- <- <-].
  destruct (commit_plan_events _ _ _ _ _ _ _ Hc) as [He|(-> & ev & He & Ha & Hact)].
  - left. by rewrite He, drop_all.
  - right. split; [done|]. exists ev. split_and!; [done..|].
    rewrite He, drop_app_length. simpl. apply app_nil_r.
Qed.

Lemma nth_tl {A} (l : list A) (d : A) k : nth k (List.tl l) d = nth (S k) l d.
Proof. by destruct l; [destruct k|]. Qed.

Lemma nth_hd {A} (l : list A) (d : A) : List.hd d l = nth 0 l d.
Proof. by destruct l. Qed.

(** ** The retry loop *)

(** A retry is its last attempt, the [k]-th, on the store the other
    callers produced; every earlier attempt conflicted and left no trace. *)
Lemma retry_last_attempt n sched st req :
  ∃ k, k ≤ n ∧
    retry n sched st req = attempt (interfered st sched k) (nth k sched []) req ∧
    ∀ j, j < k → (attempt (interfered st sched j) (nth j sched []) req).1.1 = Err Conflict.
Proof.
  revert sched st. induction n as [|n IH]; intros sched st; simpl.
  - exists 0. cbn [interfered]. rewrite <- nth_hd. split_and!; [lia| |intros; lia].
    by repeat case_match.
  - destruct (attempt st (List.hd [] sched) req) as [[r st2] eff] eqn:Ha.
    destruct (decide (r = Err Conflict)) as [->|Hr].
    + apply attempt_conflict in Ha as Hc. destruct Hc as [-> _].
      destruct (IH (List.tl sched) (calls cfg dir st (List.hd [] sched)))
        as (k & Hk & Hret & Hprev).
      exists (S k). rewrite <- nth_tl. split_and!; [lia|done|].
      intros [|j] Hj; cbn [interfered]; [by rewrite <- nth_hd, Ha|].
      rewrite <- nth_tl. apply Hprev. lia.
    + exists 0. cbn [interfered]. rewrite <- nth_hd, Ha. split_and!; [lia| |intros; lia].
      destruct r as [|[]]; done.
Qed.

(** A retry ends in [Conflict] only if, at every one of its attempts,
    the calls of other callers between its read and its commit changed the
    store. *)
Lemma retry_conflict_all n sched st req :
  (retry n sched st req).1.1 = Err Conflict →
  ∀ i, i ≤ n → calls cfg dir (interfered st sched i) (nth i sched []) ≠ interfered st sched i.
Proof.
  revert sched st. induction n as [|n IH]; intros sched st; simpl.
  - destruct (attempt st (List.hd [] sched) req) as [[r st2] eff] eqn:Ha.
    intros Hr i Hi Hn. assert (i = 0) as -> by lia. cbn [interfered] in Hn.
    rewrite <- nth_hd in Hn. apply (attempt_fresh st _ req Hn). rewrite Ha.
    destruct r as [|[]]; simpl in *; congruence.
  - destruct (attempt st (List.hd [] sched) req) as [[r st2] eff] eqn:Ha.
    destruct (decide (r = Err Conflict)) as [->|Hr].
    + apply attempt_conflict in Ha as Hc. destruct Hc as [-> _].
      intros Hret [|i] Hi Hn; cbn [interfered] in Hn.
      * rewrite <- nth_hd in Hn. apply (attempt_fresh st _ req Hn). by rewrite Ha.
      * rewrite <- nth_tl in Hn. by apply (IH _ _ Hret i); [lia|].
    + destruct r as [|[]]; simpl; congruence.
Qed.

(** Sequential calls of other callers, each on a fresh read, extend a
    run: the store they leave heads a run that still holds the old one. *)
Lemma calls_run st tr w :
  run cfg any_request (st :: tr) →
  ∃ rest, run cfg any_request (calls cfg dir st w :: rest) ∧
          ∀ s, s ∈ st :: tr → s ∈ calls cfg dir st w :: rest.
Proof.
  revert st tr. induction w as [|req w IH]; intros st tr Hr; simpl; [by exists tr|].
  destruct (IH (call cfg dir st req).2 (st :: tr)) as (rest & Hrun & Hsub).
  { by apply run_step; [|left|]. }
  exists rest. split; [done|]. intros s Hs. apply Hsub. by right.
Qed.

Lemma attempt_run st tr w req :
  run cfg any_request (st :: tr) → ∃ rest, run cfg any_request ((attempt st w req).1.2 :: rest).
Proof.
  intros Hr. destruct (calls_run st tr w Hr) as (rest & Hrun & Hsub).
  exists (calls cfg dir st w :: rest). unfold attempt.
  destruct (commit _ _) as [r st2] eqn:Hc. simpl.
  replace st2 with (commit (calls cfg dir st w) (prepare cfg dir st req)).2 by by rewrite Hc.
  apply run_step; [done| |done]. apply Hsub. left.
Qed.

(** A retry is an execution of the concurrency model of [Runs]: its
    attempts are calls reading a store of the run, the interference calls
    on fresh reads.  So the run invariants hold of what it leaves. *)
Lemma retry_run n sched st tr req :
  run cfg any_request (st :: tr) → ∃ rest, run cfg any_request ((retry n sched st req).1.2 :: rest).
Proof.
  revert sched st tr. induction n as [|n IH]; intros sched st tr Hr; simpl.
  - destruct (attempt_run st tr (List.hd [] sched) req Hr) as [rest Hrest].
    exists rest. by repeat case_match; simplify_eq/=.
  - destruct (attempt_run st tr (List.hd [] sched) req Hr) as [rest Hrest].
    destruct (attempt st (List.hd [] sched) req) as [[r st2] eff] eqn:Ha. simpl in Hrest.
    destruct r as [|[]]; try by exists rest. by apply (IH _ _ rest).
Qed.

Lemma retry_invariants n sched st tr req :
  run cfg any_request (st :: tr) →
  let st' := (retry n sched st req).1.2 in
  engine_wf cfg st' ∧ ids_dense st' ∧ wid_unique (orders st').
Proof.
  intros Hr. destruct (retry_run n sched st tr req Hr) as [rest Hrun]. split_and!.
  - by apply run_wf, Forall_inv in Hrun.
  - by apply run_ids_dense, Forall_inv in Hrun.
  - by apply run_wid_unique, Forall_inv in Hrun.
Qed.

(** C10: Bounded retry succeeds against bounded interference (spec 5, 7):
    if at one of the [n + 1] attempts of a retry the calls of other callers
    between its read and its commit leave the store unchanged (none landed,
    or all failed), the retry does not end in [Conflict]: it succeeds or
    fails with a domain error.  A retry that does end in [Conflict] sends
    no WeCom message. *)
Theorem retry_no_conflict n sched st req :
  ((∃ i, i ≤ n ∧
     calls cfg dir (interfered st sched i) (nth i sched []) = interfered st sched i) →
   (retry n sched st req).1.1 ≠ Err Conflict) ∧
  ((retry n sched st req).1.1 = Err Conflict → (retry n sched st req).2 = []).
Proof.
  split; [intros (i & Hi & Hn) Hr; exact (retry_conflict_all n sched st req Hr i Hi Hn)|].
  destruct (retry_last_attempt n sched st req) as (k & _ & -> & _).
  destruct (attempt _ _ _) as [[r st2] eff] eqn:Ha. simpl. intros ->.
  by apply attempt_conflict in Ha as [_ ->].
Qed.

(** C11: A retried call is announced once, whatever the number of conflicts
    (spec 4.1, 5, 6): the retry's WeCom effects are nothing, or, when its
    last attempt committed, exactly the [SendWxMsg] messages of the one
    event that attempt appended, of the caller's actor and action, on top
    of the events the other callers left. *)
Theorem retry_announces_once n sched st req r st' eff :
  retry n sched st req = (r, st', eff) →
  ∃ k, k ≤ n ∧
    let s1 := calls cfg dir (interfered st sched k) (nth k sched []) in
    (events st' = events s1 ∧ eff = []) ∨
    (r = Ok ∧ ∃ ev, events st' = events s1 ++ [ev] ∧ ev_actor ev = request_actor req ∧
       ev_action ev = request_action req ∧ eff = Notify email_of template ev).
Proof.
  intros Hr. destruct (retry_last_attempt n sched st req) as (k & Hk & Heq & _).
  exists k. split; [done|]. rewrite Heq in Hr. by apply attempt_events.
Qed.

End Retry.

(** ** Witnesses *)

(** Alice cancels her order while Bob's approval lands between her read
    and her commit: the first attempt conflicts, the second succeeds. *)
Definition sample_retry (n : nat) : CallResult * Engine * list WxEffect :=
  @retry sample_wx sample_email sample_template two_steps sample_dir n [[RApprove 0 "bob"]]
    (after two_steps sample_dir [create_W1]) (RCancel 0 "alice").

Lemma retry_no_conflict_witness :
  (sample_retry 0).1.1 = Err Conflict ∧ (sample_retry 0).2 = [] ∧
  (sample_retry 1).1.1 ≠ Err Conflict.
Proof.
  assert (∃ i, i ≤ 1 ∧
    calls two_steps sample_dir
      (interfered two_steps sample_dir (after two_steps sample_dir [create_W1])
         [[RApprove 0 "bob"]] i) (nth i [[RApprove 0 "bob"]] []) =
    interfered two_steps sample_dir (after two_steps sample_dir [create_W1])
      [[RApprove 0 "bob"]] i) as Hi by (exists 1; split; [lia|reflexivity]).
  assert ((sample_retry 0).1.1 = Err Conflict) as H0 by (vm_compute; reflexivity).
  split_and!; [exact H0| |].
  - exact (proj2 (retry_no_conflict _ _ _ _ 0 _ _ _) H0).
  - exact (proj1 (retry_no_conflict _ _ _ _ 1 _ _ _) Hi).
Defined.

Lemma retry_announces_once_witness :
  sample_retry 1 = ((sample_retry 1).1.1, (sample_retry 1).1.2, (sample_retry 1).2) ∧
  (sample_retry 1).1.1 = Ok ∧ (sample_retry 1).2 ≠ [] ∧ ∃ k, k ≤ 1.
Proof.
  assert (sample_retry 1 = ((sample_retry 1).1.1, (sample_retry 1).1.2, (sample_retry 1).2))
    as Hx by (vm_compute; reflexivity).
  split_and!; [exact Hx|vm_compute; reflexivity|vm_compute; discriminate|].
  destruct (retry_announces_once _ _ _ _ 1 _ _ _ _ _ _ Hx) as (k & Hk & _). by exists k.
Defined.
