(* ===== verification/Repository.v ===== *)
(** * The repository contract (spec 6) as an interface

    The engine reaches its persisted orders through a repository:
    [Load], [CompareAndSwap] on [(status, current_step)], [AppendAudit]
    (idempotent on [(order, step, action)]), the per-order history, and
    [Query] (filter, order by id descending, offset, limit, total count)
    over the stored rows.  [Repository] lists the operations,
    [RepositoryLaws] what each promises, on stores that are [Consistent].

    Section [Client] proves the engine's use of the contract against any
    lawful repository: an update is a compare-and-swap followed, only when
    it lands, by the audit append ([apply_update], spec 5); it leaves the
    history one entry longer or, for a retried write, unchanged; and of two
    updates planned from one snapshot the second is refused.

    The engine's own store is a repository ([engine_repository]) whose
    [Query] is gorm's chain of [types.go] ([gorm_find]) over the
    [core_sql_orders] rows; it is lawful ([engine_repository_lawful]), and
    the engine's [commit] of an update is [apply_update] followed by the
    emission of its event ([commit_update_repository]). *)

From S2P Require Import Prelude Types Paging Workflow Runs Search.

Local Open Scope nat_scope.

(** ** The contract *)

Class Repository (S : Type) := {
  Load : S → nat → option Order;
  CompareAndSwap : S → nat → OrderStatus → nat → Order → option S;
  AppendAudit : S → AuditEntry → S * bool;
  HistoryOf : S → nat → list AuditEntry;
  Rows : S → list CoreSqlOrder;
  Query : S → list (CoreSqlOrder → bool) → Z → Z → Z * list CoreSqlOrder;
  Consistent : S → Prop
}.

Class RepositoryLaws (S : Type) `{!Repository S} : Prop := {
  cas_hit s id o o' :
    Consistent s → Load s id = Some o →
    ∃ s', CompareAndSwap s id (o_status o) (o_step o) o' = Some s' ∧ Consistent s' ∧
      Load s' id = Some o' ∧ (∀ j, j ≠ id → Load s' j = Load s j) ∧
      (∀ j, HistoryOf s' j = HistoryOf s j);
  cas_miss s id es ek o' :
    (∀ o, Load s id = Some o → (o_status o, o_step o) ≠ (es, ek)) →
    CompareAndSwap s id es ek o' = None;
  append_fresh s e :
    Consistent s → ¬ (∃ e', e' ∈ HistoryOf s (a_order e) ∧ same_key e e') →
    ∃ s', AppendAudit s e = (s', true) ∧ Consistent s' ∧
      HistoryOf s' (a_order e) = HistoryOf s (a_order e) ++ [e] ∧
      (∀ j, j ≠ a_order e → HistoryOf s' j = HistoryOf s j) ∧ (∀ j, Load s' j = Load s j);
  append_dup s e :
    (∃ e', e' ∈ HistoryOf s (a_order e) ∧ same_key e e') → AppendAudit s e = (s, false);
  rows_load s r :
    Consistent s → r ∈ Rows s ↔ ∃ id o, Load s id = Some o ∧ r = order_row o;
  query_ok s scopes (off lim : Z) :
    (0 <= off)%Z → (0 <= lim)%Z →
    query_contract ID (all_of scopes) (Z.to_nat off) (Z.to_nat lim) (Rows s) (Query s scopes off lim)
}.

(** ** Clients of the contract *)

Section Client.
Context `{RepositoryLaws St}.

(** An update: the compare-and-swap, then, only when it lands, the audit
    entry (spec 5: "write audit entry only after the status CAS succeeds;
    if the CAS fails, abort without appending"). *)
Definition apply_update (s : St) (id : nat) (es : OrderStatus) (ek : nat) (o' : Order)
    (e : AuditEntry) : option St :=
  match CompareAndSwap s id es ek o' with
  | Some s1 => Some (AppendAudit s1 e).1
  | None => None
  end.

Lemma apply_update_miss s id es ek o' e :
  (∀ o, Load s id = Some o → (o_status o, o_step o) ≠ (es, ek)) →
  apply_update s id es ek o' e = None.
Proof. intros Hn. unfold apply_update. by rewrite cas_miss. Qed.

(** An update planned from the current version lands: the order is
    replaced, the others are untouched, and the history of the order grows
    by the entry, or stays as it is when an entry of the same key exists. *)
Lemma apply_update_hit s id o o' e :
  Consistent s → Load s id = Some o → a_order e = id →
  ∃ s', apply_update s id (o_status o) (o_step o) o' e = Some s' ∧ Consistent s' ∧
    Load s' id = Some o' ∧ (∀ j, j ≠ id → Load s' j = Load s j) ∧
    (HistoryOf s' id = HistoryOf s id ++ [e] ∨
     HistoryOf s' id = HistoryOf s id ∧ ∃ e', e' ∈ HistoryOf s id ∧ same_key e e').
Proof.
  intros Hc Ho <-. destruct (cas_hit s (a_order e) o o' Hc Ho)
    as (s1 & Hcas & Hc1 & Hl1 & Hother & Hh1).
  unfold apply_update. rewrite Hcas.
  destruct (decide (Exists (same_key e) (HistoryOf s1 (a_order e)))) as [Hd|Hd];
    rewrite Exists_exists in Hd.
  - rewrite append_dup by done. eexists. split_and!; [done..|]. right. by rewrite <- Hh1.
  - destruct (append_fresh s1 e Hc1 Hd) as (s2 & -> & Hc2 & Hh2 & _ & Hl2).
    eexists. split_and!; [done|done|by rewrite Hl2| |].
    + intros j Hj. rewrite Hl2. by apply Hother.
    + left. simpl. by rewrite Hh2, Hh1.
Qed.

(** Race safety against the contract (spec 5, 8): two updates planned from
    the same snapshot, the first of which moves [(status, step)]: the
    first lands, the second is refused and writes nothing. *)
Lemma apply_update_race s id o o1 o2 e1 e2 :
  Consistent s → Load s id = Some o → a_order e1 = id →
  (o_status o1, o_step o1) ≠ (o_status o, o_step o) →
  ∃ s1, apply_update s id (o_status o) (o_step o) o1 e1 = Some s1 ∧
        apply_update s1 id (o_status o) (o_step o) o2 e2 = None.
Proof.
  intros Hc Ho He Hne. destruct (apply_update_hit s id o o1 e1 Hc Ho He)
    as (s1 & Hs1 & _ & Hl1 & _).
  exists s1. split; [done|]. apply apply_update_miss.
  intros o' Ho'. rewrite Hl1 in Ho'. by injection Ho' as <-.
Qed.

(** After an update the stored rows hold the new version of the order. *)
Lemma apply_update_rows s id o o' e s' :
  Consistent s → Load s id = Some o → a_order e = id →
  apply_update s id (o_status o) (o_step o) o' e = Some s' → order_row o' ∈ Rows s'.
Proof.
  intros Hc Ho He Hu. destruct (apply_update_hit s id o o' e Hc Ho He)
    as (s1 & Hs1 & Hc1 & Hl1 & _). rewrite Hu in Hs1. injection Hs1 as <-.
  apply rows_load; [done|]. by exists id, o'.
Qed.

End Client.

(** ** The engine's store as a repository *)

(** The compare-and-swap of [commit]: replace the order when its
    [(status, current_step)] is the expected one. *)
Definition engine_cas (st : Engine) (id : nat) (es : OrderStatus) (ek : nat) (o' : Order)
    : option Engine :=
  match orders st !! id with
  | Some o0 =>
      if bool_decide (o_status o0 = es ∧ o_step o0 = ek)
      then Some {| orders := <[id := o']> (orders st); audit := audit st; events := events st;
                   next_id := next_id st |}
      else None
  | None => None
  end.

(** The audit append of [commit], reporting whether the entry went in. *)
Definition engine_append (st : Engine) (e : AuditEntry) : Engine * bool :=
  ({| orders := orders st; audit := audit_append e (audit st); events := events st;
      next_id := next_id st |},
   negb (existsb (λ e', bool_decide (a_order e' = a_order e ∧ a_step e' = a_step e ∧
                                     a_action e' = a_action e)) (audit st))).

#[export] Instance engine_repository : Repository Engine := {|
  Load st id := orders st !! id;
  CompareAndSwap := engine_cas;
  AppendAudit := engine_append;
  HistoryOf st id := History id (audit st);
  Rows := order_table;
  Query st scopes off lim := gorm_find ID scopes off lim (order_table st);
  Consistent st := ∀ id, is_Some (orders st !! id) → id < next_id st
|}.

(** The event of a committed update. *)
Definition emit (st : Engine) (ev : Event) : Engine :=
  {| orders := orders st; audit := audit st; events := events st ++ [ev]; next_id := next_id st |}.

Lemma in_history_same_key e log :
  (∃ e', e' ∈ History (a_order e) log ∧ same_key e e') ↔ (∃ e', e' ∈ log ∧ same_key e e').
Proof.
  setoid_rewrite History_elem. split; [naive_solver|].
  intros (e' & Hin & Hk). exists e'. split_and!; [done|by destruct Hk|done].
Qed.

Lemma engine_cas_hit (st : Engine) id o o' :
  Consistent st → Load st id = Some o →
  ∃ st', CompareAndSwap st id (o_status o) (o_step o) o' = Some st' ∧ Consistent st' ∧
    Load st' id = Some o' ∧ (∀ j, j ≠ id → Load st' j = Load st j) ∧
    (∀ j, HistoryOf st' j = HistoryOf st j).
Proof.
  simpl. intros Hc Ho. unfold engine_cas. rewrite Ho, bool_decide_eq_true_2 by done.
  eexists. split_and!; [done| | | |done]; simpl.
  - intros j. rewrite lookup_insert. case_decide; [subst; intros _; apply Hc; by rewrite Ho|apply Hc].
  - by rewrite lookup_insert_eq.
  - intros j Hj. by rewrite lookup_insert_ne.
Qed.

Lemma engine_cas_miss (st : Engine) id es ek o' :
  (∀ o, Load st id = Some o → (o_status o, o_step o) ≠ (es, ek)) →
  CompareAndSwap st id es ek o' = None.
Proof.
  simpl. intros Hn. unfold engine_cas. destruct (orders st !! id) as [o|]; [|done].
  rewrite bool_decide_eq_false_2; [done|]. intros [<- <-]. by apply (Hn o).
Qed.

Lemma engine_append_fresh (st : Engine) e :
  Consistent st → ¬ (∃ e', e' ∈ HistoryOf st (a_order e) ∧ same_key e e') →
  ∃ st', AppendAudit st e = (st', true) ∧ Consistent st' ∧
    HistoryOf st' (a_order e) = HistoryOf st (a_order e) ++ [e] ∧
    (∀ j, j ≠ a_order e → HistoryOf st' j = HistoryOf st j) ∧ (∀ j, Load st' j = Load st j).
Proof.
  simpl. intros Hc Hn. rewrite in_history_same_key in Hn. pose proof Hn as Hn'.
  apply audit_append_fresh in Hn'. unfold engine_append.
  replace (existsb _ (audit st)) with false.
  2:{ symmetry. apply not_true_iff_false. intros Hx. apply Hn.
      apply existsb_exists in Hx as (e' & Hin & Hk%bool_decide_eq_true_1).
      exists e'. split; [by apply list_elem_of_In|done]. }
  eexists. split_and!; [done|done| |by intros; apply History_audit_append_other|done].
  simpl. rewrite Hn', History_app. f_equal. unfold History. simpl. by rewrite bool_decide_eq_true_2.
Qed.

Lemma engine_append_dup (st : Engine) e :
  (∃ e', e' ∈ HistoryOf st (a_order e) ∧ same_key e e') → AppendAudit st e = (st, false).
Proof.
  simpl. intros Hd. rewrite in_history_same_key in Hd. pose proof Hd as Hd'.
  apply audit_append_dup in Hd'. unfold engine_append. rewrite Hd'.
  replace (existsb _ (audit st)) with true; [by destruct st|].
  symmetry. destruct Hd as (e' & Hin & Hk). apply existsb_exists.
  exists e'. split; [by apply list_elem_of_In|by apply bool_decide_eq_true_2].
Qed.

Lemma engine_rows_load (st : Engine) r :
  Consistent st → r ∈ Rows st ↔ ∃ id o, Load st id = Some o ∧ r = order_row o.
Proof.
  simpl. intros Hc. rewrite order_table_elem. split; [naive_solver|].
  intros (id & o & Ho & ->). exists id, o. split_and!; [done| |done]. apply Hc. by rewrite Ho.
Qed.

(** The engine's [commit] of an update is the contract's update (the
    compare-and-swap, then the audit append) followed by the emission of
    its event; a lost compare-and-swap writes nothing. *)
Lemma commit_update_repository st id es ek o' a actor c :
  commit st (PUpdate id es ek o' a actor c) =
  match apply_update st id es ek o'
          {| a_order := id; a_step := ek; a_actor := actor; a_action := a;
             a_status := o_status o'; a_comment := c |} with
  | Some st' => (Ok, emit st' {| ev_action := a; ev_order := id; ev_work_id := o_work_id o';
                                 ev_actor := actor; ev_owner := o_owner o';
                                 ev_status := o_status o'; ev_next := o_assigned o' |})
  | None => (Err Conflict, st)
  end.
Proof.
  unfold apply_update. simpl. unfold engine_cas.
  destruct (orders st !! id); [case_bool_decide|]; done.
Qed.

(** C31: The engine's store, queried through gorm's chain of [types.go],
    implements the repository contract of spec 6: the compare-and-swap
    replaces exactly the expected version of an order and refuses any
    other, the audit append is idempotent on [(order, step, action)] and
    touches nothing else, the stored rows are the orders' rows, and
    [Query] returns the matching rows sorted by id descending, from the
    offset, at most the limit, with their total count. *)
Theorem engine_repository_lawful : RepositoryLaws Engine.
Proof.
  split.
  - apply engine_cas_hit.
  - apply engine_cas_miss.
  - apply engine_append_fresh.
  - apply engine_append_dup.
  - apply engine_rows_load.
  - intros st scopes off lim. apply gorm_find_refines.
Qed.
