(* ===== verification/Identity.v ===== *)
(** * The identity contract (spec 6) served by the account store of [login.go]

    The engine resolves a user name to an account with a role ([Resolve]
    of spec 6).  The accounts are the [core_accounts] rows that the login
    handlers of [login.go] create: [directory_of] reads them, with the role
    of an account given by its [rule] column ([role_of_rule]).  This file
    composes the two components: every account a login handler creates
    has the rule [guest], whatever the bound request says, so no sequence
    of LDAP logins, password logins, registrations and OAuth callbacks
    makes anyone an admin; and an account that exists because of them can
    neither edit, delete nor cancel an order it does not own. *)

From S2P Require Import Prelude Types Accounts Login Workflow.

(** ** Accounts as the engine resolves them *)

Definition role_of_rule (rule : string) : Role :=
  if bool_decide (rule = "admin") then Admin
  else if bool_decide (rule = "dba") then Dba else Guest.

Definition account_of (a : CoreAccount) : Account :=
  {| acc_name := Username a; acc_role := role_of_rule (Rule a); acc_department := Department a |}.

(** [Resolve]: the rows of [core_accounts]; the group grants come from the
    administration functions outside the core. *)
Definition directory_of (s : Store) (grants : string → list string) : Directory :=
  {| users := account_of <$> accounts s; GrantsFor := grants |}.

(** ** The handlers create guests only *)

Section Guests.
Context `{LoginEnv}.

(** The store after a call: unchanged, or one account with the rule
    [guest] and its grained row appended. *)
Definition adds_guest (s s' : Store) : Prop :=
  s' = s ∨ ∃ a, Rule a = "guest" ∧
                s' = create_grained (new_grained (Username a)) (create_account a s).

Ltac guest_created :=
  match goal with
  | |- adds_guest _ (create_grained _ (create_account ?a _)) =>
      right; exists a; split; reflexivity
  end.

Lemma gitlabUserRegister_guest s gu s' cu err :
  gitlabUserRegister s gu = Some (s', cu, err) → adds_guest s s'.
Proof. unfold gitlabUserRegister. intros Hg. go_case; first [by left | guest_created]. Qed.

Lemma run_call_adds_guest s c : adds_guest s (run_call s c).1.
Proof.
  destruct c as [r|r|t|r|glo r]; simpl; try by left.
  - unfold UserLdapLogin. destruct r as [u|]; [|by left].
    go_case; first [by left | guest_created].
  - unfold HandleCallback. destruct r as [g|]; [|by left].
    go_case; first [by left | guest_created | eapply gitlabUserRegister_guest; eassumption].
  - unfold UserRegister. destruct (Register glo), r as [u|]; simpl; try by left.
    case_bool_decide; [by left|simpl; guest_created].
Qed.

Lemma adds_guest_admin s s' grants u :
  adds_guest s s' → is_admin (directory_of s' grants) u = is_admin (directory_of s grants) u.
Proof.
  intros [->|(a & Ha & ->)]; [done|]. unfold is_admin, directory_of. simpl.
  rewrite fmap_app, existsb_app. simpl. rewrite Ha, bool_decide_eq_false_2; [apply orb_false_r|].
  by intros [_ ?].
Qed.

(** No reachable store holds an admin: the login handlers never grant the
    role. *)
Lemma reachable_no_admin ok s grants u :
  reachable ok s → is_admin (directory_of s grants) u = false.
Proof.
  induction 1 as [|s c Hr IH Hc]; [done|].
  by rewrite (adds_guest_admin s) by apply run_call_adds_guest.
Qed.

(** C23: The login handlers grant no authority over other users' orders
    (spec 4.1, 6): in every store reached by any sequence of LDAP logins,
    password logins, registrations and OAuth callbacks, with any requests,
    an account edits, deletes or cancels an order it does not own only to
    be refused with [Forbidden] (a cancellation of an order already
    cancelled is the idempotent no-op). *)
Theorem login_grants_no_authority ok s grants cfg o id u :
  reachable ok s → u ≠ o_owner o →
  (∀ text, transition cfg (directory_of s grants) o (REdit id u text) = inl Forbidden) ∧
  transition cfg (directory_of s grants) o (RDelete id u) = inl Forbidden ∧
  (o_status o ≠ Cancelled → o_status o ≠ AllCancelled →
   transition cfg (directory_of s grants) o (RCancel id u) = inl Forbidden).
Proof.
  intros Hr Hu. pose proof (reachable_no_admin ok s grants u Hr) as Ha.
  unfold transition, may_manage. rewrite Ha, bool_decide_eq_false_2 by done. simpl.
  split_and!; [done|done|]. intros Hc Hac. by destruct (o_status o).
Qed.
End Guests.

(** ** Witnesses *)

(** An order of carol's, waiting for its first approval. *)
Definition carol_order : Order :=
  {| o_id := 0; o_work_id := "W2"; o_owner := "carol"; o_text := "delete from t";
     o_source := "s1"; o_database := "d1"; o_kind := Execution; o_status := Created;
     o_step := 0; o_assigned := ["bob"]; o_executor := "" |}.

(** Alice registered with the rule [admin] in her request; she still
    cannot delete carol's order. *)
Lemma login_grants_no_authority_witness :
  Rule alice = "admin" ∧ "alice" ≠ o_owner carol_order ∧
  transition {| multiApprover := false; chainDefinition := ["dba"] |}
    (directory_of sample_history (λ _, [])) carol_order (RDelete 0 "alice") = inl Forbidden.
Proof.
  assert ("alice" ≠ o_owner carol_order) as Hu by (vm_compute; discriminate).
  split_and!; [reflexivity|exact Hu|].
  exact (proj1 (proj2 (login_grants_no_authority _ _ _ _ _ _ _ sample_history_reachable Hu))).
Defined.
